(** * Analytics aggregation engine of the bug-bounty tracker

    A shallow embedding of the aggregation functions of
    [src/components/AnalyticsView.tsx], the properties the specification
    states about them, and further properties of the engine and of the
    view that calls it.

    Modelling conventions.
    - Counters and array lengths are [nat].  Where a property relates an
      output to the sum or the quotient that the code evaluates, money
      amounts and rates are exact rationals ([Q], compared with [==]) and
      the rounding of binary floating point is left out.  Where the result
      is decided by the binary64 value itself, the code is embedded on
      binary64 numbers ([float], with the operations of IEEE 754): the
      integer success rate of a rollup row ([roundedRate]), and the order
      and the ties of the rows of the two rollups (module [Binary64]).
    - A [Date] is its time value, an integer number of milliseconds since
      the epoch ([Z]).  The host's local time zone is a fixed offset
      [tz] (milliseconds east of UTC, no daylight saving changes); the
      calendar is the proleptic Gregorian calendar of ECMAScript.  A
      [created_at] column is a [timestamp with time zone], a
      [submission_date] / [resolution_date] column is a nullable [date]: a
      record holds the instants they denote.
    - [const now = new Date()] is the parameter [now], a present-day
      instant: the constructor's special reading of the years 0 to 99 as
      1900 to 1999 does not arise.
    - A plain object used as a dictionary is the association list of its
      own properties in creation order, together with the two ways in which
      it differs from a map: reading a name it does not own finds what
      [Object.prototype] defines under that name, and [Object.entries] and
      [Object.values] list the names that are array indices first, by
      increasing index, before the others in creation order.
    - [array.sort] is the stable sort the language prescribes.
    - [setXxx(value)] of a React state hook is the function returning
      [value].
    - A dictionary of counters ([counts[k] = (counts[k] || 0) + 1]) holds
      numbers, except under a name that [Object.prototype] defines: there
      [+] concatenates strings, and an assignment under [__proto__] is
      ignored.
    - [fetchAnalyticsData] is a function from what its two awaited calls
      gave to the state of the view when it has finished; notifications
      and logging are not modelled.  [Intl.NumberFormat], which depends on
      the locale data of the host, is not modelled. *)

From Stdlib Require Import ZArith QArith Qround Qabs List String Ascii Bool.
From Stdlib Require Import Lia.
From Stdlib Require Import Sorted Permutation Floats.
Import ListNotations.

Local Open Scope Z_scope.

(** ** Calendar arithmetic of [Date] *)

Definition msPerDay : Z := 1000 * 60 * 60 * 24.

(** The calendar repeats every 400 years, an era of 146097 days that
    starts on a 1st of March.  [doe_of_civil yoe mp d] is the day of the era
    of day [d] of month [mp] (0 for March, ..., 11 for February) of year
    [yoe] of the era. *)
Definition doe_of_civil (yoe mp d : Z) : Z :=
  let doy := (153 * mp + 2) / 5 + d - 1 in
  yoe * 365 + yoe / 4 - yoe / 100 + doy.

(** Day number (days since 1970-01-01) of a civil date; [m] is 1-based. *)
Definition days_from_civil (y m d : Z) : Z :=
  let y' := if m <=? 2 then y - 1 else y in
  let era := y' / 400 in
  let yoe := y' mod 400 in
  let mp := if 2 <? m then m - 3 else m + 9 in
  era * 146097 + doe_of_civil yoe mp d - 719468.

(** Civil date of a day of the era, the year counted within the era. *)
Definition civil_of_doe (doe : Z) : Z * Z * Z :=
  let yoe := (doe - doe / 1460 + doe / 36524 - doe / 146096) / 365 in
  let doy := doe - (365 * yoe + yoe / 4 - yoe / 100) in
  let mp := (5 * doy + 2) / 153 in
  let d := doy - (153 * mp + 2) / 5 + 1 in
  let m := if mp <? 10 then mp + 3 else mp - 9 in
  (yoe + (if m <=? 2 then 1 else 0), m, d).

(** Civil date (year, 1-based month, day of month) of a day number. *)
Definition civil_from_days (z : Z) : Z * Z * Z :=
  let z' := z + 719468 in
  let era := z' / 146097 in
  let '(y, m, d) := civil_of_doe (z' mod 146097) in
  (y + era * 400, m, d).

(** [MakeDay(year, month, date)] of ECMAScript: [month] is 0-based and may
    lie outside 0..11, [date] may lie outside the month. *)
Definition MakeDay (year month date : Z) : Z :=
  let ym := year + month / 12 in
  let mn := month mod 12 in
  days_from_civil ym (mn + 1) 1 + date - 1.

Section LocalTime.
(** Offset of local time from UTC, in milliseconds. *)
Variable tz : Z.

(** [new Date(year, monthIndex, day)]: local midnight, as a time value. *)
Definition newDate (year monthIndex day : Z) : Z :=
  MakeDay year monthIndex day * msPerDay - tz.

Definition localDay (t : Z) : Z := (t + tz) / msPerDay.

Definition getFullYear (t : Z) : Z :=
  let '(y, _, _) := civil_from_days (localDay t) in y.

(** 0-based month. *)
Definition getMonth (t : Z) : Z :=
  let '(_, m, _) := civil_from_days (localDay t) in m - 1.

Definition getDate (t : Z) : Z :=
  let '(_, _, d) := civil_from_days (localDay t) in d.
End LocalTime.

(** *** Month labels: [toLocaleDateString('en-US', {month:'short', year:'2-digit'})] *)

Definition monthShort (monthIndex : Z) : string :=
  match monthIndex with
  | 0 => "Jan" | 1 => "Feb" | 2 => "Mar" | 3 => "Apr"
  | 4 => "May" | 5 => "Jun" | 6 => "Jul" | 7 => "Aug"
  | 8 => "Sep" | 9 => "Oct" | 10 => "Nov" | _ => "Dec"
  end%string.

Definition digit (n : Z) : ascii := ascii_of_nat (48 + Z.to_nat n).

(** The year as the formatter counts it: from 1 upwards in either era, the
    year before year 1 being year 1 of the previous era. *)
Definition yearOfEra (y : Z) : Z := if 1 <=? y then y else 1 - y.

(** The year rendered with two digits: the last two decimal digits of the
    year of the era. *)
Definition twoDigitYear (y : Z) : string :=
  let yy := yearOfEra y mod 100 in
  String (digit (yy / 10)) (String (digit (yy mod 10)) EmptyString).

Definition monthLabel (monthIndex year : Z) : string :=
  (monthShort monthIndex ++ " " ++ twoDigitYear year)%string.

Definition toLocaleDateString (tz t : Z) : string :=
  monthLabel (getMonth tz t) (getFullYear tz t).

(** ** Data model *)

Module Platform.
Record t := { name : string }.
End Platform.

Module Program.
Record t := {
    target_name : string;
    company : string;
    platforms : option Platform.t
  }.
End Program.

Module BugData.
Record t := {
    id : string;
    title : string;
    severity : string;
    status : string;
    bounty_amount : option Q;
    created_at : Z;
    submission_date : option Z;
    resolution_date : option Z;
    program_id : option string;
    programs : option Program.t
  }.
End BugData.

Module AnalyticsStats.
Record t := {
    totalBugs : nat;
    totalEarnings : Q;
    acceptedBugs : nat;
    rejectedBugs : nat;
    pendingBugs : nat;
    successRate : Q;
    avgBounty : Q;
    avgTimeToResolution : Q;
    thisMonthEarnings : Q;
    lastMonthEarnings : Q;
    thisYearEarnings : Q;
    lastYearEarnings : Q
  }.
End AnalyticsStats.

Module MonthlyData.
Record t := {
    month : string;
    earnings : Q;
    submissions : nat;
    accepted : nat
  }.
End MonthlyData.

Module PlatformData.
Record t := {
    name : string;
    bugs : nat;
    earnings : Q;
    successRate : Z
  }.
End PlatformData.

Module ProgramData.
Record t := {
    name : string;
    company : string;
    bugs : nat;
    earnings : Q;
    successRate : Z
  }.
End ProgramData.

(** ** Small pieces of the JavaScript runtime *)

(** [array.includes(s)] on an array of strings. *)
Definition includes (xs : list string) (s : string) : bool :=
  existsb (String.eqb s) xs.

(** [s || dflt] on a string: the empty string is falsy. *)
Definition strOr (s dflt : string) : string :=
  if String.eqb s "" then dflt else s.

(** [bug.bounty_amount || 0]: [null] and [0] both give [0]. *)
Definition amountOrZero (bug : BugData.t) : Q :=
  match BugData.bounty_amount bug with
  | Some q => q
  | None => 0%Q
  end.

(** [array.reduce((sum, bug) => sum + (bug.bounty_amount || 0), 0)]. *)
Definition sumBounty (bugs : list BugData.t) : Q :=
  fold_left (fun sum bug => (sum + amountOrZero bug)%Q) bugs 0%Q.

(** [n] as a JavaScript number. *)
Definition num (n : nat) : Q := inject_Z (Z.of_nat n).

(** [Math.round]: the nearest integer, halves towards plus infinity. *)
Definition Math_round (x : Q) : Z := Qfloor (x + (1 # 2))%Q.

(** [Math.ceil] of the quotient of two integers, the divisor positive. *)
Definition Math_ceil_div (a b : Z) : Z := - ((- a) / b).

(** A counter as the binary64 number that holds it.  Integers up to 2^53
    are binary64 numbers; a counter that has reached 2^53 stays there, since
    2^53 + 1 rounds back to 2^53. *)
Definition counter (n : nat) : float :=
  PrimFloat.of_uint63 (Uint63.of_Z (Z.min (Z.of_nat n) 9007199254740992)).

(** The real number that a finite binary64 number stands for: its
    significand times a power of two. *)
Definition realOf (x : float) : Q :=
  match Prim2SF x with
  | S754_finite s m e =>
      if 0 <=? e then inject_Z (cond_Zopp s (Z.pos m) * 2 ^ e)
      else Qmake (cond_Zopp s (Z.pos m)) (Z.to_pos (2 ^ (- e)))
  | _ => 0%Q
  end.

(** [Math.round] of a binary64 number, for a finite argument (as is the
    quotient of two counters, the divisor positive, times 100): the
    function works on the number itself, without a further rounding. *)
Definition Math_round64 (x : float) : Z := Math_round (realOf x).

(** A plain object used as a dictionary: its own properties in creation
    order.  What the object inherits from [Object.prototype] and the order
    in which its properties are enumerated are part of the model. *)
Module JsObject.

(** The property names of [Object.prototype].  Each holds a function or the
    prototype object itself, so an inherited property reads as true. *)
Definition inherited (k : string) : bool :=
  existsb (String.eqb k)
    ["constructor"; "__defineGetter__"; "__defineSetter__"; "hasOwnProperty";
     "__lookupGetter__"; "__lookupSetter__"; "isPrototypeOf";
     "propertyIsEnumerable"; "toString"; "valueOf"; "__proto__";
     "toLocaleString"]%string.

Definition digitValue (c : ascii) : option N :=
  let n := N_of_ascii c in
  if ((48 <=? n) && (n <=? 57))%N then Some (n - 48)%N else None.

(** Value of a string of decimal digits read after the digits [acc]. *)
Fixpoint numeral (s : string) (acc : N) : option N :=
  match s with
  | EmptyString => Some acc
  | String c s' =>
      match digitValue c with
      | Some d => numeral s' (10 * acc + d)%N
      | None => None
      end
  end.

(** The array index a property name denotes, if it denotes one: the name is
    the decimal numeral, without leading zero, of an integer below
    2^32 - 1. *)
Definition arrayIndex (k : string) : option N :=
  match k with
  | EmptyString => None
  | String c rest =>
      if Ascii.eqb c "0" && negb (String.eqb rest "") then None
      else match numeral k 0 with
           | Some n => if (n <? 4294967295)%N then Some n else None
           | None => None
           end
  end.

Section Enumeration.
Context {X : Type}.
Variable name : X -> string.

(** Insertion by increasing array index. *)
Fixpoint insertIndexed (x : N * X) (l : list (N * X)) : list (N * X) :=
  match l with
  | [] => [x]
  | y :: l' =>
      if (fst x <=? fst y)%N then x :: y :: l' else y :: insertIndexed x l'
  end.

Fixpoint indexed (l : list X) : list (N * X) :=
  match l with
  | [] => []
  | x :: l' =>
      match arrayIndex (name x) with
      | Some n => insertIndexed (n, x) (indexed l')
      | None => indexed l'
      end
  end.

Definition named (l : list X) : list X :=
  filter (fun x => match arrayIndex (name x) with
                   | Some _ => false
                   | None => true
                   end) l.

(** The order of property enumeration: the properties whose name is an
    array index by increasing index, then the others in creation order. *)
Definition enumerate (l : list X) : list X :=
  (map snd (indexed l) ++ named l)%list.
End Enumeration.

Section Obj.
Context {V : Type}.

Definition t := list (string * V).

Definition empty : t := [].

(** [o[k]], [None] for [undefined]. *)
Fixpoint get (o : t) (k : string) : option V :=
  match o with
  | [] => None
  | (k', v) :: o' => if String.eqb k k' then Some v else get o' k
  end.

(** [o[k] = v]: an existing property keeps its place. *)
Fixpoint set (o : t) (k : string) (v : V) : t :=
  match o with
  | [] => [(k, v)]
  | (k', v') :: o' =>
      if String.eqb k k' then (k, v) :: o' else (k', v') :: set o' k v
  end.

(** In-place update of the object stored at [o[k]], as in
    [o[k].field += 1].  The callers only update a property they have
    just found to read as true or have just created; when the property
    is an inherited one, the update lands on the inherited object and
    leaves the dictionary as it is. *)
Fixpoint modify (o : t) (k : string) (f : V -> V) : t :=
  match o with
  | [] => []
  | (k', v) :: o' =>
      if String.eqb k k' then (k', f v) :: o' else (k', v) :: modify o' k f
  end.

(** Truthiness of [o[k]] in a dictionary whose values are objects. *)
Definition truthy (o : t) (k : string) : bool :=
  match get o k with
  | Some _ => true
  | None => inherited k
  end.

Definition keys (o : t) : list string := map fst o.
(** [Object.entries(o)] and [Object.values(o)]. *)
Definition entries (o : t) : list (string * V) := enumerate fst o.
Definition values (o : t) : list V := map snd (entries o).
End Obj.
Arguments t : clear implicits.
End JsObject.

(** [array.sort(compareFn)]: the stable sort; [a] moves behind [b] exactly
    when [compareFn a b] is positive. *)
Section ArraySort.
Context {A : Type}.
Variable compareFn : A -> A -> Q.

Fixpoint sort_insert (x : A) (l : list A) : list A :=
  match l with
  | [] => [x]
  | y :: l' =>
      if Qle_bool (compareFn x y) 0 then x :: y :: l'
      else y :: sort_insert x l'
  end.

Fixpoint Array_sort (l : list A) : list A :=
  match l with
  | [] => []
  | x :: l' => sort_insert x (Array_sort l')
  end.
End ArraySort.

(** [array.slice(0, n)]. *)
Definition slice0 {A : Type} (n : nat) (l : list A) : list A := firstn n l.

(** [o?.s || dflt] where the optional chain may give [undefined]. *)
Definition optOr (o : option string) (dflt : string) : string :=
  match o with
  | Some s => strOr s dflt
  | None => dflt
  end.

(** [new Date(d)] for a nullable date column: [new Date(null)] is the epoch. *)
Definition dateOf (d : option Z) : Z :=
  match d with
  | Some t => t
  | None => 0
  end.

(** Truthiness of a nullable column. *)
Definition present {T : Type} (o : option T) : bool :=
  match o with
  | Some _ => true
  | None => false
  end.

(** ** The aggregation engine *)

Definition acceptedStatuses : list string :=
  ["Accepted"; "Resolved"; "Bounty Awarded"]%string.
Definition rejectedStatuses : list string :=
  ["Duplicate"; "Not Applicable"]%string.
Definition pendingStatuses : list string :=
  ["Draft"; "Submitted"; "Triaged"]%string.
(** [[...acceptedStatuses, 'Duplicate', 'Not Applicable']]. *)
Definition resolvedStatuses : list string :=
  (acceptedStatuses ++ ["Duplicate"; "Not Applicable"]%string)%list.

(** Accumulator of one platform group. *)
Module PlatformAcc.
Record t := { bugs : nat; earnings : Q; accepted : nat; total : nat }.
End PlatformAcc.

(** Accumulator of one program group. *)
Module ProgramAcc.
Record t := {
    company : string; bugs : nat; earnings : Q; accepted : nat; total : nat
  }.
End ProgramAcc.

Definition platformName (bug : BugData.t) : string :=
  optOr (match BugData.programs bug with
         | Some p => option_map Platform.name (Program.platforms p)
         | None => None
         end) "Unknown".

Definition programName (bug : BugData.t) : string :=
  optOr (option_map Program.target_name (BugData.programs bug)) "Unknown".

Definition companyName (bug : BugData.t) : string :=
  optOr (option_map Program.company (BugData.programs bug)) "Unknown".

(** [data.total > 0 ? Math.round((data.accepted / data.total) * 100) : 0],
    the quotient and the product in binary64. *)
Definition roundedRate (accepted total : nat) : Z :=
  if (0 <? total)%nat
  then Math_round64 ((counter accepted / counter total) * 100)%float
  else 0.

Section Engine.
Variable tz : Z.
(** [const now = new Date()]. *)
Variable now : Z.

Definition filterBugsByTimeRange (bugs : list BugData.t) (range : string)
  : list BugData.t :=
  let since startDate :=
    filter (fun bug => startDate <=? BugData.created_at bug) bugs in
  if String.eqb range "month" then
    since (newDate tz (getFullYear tz now) (getMonth tz now) 1)
  else if String.eqb range "6months" then
    since (newDate tz (getFullYear tz now) (getMonth tz now - 6) 1)
  else if String.eqb range "year" then
    since (newDate tz (getFullYear tz now) 0 1)
  else bugs.

Definition thisMonthStart : Z :=
  newDate tz (getFullYear tz now) (getMonth tz now) 1.
Definition lastMonthStart : Z :=
  newDate tz (getFullYear tz now) (getMonth tz now - 1) 1.
Definition lastMonthEnd : Z :=
  newDate tz (getFullYear tz now) (getMonth tz now) 0.
Definition thisYearStart : Z := newDate tz (getFullYear tz now) 0 1.
Definition lastYearStart : Z := newDate tz (getFullYear tz now - 1) 0 1.
Definition lastYearEnd : Z := newDate tz (getFullYear tz now - 1) 11 31.

(** The per-record day count summed by [calculateStats]. *)
Definition resolutionDays (bug : BugData.t) : Z :=
  let submissionDate := dateOf (BugData.submission_date bug) in
  let resolutionDate := dateOf (BugData.resolution_date bug) in
  Math_ceil_div (resolutionDate - submissionDate) msPerDay.

Definition calculateStats (filteredBugs allBugs : list BugData.t)
  : AnalyticsStats.t :=
  let totalEarnings := sumBounty filteredBugs in
  let acceptedBugs :=
    List.length (filter (fun bug => includes acceptedStatuses (BugData.status bug))
              filteredBugs) in
  let rejectedBugs :=
    List.length (filter (fun bug => includes rejectedStatuses (BugData.status bug))
              filteredBugs) in
  let pendingBugs :=
    List.length (filter (fun bug => includes pendingStatuses (BugData.status bug))
              filteredBugs) in
  let resolvedBugs :=
    filter (fun bug => includes acceptedStatuses (BugData.status bug)
                       || includes rejectedStatuses (BugData.status bug))
      filteredBugs in
  let successRate :=
    if (0 <? List.length resolvedBugs)%nat
    then ((num acceptedBugs / num (List.length resolvedBugs)) * 100)%Q
    else 0%Q in
  let bugsWithBounty :=
    filter (fun bug => match BugData.bounty_amount bug with
                       | Some q => negb (Qeq_bool q 0) && negb (Qle_bool q 0)
                       | None => false
                       end) filteredBugs in
  let avgBounty :=
    if (0 <? List.length bugsWithBounty)%nat
    then (totalEarnings / num (List.length bugsWithBounty))%Q
    else 0%Q in
  let bugsWithResolution :=
    filter (fun bug => present (BugData.submission_date bug)
                       && present (BugData.resolution_date bug))
      filteredBugs in
  let avgTimeToResolution :=
    if (0 <? List.length bugsWithResolution)%nat then
      let totalDays :=
        fold_left (fun sum bug => sum + resolutionDays bug)
          bugsWithResolution 0 in
      (inject_Z totalDays / num (List.length bugsWithResolution))%Q
    else 0%Q in
  let thisMonthEarnings :=
    sumBounty (filter (fun bug => thisMonthStart <=? BugData.created_at bug)
                 allBugs) in
  let lastMonthEarnings :=
    sumBounty (filter (fun bug =>
                         let date := BugData.created_at bug in
                         (lastMonthStart <=? date) && (date <=? lastMonthEnd))
                 allBugs) in
  let thisYearEarnings :=
    sumBounty (filter (fun bug => thisYearStart <=? BugData.created_at bug)
                 allBugs) in
  let lastYearEarnings :=
    sumBounty (filter (fun bug =>
                         let date := BugData.created_at bug in
                         (lastYearStart <=? date) && (date <=? lastYearEnd))
                 allBugs) in
  {| AnalyticsStats.totalBugs := List.length filteredBugs;
     AnalyticsStats.totalEarnings := totalEarnings;
     AnalyticsStats.acceptedBugs := acceptedBugs;
     AnalyticsStats.rejectedBugs := rejectedBugs;
     AnalyticsStats.pendingBugs := pendingBugs;
     AnalyticsStats.successRate := successRate;
     AnalyticsStats.avgBounty := avgBounty;
     AnalyticsStats.avgTimeToResolution := avgTimeToResolution;
     AnalyticsStats.thisMonthEarnings := thisMonthEarnings;
     AnalyticsStats.lastMonthEarnings := lastMonthEarnings;
     AnalyticsStats.thisYearEarnings := thisYearEarnings;
     AnalyticsStats.lastYearEarnings := lastYearEarnings |}.

(** The loop [for (let i = 11; i >= 0; i--)] of [calculateMonthlyData]. *)
Definition monthOffsets : list Z := [11; 10; 9; 8; 7; 6; 5; 4; 3; 2; 1; 0].

Definition initMonth (monthlyMap : JsObject.t MonthlyData.t) (i : Z)
  : JsObject.t MonthlyData.t :=
  let date := newDate tz (getFullYear tz now) (getMonth tz now - i) 1 in
  let key := toLocaleDateString tz date in
  JsObject.set monthlyMap key
    {| MonthlyData.month := key; MonthlyData.earnings := 0%Q;
       MonthlyData.submissions := 0%nat; MonthlyData.accepted := 0%nat |}.

Definition addSubmission (d : MonthlyData.t) : MonthlyData.t :=
  {| MonthlyData.month := MonthlyData.month d;
     MonthlyData.earnings := MonthlyData.earnings d;
     MonthlyData.submissions := MonthlyData.submissions d + 1;
     MonthlyData.accepted := MonthlyData.accepted d |}.

Definition addEarnings (q : Q) (d : MonthlyData.t) : MonthlyData.t :=
  {| MonthlyData.month := MonthlyData.month d;
     MonthlyData.earnings := (MonthlyData.earnings d + q)%Q;
     MonthlyData.submissions := MonthlyData.submissions d;
     MonthlyData.accepted := MonthlyData.accepted d |}.

Definition addAccepted (d : MonthlyData.t) : MonthlyData.t :=
  {| MonthlyData.month := MonthlyData.month d;
     MonthlyData.earnings := MonthlyData.earnings d;
     MonthlyData.submissions := MonthlyData.submissions d;
     MonthlyData.accepted := MonthlyData.accepted d + 1 |}.

(** Body of [bugs.forEach] in [calculateMonthlyData]: a record whose label
    is not the key of a bucket is skipped. *)
Definition monthlyStep (monthlyMap : JsObject.t MonthlyData.t)
  (bug : BugData.t) : JsObject.t MonthlyData.t :=
  let date := BugData.created_at bug in
  let key := toLocaleDateString tz date in
  if JsObject.truthy monthlyMap key then
    let m1 := JsObject.modify monthlyMap key addSubmission in
    let m2 := JsObject.modify m1 key (addEarnings (amountOrZero bug)) in
    if includes acceptedStatuses (BugData.status bug)
    then JsObject.modify m2 key addAccepted
    else m2
  else monthlyMap.

Definition calculateMonthlyData (bugs : list BugData.t)
  : list MonthlyData.t :=
  let monthlyMap := fold_left initMonth monthOffsets JsObject.empty in
  JsObject.values (fold_left monthlyStep bugs monthlyMap).
End Engine.

(** *** Platform rollup *)

Definition newPlatformAcc : PlatformAcc.t :=
  {| PlatformAcc.bugs := 0; PlatformAcc.earnings := 0%Q;
     PlatformAcc.accepted := 0; PlatformAcc.total := 0 |}.

Definition platformAddBug (a : PlatformAcc.t) : PlatformAcc.t :=
  {| PlatformAcc.bugs := PlatformAcc.bugs a + 1;
     PlatformAcc.earnings := PlatformAcc.earnings a;
     PlatformAcc.accepted := PlatformAcc.accepted a;
     PlatformAcc.total := PlatformAcc.total a |}.

Definition platformAddEarnings (q : Q) (a : PlatformAcc.t) : PlatformAcc.t :=
  {| PlatformAcc.bugs := PlatformAcc.bugs a;
     PlatformAcc.earnings := (PlatformAcc.earnings a + q)%Q;
     PlatformAcc.accepted := PlatformAcc.accepted a;
     PlatformAcc.total := PlatformAcc.total a |}.

Definition platformAddTotal (a : PlatformAcc.t) : PlatformAcc.t :=
  {| PlatformAcc.bugs := PlatformAcc.bugs a;
     PlatformAcc.earnings := PlatformAcc.earnings a;
     PlatformAcc.accepted := PlatformAcc.accepted a;
     PlatformAcc.total := PlatformAcc.total a + 1 |}.

Definition platformAddAccepted (a : PlatformAcc.t) : PlatformAcc.t :=
  {| PlatformAcc.bugs := PlatformAcc.bugs a;
     PlatformAcc.earnings := PlatformAcc.earnings a;
     PlatformAcc.accepted := PlatformAcc.accepted a + 1;
     PlatformAcc.total := PlatformAcc.total a |}.

(** Body of [bugs.forEach] in [calculatePlatformData].  The test
    [!platformMap[platformName]] reads the property, own or inherited. *)
Definition platformStep (platformMap : JsObject.t PlatformAcc.t)
  (bug : BugData.t) : JsObject.t PlatformAcc.t :=
  let platformName := platformName bug in
  let m0 :=
    if negb (JsObject.truthy platformMap platformName)
    then JsObject.set platformMap platformName newPlatformAcc
    else platformMap in
  let m1 := JsObject.modify m0 platformName platformAddBug in
  let m2 :=
    JsObject.modify m1 platformName (platformAddEarnings (amountOrZero bug)) in
  if includes resolvedStatuses (BugData.status bug) then
    let m3 := JsObject.modify m2 platformName platformAddTotal in
    if includes acceptedStatuses (BugData.status bug)
    then JsObject.modify m3 platformName platformAddAccepted
    else m3
  else m2.

Definition platformEntry (e : string * PlatformAcc.t) : PlatformData.t :=
  let '(name, data) := e in
  {| PlatformData.name := name;
     PlatformData.bugs := PlatformAcc.bugs data;
     PlatformData.earnings := PlatformAcc.earnings data;
     PlatformData.successRate :=
       roundedRate (PlatformAcc.accepted data) (PlatformAcc.total data) |}.

Definition calculatePlatformData (bugs : list BugData.t)
  : list PlatformData.t :=
  let platformMap := fold_left platformStep bugs JsObject.empty in
  Array_sort
    (fun a b => (PlatformData.earnings b - PlatformData.earnings a)%Q)
    (map platformEntry (JsObject.entries platformMap)).

(** *** Program leaderboard *)

Definition newProgramAcc (company : string) : ProgramAcc.t :=
  {| ProgramAcc.company := company;
     ProgramAcc.bugs := 0; ProgramAcc.earnings := 0%Q;
     ProgramAcc.accepted := 0; ProgramAcc.total := 0 |}.

Definition programAddBug (a : ProgramAcc.t) : ProgramAcc.t :=
  {| ProgramAcc.company := ProgramAcc.company a;
     ProgramAcc.bugs := ProgramAcc.bugs a + 1;
     ProgramAcc.earnings := ProgramAcc.earnings a;
     ProgramAcc.accepted := ProgramAcc.accepted a;
     ProgramAcc.total := ProgramAcc.total a |}.

Definition programAddEarnings (q : Q) (a : ProgramAcc.t) : ProgramAcc.t :=
  {| ProgramAcc.company := ProgramAcc.company a;
     ProgramAcc.bugs := ProgramAcc.bugs a;
     ProgramAcc.earnings := (ProgramAcc.earnings a + q)%Q;
     ProgramAcc.accepted := ProgramAcc.accepted a;
     ProgramAcc.total := ProgramAcc.total a |}.

Definition programAddTotal (a : ProgramAcc.t) : ProgramAcc.t :=
  {| ProgramAcc.company := ProgramAcc.company a;
     ProgramAcc.bugs := ProgramAcc.bugs a;
     ProgramAcc.earnings := ProgramAcc.earnings a;
     ProgramAcc.accepted := ProgramAcc.accepted a;
     ProgramAcc.total := ProgramAcc.total a + 1 |}.

Definition programAddAccepted (a : ProgramAcc.t) : ProgramAcc.t :=
  {| ProgramAcc.company := ProgramAcc.company a;
     ProgramAcc.bugs := ProgramAcc.bugs a;
     ProgramAcc.earnings := ProgramAcc.earnings a;
     ProgramAcc.accepted := ProgramAcc.accepted a + 1;
     ProgramAcc.total := ProgramAcc.total a |}.

(** Body of [bugs.forEach] in [calculateTopPrograms].  The test
    [!programMap[programName]] reads the property, own or inherited. *)
Definition programStep (programMap : JsObject.t ProgramAcc.t)
  (bug : BugData.t) : JsObject.t ProgramAcc.t :=
  let programName := programName bug in
  let company := companyName bug in
  let m0 :=
    if negb (JsObject.truthy programMap programName)
    then JsObject.set programMap programName (newProgramAcc company)
    else programMap in
  let m1 := JsObject.modify m0 programName programAddBug in
  let m2 :=
    JsObject.modify m1 programName (programAddEarnings (amountOrZero bug)) in
  if includes resolvedStatuses (BugData.status bug) then
    let m3 := JsObject.modify m2 programName programAddTotal in
    if includes acceptedStatuses (BugData.status bug)
    then JsObject.modify m3 programName programAddAccepted
    else m3
  else m2.

Definition programEntry (e : string * ProgramAcc.t) : ProgramData.t :=
  let '(name, data) := e in
  {| ProgramData.name := name;
     ProgramData.company := ProgramAcc.company data;
     ProgramData.bugs := ProgramAcc.bugs data;
     ProgramData.earnings := ProgramAcc.earnings data;
     ProgramData.successRate :=
       roundedRate (ProgramAcc.accepted data) (ProgramAcc.total data) |}.

Definition calculateTopPrograms (bugs : list BugData.t)
  : list ProgramData.t :=
  let programMap := fold_left programStep bugs JsObject.empty in
  slice0 5
    (Array_sort
       (fun a b => (ProgramData.earnings b - ProgramData.earnings a)%Q)
       (map programEntry (JsObject.entries programMap))).

(** ** Specification-side notions *)

(** Sum of the amounts of a collection, [null] counted as 0. *)
Fixpoint totalBounty (bugs : list BugData.t) : Q :=
  match bugs with
  | [] => 0%Q
  | bug :: rest =>
      (match BugData.bounty_amount bug with
       | Some q => q
       | None => 0
       end + totalBounty rest)%Q
  end.

Fixpoint sumQ (qs : list Q) : Q :=
  match qs with
  | [] => 0%Q
  | q :: rest => (q + sumQ rest)%Q
  end.

Fixpoint sumNat (ns : list nat) : nat :=
  match ns with
  | [] => 0%nat
  | n :: rest => (n + sumNat rest)%nat
  end.

Fixpoint sumZ (zs : list Z) : Z :=
  match zs with
  | [] => 0
  | z :: rest => z + sumZ rest
  end.

(** Number of records satisfying [p]. *)
Fixpoint countRecords (p : BugData.t -> bool) (bugs : list BugData.t) : nat :=
  match bugs with
  | [] => 0%nat
  | bug :: rest => ((if p bug then 1 else 0) + countRecords p rest)%nat
  end.

(** The record's status is one of [statuses]. *)
Definition statusIn (statuses : list string) (bug : BugData.t) : bool :=
  if in_dec string_dec (BugData.status bug) statuses then true else false.

(** The names in the order of property enumeration. *)
Definition propertyOrder (ks : list string) : list string :=
  JsObject.enumerate (fun k => k) ks.

(** Keys in encounter order: each key at its first occurrence. *)
Fixpoint firstSeen (ks : list string) : list string :=
  match ks with
  | [] => []
  | k :: rest => k :: filter (fun k' => negb (String.eqb k' k)) (firstSeen rest)
  end.

(** [pre] is an initial segment of [l]. *)
Definition prefixOf {A : Type} (pre l : list A) : Prop :=
  exists rest, l = (pre ++ rest)%list.

(** The grouping pass shared by the two rollups, for a record whose key is
    not an inherited property name: create the group of the key when it is
    new, then update it. *)
Section Grouping.
Context {B A : Type}.
Variable key : B -> string.
Variable init : B -> A.
Variable upd : B -> A -> A.

(** One record of the pass, as the rollups run it on a plain object: the
    group is created unless the key reads as true, then the object read
    under the key is updated. *)
Definition dictStep (m : JsObject.t A) (b : B) : JsObject.t A :=
  JsObject.modify
    (if negb (JsObject.truthy m (key b))
     then JsObject.set m (key b) (init b)
     else m) (key b) (upd b).

(** The records that get a group: those whose key is not inherited. *)
Definition grouped (bs : list B) : list B :=
  filter (fun b => negb (JsObject.inherited (key b))) bs.

Definition groupStep (m : JsObject.t A) (b : B) : JsObject.t A :=
  JsObject.modify
    (match JsObject.get m (key b) with
     | None => JsObject.set m (key b) (init b)
     | Some _ => m
     end) (key b) (upd b).

(** The pass as seen from one key [k]: the accumulator of group [k] after
    each record, [None] while the group does not exist. *)
Definition groupWatch (k : string) (o : option A) (b : B) : option A :=
  if String.eqb (key b) k
  then Some (upd b (match o with Some a => a | None => init b end))
  else o.

Definition groupAcc (k : string) (bs : list B) : option A :=
  fold_left (groupWatch k) bs None.
End Grouping.

(** What one record adds to its platform group. *)
Definition platformUpd (bug : BugData.t) (a : PlatformAcc.t) : PlatformAcc.t :=
  let a2 := platformAddEarnings (amountOrZero bug) (platformAddBug a) in
  if includes resolvedStatuses (BugData.status bug) then
    if includes acceptedStatuses (BugData.status bug)
    then platformAddAccepted (platformAddTotal a2)
    else platformAddTotal a2
  else a2.

(** What one record adds to its program group. *)
Definition programUpd (bug : BugData.t) (a : ProgramAcc.t) : ProgramAcc.t :=
  let a2 := programAddEarnings (amountOrZero bug) (programAddBug a) in
  if includes resolvedStatuses (BugData.status bug) then
    if includes acceptedStatuses (BugData.status bug)
    then programAddAccepted (programAddTotal a2)
    else programAddTotal a2
  else a2.

(** Rows of the platform rollup before sorting. *)
Definition platformRows (bugs : list BugData.t) : list PlatformData.t :=
  map platformEntry (JsObject.entries (fold_left platformStep bugs JsObject.empty)).

(** Rows of the program leaderboard before sorting and truncation. *)
Definition programRows (bugs : list BugData.t) : list ProgramData.t :=
  map programEntry (JsObject.entries (fold_left programStep bugs JsObject.empty)).

(** Company of the first / of the last record of program name [k]. *)
Definition firstSeenCompany (bugs : list BugData.t) (k : string) : option string :=
  option_map companyName (find (fun b => String.eqb (programName b) k) bugs).

Definition lastSeenCompany (bugs : list BugData.t) (k : string) : option string :=
  option_map companyName
    (find (fun b => String.eqb (programName b) k) (rev bugs)).

(** Total amount of the records of program name [k]. *)
Definition programEarnings (bugs : list BugData.t) (k : string) : Q :=
  totalBounty (filter (fun b => String.eqb (programName b) k) bugs).

(** A record with the given status, amount, creation instant and program. *)
Definition sampleBug (status : string) (amount : option Q) (created : Z)
  (program : option Program.t) : BugData.t :=
  {| BugData.id := ""; BugData.title := ""; BugData.severity := "High";
     BugData.status := status; BugData.bounty_amount := amount;
     BugData.created_at := created;
     BugData.submission_date := None; BugData.resolution_date := None;
     BugData.program_id := None; BugData.programs := program |}.

(** Two programs of the same target name filed under different companies. *)
Definition acmeOfA : Program.t :=
  {| Program.target_name := "acme"; Program.company := "A";
     Program.platforms := None |}.
Definition acmeOfB : Program.t :=
  {| Program.target_name := "acme"; Program.company := "B";
     Program.platforms := None |}.
Definition twoCompanies : list BugData.t :=
  [ sampleBug "Resolved" (Some 500%Q) 0 (Some acmeOfA);
    sampleBug "Duplicate" None 0 (Some acmeOfB) ].

(** Whole days from [submitted] to [resolved], rounded up. *)
Definition ceilDays (submitted resolved : Z) : Z :=
  (resolved - submitted + msPerDay - 1) / msPerDay.

(** The day counts of the records that have both dates, in order. *)
Fixpoint resolutionTimes (bugs : list BugData.t) : list Z :=
  match bugs with
  | [] => []
  | bug :: rest =>
      match BugData.submission_date bug, BugData.resolution_date bug with
      | Some submitted, Some resolved =>
          ceilDays submitted resolved :: resolutionTimes rest
      | _, _ => resolutionTimes rest
      end
  end.

(** Arithmetic mean, 0 for no value. *)
Definition mean (zs : list Z) : Q :=
  match zs with
  | [] => 0%Q
  | _ :: _ => (inject_Z (sumZ zs) / num (List.length zs))%Q
  end.

(** A record submitted on 1970-01-03 and resolved on 1970-01-01. *)
Definition resolvedBeforeSubmitted : BugData.t :=
  {| BugData.id := ""; BugData.title := ""; BugData.severity := "Low";
     BugData.status := "Resolved"; BugData.bounty_amount := None;
     BugData.created_at := 0;
     BugData.submission_date := Some (2 * msPerDay);
     BugData.resolution_date := Some 0;
     BugData.program_id := None; BugData.programs := None |}.

(** The value stored under [k] after a pass that updates, for each record,
    the value under the record's key; [v] is the value before the pass. *)
Definition updatedBy {B V : Type} (key : B -> string) (upd : B -> V -> V)
  (k : string) (bs : list B) (v : V) : V :=
  fold_left (fun a b => if String.eqb (key b) k then upd b a else a) bs v.

(** What one record adds to the bucket of its month. *)
Definition monthlyUpd (bug : BugData.t) (d : MonthlyData.t) : MonthlyData.t :=
  let d2 := addEarnings (amountOrZero bug) (addSubmission d) in
  if includes acceptedStatuses (BugData.status bug) then addAccepted d2 else d2.

(** The trailing 12 calendar months ending at the month of [now], oldest
    first, each as (0-based month, year); months are numbered linearly,
    12 to a year. *)
Definition trailingMonths (tz now : Z) : list (Z * Z) :=
  let n := getFullYear tz now * 12 + getMonth tz now in
  map (fun i => ((n - i) mod 12, (n - i) / 12))
    [11; 10; 9; 8; 7; 6; 5; 4; 3; 2; 1; 0].

(** The record was created, in local time, in month [m] of year [y]. *)
Definition createdInMonth (tz m y : Z) (bug : BugData.t) : bool :=
  (getMonth tz (BugData.created_at bug) =? m)
  && (getFullYear tz (BugData.created_at bug) =? y).

(** The record was created in month [m] of a year that has the last two
    digits of [y]. *)
Definition createdInMonthOfCentury (tz m y : Z) (bug : BugData.t) : bool :=
  (getMonth tz (BugData.created_at bug) =? m)
  && (yearOfEra (getFullYear tz (BugData.created_at bug)) mod 100
      =? yearOfEra y mod 100).

(** The integers [0 .. n-1]. *)
Definition zrange (n : nat) : list Z := map Z.of_nat (seq 0 n).

(** The first day of month [m] of year [yoe] of the era lies in the era and
    is mapped back to itself. *)
Definition firstOfMonthCheck (yoe m : Z) : bool :=
  let mp := if 2 <? m then m - 3 else m + 9 in
  let doe := doe_of_civil yoe mp 1 in
  (0 <=? doe) && (doe <? 146097)
  && (let '(y, m', d) := civil_of_doe doe in
      (y =? yoe + (if m <=? 2 then 1 else 0)) && (m' =? m) && (d =? 1)).

(** The tests of the last-month and last-year buckets of [calculateStats]
    on a creation instant. *)
Definition inLastMonth (tz now date : Z) : bool :=
  (lastMonthStart tz now <=? date) && (date <=? lastMonthEnd tz now).

Definition inLastYear (tz now date : Z) : bool :=
  (lastYearStart tz now <=? date) && (date <=? lastYearEnd tz now).

(** 2024-03-15 12:00 UTC. *)
Definition midMarch2024 : Z := 1710504000000.

(** A record of 100 created on 2024-04-10 12:00 UTC. *)
Definition createdInApril2024 : BugData.t :=
  sampleBug "Resolved" (Some 100%Q) 1712750400000 None.

(** A record of 50 created on 2024-02-29 12:00 UTC. *)
Definition createdOnLeapDay2024 : BugData.t :=
  sampleBug "Resolved" (Some 50%Q) 1709208000000 None.

(** A record of 500 created on 1924-03-15 12:00 UTC. *)
Definition createdInMarch1924 : BugData.t :=
  sampleBug "Resolved" (Some 500%Q) (midMarch2024 - 36525 * msPerDay) None.

(** A record of 100 whose program is listed on a platform named
    "constructor". *)
Definition onPlatformConstructor : BugData.t :=
  sampleBug "Resolved" (Some 100%Q) 0
    (Some {| Program.target_name := "acme"; Program.company := "A";
             Program.platforms := Some {| Platform.name := "constructor" |} |}).

(** Two records without bounty, of a program named "2" and then of a
    program named "1". *)
Definition twoNumberedPrograms : list BugData.t :=
  [ sampleBug "Submitted" None 0
      (Some {| Program.target_name := "2"; Program.company := "A";
               Program.platforms := None |});
    sampleBug "Submitted" None 0
      (Some {| Program.target_name := "1"; Program.company := "B";
               Program.platforms := None |}) ].

(** ** The rest of the view: distributions, percentage change, refresh *)

(** What a counter dictionary holds under a name.  [(counts[k] || 0) + 1]
    is a number when [counts[k]] is a number or [undefined].  When
    [counts[k]] is a member of [Object.prototype], or a string made from
    one, [+] concatenates: the result is the text of the member followed by
    one "1" per addition. *)
Inductive tally : Type :=
| Count (n : nat)
| MemberText (member : string) (ones : nat).

(** What a colour table gives under a name: one of its colour strings, or
    the member of [Object.prototype] found under the name. *)
Inductive swatch : Type :=
| Color (hex : string)
| Member (name : string).

Module SeverityData.
Record t := { name : string; value : tally; color : swatch }.
End SeverityData.

Module StatusData.
Record t := { name : string; value : tally; color : swatch }.
End StatusData.

Definition SEVERITY_COLORS : JsObject.t string :=
  [("Critical", "#ef4444"); ("High", "#f97316"); ("Medium", "#eab308");
   ("Low", "#22c55e"); ("Informational", "#3b82f6")]%string.

Definition STATUS_COLORS : JsObject.t string :=
  [("Draft", "#6b7280"); ("Submitted", "#eab308"); ("Triaged", "#3b82f6");
   ("Accepted", "#22c55e"); ("Duplicate", "#a855f7");
   ("Not Applicable", "#ef4444"); ("Resolved", "#10b981");
   ("Bounty Awarded", "#14b8a6")]%string.

(** [(counts[k] || 0) + 1]. *)
Definition orZeroPlusOne (counts : JsObject.t tally) (k : string) : tally :=
  match JsObject.get counts k with
  | Some (Count n) => Count (n + 1)
  | Some (MemberText member ones) => MemberText member (ones + 1)
  | None => if JsObject.inherited k then MemberText k 1 else Count 1
  end.

(** [counts[k] = v] for a number or a string [v]: the assignment creates or
    updates an own property, except under the name [__proto__], whose
    inherited setter ignores a value that is not an object. *)
Definition assign (counts : JsObject.t tally) (k : string) (v : tally)
  : JsObject.t tally :=
  if String.eqb k "__proto__" then counts else JsObject.set counts k v.

(** Body of [bugs.forEach] in [calculateSeverityData] and
    [calculateStatusData], [field] being the column counted. *)
Definition countStep (field : BugData.t -> string)
  (counts : JsObject.t tally) (bug : BugData.t) : JsObject.t tally :=
  assign counts (field bug) (orZeroPlusOne counts (field bug)).

(** [COLORS[name] || '#6b7280']. *)
Definition colorOr (colors : JsObject.t string) (name : string) : swatch :=
  match JsObject.get colors name with
  | Some hex => Color (strOr hex "#6b7280")
  | None => if JsObject.inherited name then Member name else Color "#6b7280"
  end.

Definition calculateSeverityData (bugs : list BugData.t)
  : list SeverityData.t :=
  let severityCounts :=
    fold_left (countStep BugData.severity) bugs JsObject.empty in
  map (fun '(name, value) =>
         {| SeverityData.name := name; SeverityData.value := value;
            SeverityData.color := colorOr SEVERITY_COLORS name |})
    (JsObject.entries severityCounts).

Definition calculateStatusData (bugs : list BugData.t) : list StatusData.t :=
  let statusCounts :=
    fold_left (countStep BugData.status) bugs JsObject.empty in
  map (fun '(name, value) =>
         {| StatusData.name := name; StatusData.value := value;
            StatusData.color := colorOr STATUS_COLORS name |})
    (JsObject.entries statusCounts).

(** [getPercentageChange(current, previous)]. *)
Definition getPercentageChange (current previous : Q) : Z :=
  if Qeq_bool previous 0 then
    if negb (Qle_bool current 0) then 100 else 0
  else Math_round (((current - previous) / previous) * 100)%Q.

(** The cards of "Average Bounty by Severity": for each of the five
    severities, [avgAmount] and [count] over the unfiltered records. *)
Definition severityBugs (bugs : list BugData.t) (severity : string)
  : list BugData.t :=
  filter (fun b => String.eqb (BugData.severity b) severity
                   && match BugData.bounty_amount b with
                      | Some q => negb (Qeq_bool q 0) && negb (Qle_bool q 0)
                      | None => false
                      end) bugs.

Definition avgAmount (bugs : list BugData.t) (severity : string) : Q :=
  if (0 <? List.length (severityBugs bugs severity))%nat
  then (sumBounty (severityBugs bugs severity)
        / num (List.length (severityBugs bugs severity)))%Q
  else 0%Q.

Definition count (bugs : list BugData.t) (severity : string) : nat :=
  List.length (filter (fun b => String.eqb (BugData.severity b) severity) bugs).

(** The state of the view that [fetchAnalyticsData] writes. *)
Module View.
Record t := {
    bugs : list BugData.t;
    loading : bool;
    stats : AnalyticsStats.t;
    monthlyData : list MonthlyData.t;
    severityData : list SeverityData.t;
    statusData : list StatusData.t;
    platformData : list PlatformData.t;
    topPrograms : list ProgramData.t
  }.
End View.

(** What the two awaited calls of [fetchAnalyticsData] gave: no signed-in
    user, an error of the query (or an exception), or the rows, [null]
    being [None]. *)
Inductive Fetched : Type :=
| NoUser
| QueryError
| Rows (bugsData : option (list BugData.t)).

Definition stopLoading (view : View.t) : View.t :=
  {| View.bugs := View.bugs view; View.loading := false;
     View.stats := View.stats view;
     View.monthlyData := View.monthlyData view;
     View.severityData := View.severityData view;
     View.statusData := View.statusData view;
     View.platformData := View.platformData view;
     View.topPrograms := View.topPrograms view |}.

(** [fetchAnalyticsData] as a function of what was fetched: the state of
    the view when the call has finished. *)
Definition fetchAnalyticsData (tz now : Z) (timeRange : string)
  (fetched : Fetched) (view : View.t) : View.t :=
  match fetched with
  | NoUser | QueryError => stopLoading view
  | Rows bugsData =>
      let allBugs := match bugsData with Some rows => rows | None => [] end in
      let filteredBugs := filterBugsByTimeRange tz now allBugs timeRange in
      {| View.bugs := allBugs; View.loading := false;
         View.stats := calculateStats tz now filteredBugs allBugs;
         View.monthlyData := calculateMonthlyData tz now filteredBugs;
         View.severityData := calculateSeverityData filteredBugs;
         View.statusData := calculateStatusData filteredBugs;
         View.platformData := calculatePlatformData filteredBugs;
         View.topPrograms := calculateTopPrograms filteredBugs |}
  end.

(** *** Notions used to state the further properties *)

(** Number of the local calendar month of an instant, months counted from
    January of year 0. *)
Definition monthNumber (tz t : Z) : Z := getFullYear tz t * 12 + getMonth tz t.

(** The record's status is in none of the three status sets. *)
Definition otherStatus (bug : BugData.t) : bool :=
  negb (statusIn acceptedStatuses bug || statusIn rejectedStatuses bug
        || statusIn pendingStatuses bug).

(** The amounts that are present and positive, in order. *)
Fixpoint positiveAmounts (bugs : list BugData.t) : list Q :=
  match bugs with
  | [] => []
  | bug :: rest =>
      match BugData.bounty_amount bug with
      | Some q => if Qlt_le_dec 0 q then q :: positiveAmounts rest
                  else positiveAmounts rest
      | None => positiveAmounts rest
      end
  end.

(** Arithmetic mean of amounts, 0 for no amount. *)
Definition meanQ (qs : list Q) : Q :=
  match qs with
  | [] => 0%Q
  | _ :: _ => (sumQ qs / num (List.length qs))%Q
  end.

(** No amount of the collection is negative. *)
Definition noNegativeAmount (bugs : list BugData.t) : Prop :=
  Forall (fun bug => match BugData.bounty_amount bug with
                     | Some q => (0 <= q)%Q
                     | None => True
                     end) bugs.

(** The number a tally stands for, 0 for a text. *)
Definition countOf (v : tally) : nat :=
  match v with
  | Count n => n
  | MemberText _ _ => 0%nat
  end.

(** The tally of [n] records under the name [k]. *)
Definition tallyOf (k : string) (n : nat) : tally :=
  if JsObject.inherited k then MemberText k n else Count n.

(** The names a counter dictionary can own: all but [__proto__]. *)
Definition assignable (k : string) : bool := negb (String.eqb k "__proto__").

(** The colour a table lists for a name, "#6b7280" for a name it does not
    list. *)
Definition listedColor (colors : list (string * string)) (name : string)
  : string :=
  match find (fun e => String.eqb (fst e) name) colors with
  | Some e => snd e
  | None => "#6b7280"%string
  end.

(** The numbers of the rows of a distribution. *)
Definition severityCounts (rows : list SeverityData.t) : list nat :=
  map (fun row => countOf (SeverityData.value row)) rows.

Definition statusCounts (rows : list StatusData.t) : list nat :=
  map (fun row => countOf (StatusData.value row)) rows.

(** The rows of the status distribution whose name is one of [statuses]. *)
Definition rowsOf (statuses : list string) (rows : list StatusData.t)
  : list StatusData.t :=
  filter (fun row => includes statuses (StatusData.name row)) rows.

(** The records of key [k] of an accepted status, and those of an accepted
    or a rejected status. *)
Definition groupAccepted (key : BugData.t -> string) (bugs : list BugData.t)
  (k : string) : nat :=
  countRecords (fun b => String.eqb (key b) k && statusIn acceptedStatuses b)
    bugs.

Definition groupResolved (key : BugData.t -> string) (bugs : list BugData.t)
  (k : string) : nat :=
  countRecords (fun b => String.eqb (key b) k
                         && statusIn (acceptedStatuses ++ rejectedStatuses) b)
    bugs.

(** [rate] is an integer nearest to the percentage of [accepted] in
    [total]. *)
Definition nearestPercent (accepted total : nat) (rate : Z) : Prop :=
  (Qabs (num accepted / num total * 100 - inject_Z rate) <= 1 # 2)%Q.

(** [Math.round] of a finite binary64 number, by a shift of its
    significand. *)
Definition roundByShift (x : float) : Z :=
  match Prim2SF x with
  | S754_finite s m e =>
      if 0 <=? e then cond_Zopp s (Z.pos m) * 2 ^ e
      else Z.shiftr (2 * cond_Zopp s (Z.pos m) + 2 ^ (- e)) (1 - e)
  | _ => 0
  end.

(** The integers [z], [z + 1], ..., [z + n - 1]. *)
Fixpoint upFrom (z : Z) (n : nat) : list Z :=
  match n with
  | O => []
  | S n' => z :: upFrom (z + 1) n'
  end.

(** The rate that the rollups compute for [a] records of an accepted status
    among [t] of an accepted or a rejected one lies in 0..100 and within one
    half of the exact percentage. *)
Definition rateChecked (a t : Z) : bool :=
  let r := roundByShift
             ((PrimFloat.of_uint63 (Uint63.of_Z a)
               / PrimFloat.of_uint63 (Uint63.of_Z t)) * 100)%float in
  (0 <=? r) && (r <=? 100) && (Z.abs (200 * a - 2 * r * t) <=? t).

Definition ratesCheckedUpTo (n : nat) : bool :=
  forallb (fun t => forallb (fun a => rateChecked a t)
                      (upFrom 0 (Z.to_nat (t + 1))))
    (upFrom 1 n).

(** 40 records of one platform, 23 of them accepted and 17 rejected. *)
Definition fortyResolved : list BugData.t :=
  (repeat (sampleBug "Resolved" None 0 None) 23
   ++ repeat (sampleBug "Duplicate" None 0 None) 17)%list.

(** Four records: two on the platform "HackerOne", one on "Bugcrowd" and
    one of a program without platform. *)
Definition threePlatforms : list BugData.t :=
  [ sampleBug "Resolved" (Some 500%Q) 0
      (Some {| Program.target_name := "acme"; Program.company := "A";
               Program.platforms := Some {| Platform.name := "HackerOne" |} |});
    sampleBug "Duplicate" None 0
      (Some {| Program.target_name := "globex"; Program.company := "G";
               Program.platforms := Some {| Platform.name := "Bugcrowd" |} |});
    sampleBug "Accepted" (Some 250%Q) 0
      (Some {| Program.target_name := "initech"; Program.company := "I";
               Program.platforms := Some {| Platform.name := "HackerOne" |} |});
    sampleBug "Submitted" None 0
      (Some {| Program.target_name := "hooli"; Program.company := "H";
               Program.platforms := None |}) ].

(** A number of the specification of IEEE 754 is positive. *)
Definition SFpositive (x : spec_float) : bool := SFltb (S754_zero false) x.

(** The record is counted by a bucket of the monthly series: it was created
    in one of the trailing 12 months, or in the same month of a year with
    the same last two digits. *)
Definition inSeries (tz now : Z) (bug : BugData.t) : bool :=
  existsb (fun month => createdInMonthOfCentury tz (fst month) (snd month) bug)
    (trailingMonths tz now).

(** The record was created in one of the trailing 12 calendar months. *)
Definition inTrailingYear (tz now : Z) (bug : BugData.t) : Prop :=
  monthNumber tz now - 11 <= monthNumber tz (BugData.created_at bug)
  <= monthNumber tz now.

(** The state of the view before the first fetch: the initial values of its
    state hooks. *)
Definition initialStats : AnalyticsStats.t :=
  {| AnalyticsStats.totalBugs := 0;
     AnalyticsStats.totalEarnings := 0;
     AnalyticsStats.acceptedBugs := 0;
     AnalyticsStats.rejectedBugs := 0;
     AnalyticsStats.pendingBugs := 0;
     AnalyticsStats.successRate := 0;
     AnalyticsStats.avgBounty := 0;
     AnalyticsStats.avgTimeToResolution := 0;
     AnalyticsStats.thisMonthEarnings := 0;
     AnalyticsStats.lastMonthEarnings := 0;
     AnalyticsStats.thisYearEarnings := 0;
     AnalyticsStats.lastYearEarnings := 0 |}.

Definition initialView : View.t :=
  {| View.bugs := []; View.loading := true; View.stats := initialStats;
     View.monthlyData := []; View.severityData := [];
     View.statusData := []; View.platformData := [];
     View.topPrograms := [] |}.

(** The number that the rows of a severity distribution hold for one
    severity, 0 when it has no row. *)
Definition rowCount (rows : list SeverityData.t) (severity : string) : nat :=
  sumNat (severityCounts
            (filter (fun row => String.eqb (SeverityData.name row) severity)
               rows)).

(** The records of one severity. *)
Definition ofSeverity (severity : string) (bugs : list BugData.t)
  : list BugData.t :=
  filter (fun b => String.eqb (BugData.severity b) severity) bugs.

(** A draft record of the given severity. *)
Definition bugOfSeverity (severity : string) : BugData.t :=
  {| BugData.id := ""; BugData.title := ""; BugData.severity := severity;
     BugData.status := "Draft"; BugData.bounty_amount := None;
     BugData.created_at := 0;
     BugData.submission_date := None; BugData.resolution_date := None;
     BugData.program_id := None; BugData.programs := None |}.

(** ** The rollups on binary64 amounts

    A money amount is a JavaScript number, a binary64 floating-point
    number, and so is every sum that the engine forms.  Which rows of a
    rollup tie, and in which order the rows come out, depends on the sums
    as they are computed: in binary64, 0.1 + 0.2 is greater than 0.3.
    This module embeds the two rollups on binary64 amounts. *)
Module Binary64.

(** A record as the query returns it: [bounty_amount] is a number or
    [null]. *)
Module BugData.
Record t := {
    id : string;
    title : string;
    severity : string;
    status : string;
    bounty_amount : option float;
    created_at : Z;
    submission_date : option Z;
    resolution_date : option Z;
    program_id : option string;
    programs : option Program.t
  }.
End BugData.

Module PlatformData.
Record t := {
    name : string;
    bugs : nat;
    earnings : float;
    successRate : Z
  }.
End PlatformData.

Module ProgramData.
Record t := {
    name : string;
    company : string;
    bugs : nat;
    earnings : float;
    successRate : Z
  }.
End ProgramData.

Module PlatformAcc.
Record t := { bugs : nat; earnings : float; accepted : nat; total : nat }.
End PlatformAcc.

Module ProgramAcc.
Record t := {
    company : string; bugs : nat; earnings : float; accepted : nat; total : nat
  }.
End ProgramAcc.

(** [x > 0] on a number; false when [x] is NaN. *)
Definition positive (x : float) : bool := (0 <? x)%float.

(** [x || 0] on a number: NaN and the two zeros are falsy. *)
Definition orZero (x : float) : float :=
  if is_nan x || is_zero x then 0%float else x.

(** [bug.bounty_amount || 0]. *)
Definition amountOrZero (bug : BugData.t) : float :=
  match BugData.bounty_amount bug with
  | Some x => orZero x
  | None => 0%float
  end.

(** [array.reduce((sum, bug) => sum + (bug.bounty_amount || 0), 0)], the
    [totalEarnings] of the summary statistics. *)
Definition sumBounty (bugs : list BugData.t) : float :=
  fold_left (fun sum bug => (sum + amountOrZero bug)%float) bugs 0%float.

(** [array.sort(compareFn)]: the stable sort; [a] moves behind [b] exactly
    when [compareFn a b] is positive, a NaN counting as 0.  The language
    fixes the result when the comparison is consistent;
    [b.earnings - a.earnings] is, unless one of the sums is NaN, which takes
    amounts that are infinite or sums that overflow. *)
Section ArraySort.
Context {A : Type}.
Variable compareFn : A -> A -> float.

Fixpoint sort_insert (x : A) (l : list A) : list A :=
  match l with
  | [] => [x]
  | y :: l' =>
      if positive (compareFn x y) then y :: sort_insert x l'
      else x :: y :: l'
  end.

Fixpoint Array_sort (l : list A) : list A :=
  match l with
  | [] => []
  | x :: l' => sort_insert x (Array_sort l')
  end.
End ArraySort.

Definition platformName (bug : BugData.t) : string :=
  optOr (match BugData.programs bug with
         | Some p => option_map Platform.name (Program.platforms p)
         | None => None
         end) "Unknown".

Definition programName (bug : BugData.t) : string :=
  optOr (option_map Program.target_name (BugData.programs bug)) "Unknown".

Definition companyName (bug : BugData.t) : string :=
  optOr (option_map Program.company (BugData.programs bug)) "Unknown".

(** *** Platform rollup *)

Definition newPlatformAcc : PlatformAcc.t :=
  {| PlatformAcc.bugs := 0; PlatformAcc.earnings := 0%float;
     PlatformAcc.accepted := 0; PlatformAcc.total := 0 |}.

Definition platformAddBug (a : PlatformAcc.t) : PlatformAcc.t :=
  {| PlatformAcc.bugs := PlatformAcc.bugs a + 1;
     PlatformAcc.earnings := PlatformAcc.earnings a;
     PlatformAcc.accepted := PlatformAcc.accepted a;
     PlatformAcc.total := PlatformAcc.total a |}.

Definition platformAddEarnings (x : float) (a : PlatformAcc.t)
  : PlatformAcc.t :=
  {| PlatformAcc.bugs := PlatformAcc.bugs a;
     PlatformAcc.earnings := (PlatformAcc.earnings a + x)%float;
     PlatformAcc.accepted := PlatformAcc.accepted a;
     PlatformAcc.total := PlatformAcc.total a |}.

Definition platformAddTotal (a : PlatformAcc.t) : PlatformAcc.t :=
  {| PlatformAcc.bugs := PlatformAcc.bugs a;
     PlatformAcc.earnings := PlatformAcc.earnings a;
     PlatformAcc.accepted := PlatformAcc.accepted a;
     PlatformAcc.total := PlatformAcc.total a + 1 |}.

Definition platformAddAccepted (a : PlatformAcc.t) : PlatformAcc.t :=
  {| PlatformAcc.bugs := PlatformAcc.bugs a;
     PlatformAcc.earnings := PlatformAcc.earnings a;
     PlatformAcc.accepted := PlatformAcc.accepted a + 1;
     PlatformAcc.total := PlatformAcc.total a |}.

(** Body of [bugs.forEach] in [calculatePlatformData].  The test
    [!platformMap[platformName]] reads the property, own or inherited. *)
Definition platformStep (platformMap : JsObject.t PlatformAcc.t)
  (bug : BugData.t) : JsObject.t PlatformAcc.t :=
  let platformName := platformName bug in
  let m0 :=
    if negb (JsObject.truthy platformMap platformName)
    then JsObject.set platformMap platformName newPlatformAcc
    else platformMap in
  let m1 := JsObject.modify m0 platformName platformAddBug in
  let m2 :=
    JsObject.modify m1 platformName (platformAddEarnings (amountOrZero bug)) in
  if includes resolvedStatuses (BugData.status bug) then
    let m3 := JsObject.modify m2 platformName platformAddTotal in
    if includes acceptedStatuses (BugData.status bug)
    then JsObject.modify m3 platformName platformAddAccepted
    else m3
  else m2.

Definition platformEntry (e : string * PlatformAcc.t) : PlatformData.t :=
  let '(name, data) := e in
  {| PlatformData.name := name;
     PlatformData.bugs := PlatformAcc.bugs data;
     PlatformData.earnings := PlatformAcc.earnings data;
     PlatformData.successRate :=
       roundedRate (PlatformAcc.accepted data) (PlatformAcc.total data) |}.

Definition calculatePlatformData (bugs : list BugData.t)
  : list PlatformData.t :=
  let platformMap := fold_left platformStep bugs JsObject.empty in
  Array_sort
    (fun a b => (PlatformData.earnings b - PlatformData.earnings a)%float)
    (map platformEntry (JsObject.entries platformMap)).

(** *** Program leaderboard *)

Definition newProgramAcc (company : string) : ProgramAcc.t :=
  {| ProgramAcc.company := company;
     ProgramAcc.bugs := 0; ProgramAcc.earnings := 0%float;
     ProgramAcc.accepted := 0; ProgramAcc.total := 0 |}.

Definition programAddBug (a : ProgramAcc.t) : ProgramAcc.t :=
  {| ProgramAcc.company := ProgramAcc.company a;
     ProgramAcc.bugs := ProgramAcc.bugs a + 1;
     ProgramAcc.earnings := ProgramAcc.earnings a;
     ProgramAcc.accepted := ProgramAcc.accepted a;
     ProgramAcc.total := ProgramAcc.total a |}.

Definition programAddEarnings (x : float) (a : ProgramAcc.t) : ProgramAcc.t :=
  {| ProgramAcc.company := ProgramAcc.company a;
     ProgramAcc.bugs := ProgramAcc.bugs a;
     ProgramAcc.earnings := (ProgramAcc.earnings a + x)%float;
     ProgramAcc.accepted := ProgramAcc.accepted a;
     ProgramAcc.total := ProgramAcc.total a |}.

Definition programAddTotal (a : ProgramAcc.t) : ProgramAcc.t :=
  {| ProgramAcc.company := ProgramAcc.company a;
     ProgramAcc.bugs := ProgramAcc.bugs a;
     ProgramAcc.earnings := ProgramAcc.earnings a;
     ProgramAcc.accepted := ProgramAcc.accepted a;
     ProgramAcc.total := ProgramAcc.total a + 1 |}.

Definition programAddAccepted (a : ProgramAcc.t) : ProgramAcc.t :=
  {| ProgramAcc.company := ProgramAcc.company a;
     ProgramAcc.bugs := ProgramAcc.bugs a;
     ProgramAcc.earnings := ProgramAcc.earnings a;
     ProgramAcc.accepted := ProgramAcc.accepted a + 1;
     ProgramAcc.total := ProgramAcc.total a |}.

(** Body of [bugs.forEach] in [calculateTopPrograms].  The test
    [!programMap[programName]] reads the property, own or inherited. *)
Definition programStep (programMap : JsObject.t ProgramAcc.t)
  (bug : BugData.t) : JsObject.t ProgramAcc.t :=
  let programName := programName bug in
  let company := companyName bug in
  let m0 :=
    if negb (JsObject.truthy programMap programName)
    then JsObject.set programMap programName (newProgramAcc company)
    else programMap in
  let m1 := JsObject.modify m0 programName programAddBug in
  let m2 :=
    JsObject.modify m1 programName (programAddEarnings (amountOrZero bug)) in
  if includes resolvedStatuses (BugData.status bug) then
    let m3 := JsObject.modify m2 programName programAddTotal in
    if includes acceptedStatuses (BugData.status bug)
    then JsObject.modify m3 programName programAddAccepted
    else m3
  else m2.

Definition programEntry (e : string * ProgramAcc.t) : ProgramData.t :=
  let '(name, data) := e in
  {| ProgramData.name := name;
     ProgramData.company := ProgramAcc.company data;
     ProgramData.bugs := ProgramAcc.bugs data;
     ProgramData.earnings := ProgramAcc.earnings data;
     ProgramData.successRate :=
       roundedRate (ProgramAcc.accepted data) (ProgramAcc.total data) |}.

Definition calculateTopPrograms (bugs : list BugData.t)
  : list ProgramData.t :=
  let programMap := fold_left programStep bugs JsObject.empty in
  slice0 5
    (Array_sort
       (fun a b => (ProgramData.earnings b - ProgramData.earnings a)%float)
       (map programEntry (JsObject.entries programMap))).

(** *** Notions used to state the properties of the two rollups *)

(** What one record adds to its platform group. *)
Definition platformUpd (bug : BugData.t) (a : PlatformAcc.t) : PlatformAcc.t :=
  let a2 := platformAddEarnings (amountOrZero bug) (platformAddBug a) in
  if includes resolvedStatuses (BugData.status bug) then
    if includes acceptedStatuses (BugData.status bug)
    then platformAddAccepted (platformAddTotal a2)
    else platformAddTotal a2
  else a2.

(** What one record adds to its program group. *)
Definition programUpd (bug : BugData.t) (a : ProgramAcc.t) : ProgramAcc.t :=
  let a2 := programAddEarnings (amountOrZero bug) (programAddBug a) in
  if includes resolvedStatuses (BugData.status bug) then
    if includes acceptedStatuses (BugData.status bug)
    then programAddAccepted (programAddTotal a2)
    else programAddTotal a2
  else a2.

(** Rows of the platform rollup before sorting. *)
Definition platformRows (bugs : list BugData.t) : list PlatformData.t :=
  map platformEntry
    (JsObject.entries (fold_left platformStep bugs JsObject.empty)).

(** Rows of the program leaderboard before sorting and truncation. *)
Definition programRows (bugs : list BugData.t) : list ProgramData.t :=
  map programEntry
    (JsObject.entries (fold_left programStep bugs JsObject.empty)).

(** The amounts of the records of platform name [k], added up from 0 in
    the order of the records. *)
Definition platformEarnings (bugs : list BugData.t) (k : string) : float :=
  sumBounty (filter (fun b => String.eqb (platformName b) k) bugs).

(** The amounts of the records of program name [k], added up from 0 in the
    order of the records. *)
Definition programEarnings (bugs : list BugData.t) (k : string) : float :=
  sumBounty (filter (fun b => String.eqb (programName b) k) bugs).

(** The numbers of a list added up from 0, from left to right. *)
Definition sum (xs : list float) : float :=
  fold_left (fun acc x => (acc + x)%float) xs 0%float.

(** A record with the given status and amount, of the program named
    [target] on the platform named [platform]. *)
Definition sampleBug (status : string) (amount : option float)
  (target : string) (platform : option string) : BugData.t :=
  {| BugData.id := ""; BugData.title := ""; BugData.severity := "High";
     BugData.status := status; BugData.bounty_amount := amount;
     BugData.created_at := 0;
     BugData.submission_date := None; BugData.resolution_date := None;
     BugData.program_id := None;
     BugData.programs :=
       Some {| Program.target_name := target; Program.company := "";
               Program.platforms :=
                 option_map (fun n => {| Platform.name := n |}) platform |} |}.

(** Records of seven programs, each on a platform of its own.  Program B
    earns 0.3 in one record and program A 0.1 + 0.2 in two; C and D earn
    500 each, E 1000, F and G nothing. *)
#[warnings="-inexact-float"] Definition sevenPrograms : list BugData.t :=
  [ sampleBug "Resolved" (Some 0.3%float) "B" (Some "Bugcrowd"%string);
    sampleBug "Resolved" (Some 0.1%float) "A" (Some "HackerOne"%string);
    sampleBug "Accepted" (Some 0.2%float) "A" (Some "HackerOne"%string);
    sampleBug "Bounty Awarded" (Some 500%float) "C" (Some "Intigriti"%string);
    sampleBug "Resolved" (Some 500%float) "D" (Some "YesWeHack"%string);
    sampleBug "Resolved" (Some 1000%float) "E" (Some "Synack"%string);
    sampleBug "Duplicate" None "F" (Some "Immunefi"%string);
    sampleBug "Submitted" (Some 0%float) "G" None ].

(** Two records without bounty, of a program named "2" and then of a
    program named "1". *)
Definition twoNumberedPrograms : list BugData.t :=
  [ sampleBug "Submitted" None "2" None;
    sampleBug "Submitted" None "1" None ].

(** Three records of 0.1, 0.1 and 1.1, the second one on a platform of its
    own. *)
#[warnings="-inexact-float"] Definition threeAmounts : list BugData.t :=
  [ sampleBug "Resolved" (Some 0.1%float) "A" (Some "HackerOne"%string);
    sampleBug "Resolved" (Some 0.1%float) "B" (Some "Bugcrowd"%string);
    sampleBug "Resolved" (Some 1.1%float) "C" (Some "HackerOne"%string) ].

End Binary64.

(** ** Lemmas on the runtime pieces *)

Lemma includes_In xs s : includes xs s = true <-> In s xs.
Proof.
  unfold includes. rewrite existsb_exists. split.
  - intros [x [Hx He]]. apply String.eqb_eq in He. now subst.
  - intros H. exists s. split; [assumption | apply String.eqb_refl].
Qed.

Lemma statusIn_includes xs bug :
  statusIn xs bug = includes xs (BugData.status bug).
Proof.
  unfold statusIn. destruct (in_dec string_dec (BugData.status bug) xs) as [H|H].
  - symmetry. now apply includes_In.
  - destruct (includes xs (BugData.status bug)) eqn:E; [|reflexivity].
    apply includes_In in E. contradiction.
Qed.

Lemma countRecords_filter p bugs :
  countRecords p bugs = List.length (filter p bugs).
Proof.
  induction bugs as [|b l IH]; simpl; [reflexivity|].
  destruct (p b); simpl; now rewrite IH.
Qed.

Lemma countRecords_ext p q bugs :
  (forall b, p b = q b) -> countRecords p bugs = countRecords q bugs.
Proof.
  intros H. induction bugs as [|b l IH]; simpl; [reflexivity|].
  now rewrite H, IH.
Qed.

Lemma fold_sum_acc (bugs : list BugData.t) (acc : Q) :
  (fold_left (fun sum bug => sum + amountOrZero bug) bugs acc
   == acc + totalBounty bugs)%Q.
Proof.
  revert acc. induction bugs as [|b l IH]; intros acc; simpl.
  - ring.
  - rewrite IH. unfold amountOrZero. ring.
Qed.

Lemma sumBounty_total bugs : (sumBounty bugs == totalBounty bugs)%Q.
Proof. unfold sumBounty. rewrite fold_sum_acc. ring. Qed.

(** *** Dictionaries *)

Module JsObjectFacts.
Import JsObject.
Section Facts.
Context {V : Type}.
Implicit Types (o : JsObject.t V) (k : string) (v : V).

Lemma get_set o k v k' :
      get (set o k v) k' = if String.eqb k' k then Some v else get o k'.
Proof.
      induction o as [|[k0 v0] o IH]; simpl.
      - destruct (String.eqb k' k); reflexivity.
      - destruct (String.eqb k k0) eqn:E; simpl.
        + apply String.eqb_eq in E. subst k0.
          destruct (String.eqb k' k); reflexivity.
        + destruct (String.eqb k' k0) eqn:E0.
          * apply String.eqb_eq in E0. subst k0.
            rewrite String.eqb_sym in E. now rewrite E.
          * apply IH.
Qed.

Lemma get_modify o k f k' :
      get (modify o k f) k' =
      if String.eqb k' k then option_map f (get o k') else get o k'.
Proof.
      induction o as [|[k0 v0] o IH]; simpl.
      - destruct (String.eqb k' k); reflexivity.
      - destruct (String.eqb k k0) eqn:E; simpl.
        + apply String.eqb_eq in E. subst k0.
          destruct (String.eqb k' k); reflexivity.
        + destruct (String.eqb k' k0) eqn:E0.
          * apply String.eqb_eq in E0. subst k0.
            rewrite String.eqb_sym in E. now rewrite E.
          * apply IH.
Qed.

Lemma keys_modify o k f : keys (modify o k f) = keys o.
Proof.
      induction o as [|[k0 v0] o IH]; simpl; [reflexivity|].
      destruct (String.eqb k k0); simpl; [reflexivity|].
      f_equal. apply IH.
Qed.

Lemma get_None_keys o k : get o k = None <-> ~ In k (keys o).
Proof.
      induction o as [|[k0 v0] o IH]; simpl.
      - tauto.
      - destruct (String.eqb k k0) eqn:E.
        + apply String.eqb_eq in E. subst. split; [discriminate|tauto].
        + apply String.eqb_neq in E. rewrite IH. split.
          * intros H [H1|H1]; [congruence|tauto].
          * tauto.
Qed.

Lemma set_fresh o k v : get o k = None -> set o k v = (o ++ [(k, v)])%list.
Proof.
      induction o as [|[k0 v0] o IH]; simpl; [reflexivity|].
      destruct (String.eqb k k0); [discriminate|].
      intros H. now rewrite IH.
Qed.

Lemma modify_modify o k f g :
      modify (modify o k f) k g = modify o k (fun v => g (f v)).
Proof.
      induction o as [|[k0 v0] o IH]; simpl; [reflexivity|].
      destruct (String.eqb k k0) eqn:E; simpl; rewrite E; [reflexivity|].
      f_equal. apply IH.
Qed.

Lemma modify_absent o k f : get o k = None -> modify o k f = o.
Proof.
      induction o as [|[k0 v0] o IH]; simpl; [reflexivity|].
      destruct (String.eqb k k0); [discriminate|].
      intros H. now rewrite IH.
Qed.

(** With distinct keys, an entry is what [get] finds. *)
Lemma In_get o k v : NoDup (keys o) -> In (k, v) o -> get o k = Some v.
Proof.
      induction o as [|[k0 v0] o IH]; simpl; [tauto|].
      intros Hnd [H|H].
      - inversion H; subst. now rewrite String.eqb_refl.
      - inversion Hnd as [|? ? Hnot Hnd']; subst.
        destruct (String.eqb k k0) eqn:E.
        + apply String.eqb_eq in E. subst k0. exfalso. apply Hnot.
          unfold keys. apply in_map_iff. now exists (k, v).
        + now apply IH.
Qed.

Lemma get_In o k v : get o k = Some v -> In (k, v) o.
Proof.
      induction o as [|[k0 v0] o IH]; simpl; [discriminate|].
      destruct (String.eqb k k0) eqn:E.
      - apply String.eqb_eq in E. subst. intros H. inversion H. now left.
      - intros H. right. now apply IH.
Qed.
End Facts.
End JsObjectFacts.

(** *** The grouping pass *)

Lemma firstSeen_In ks k : In k (firstSeen ks) <-> In k ks.
Proof.
  induction ks as [|k0 ks IH]; simpl; [tauto|].
  rewrite filter_In, IH, negb_true_iff, String.eqb_neq.
  destruct (string_dec k0 k) as [->|Hne]; [tauto|].
  split; [tauto|]. intros [H|H]; [tauto|]. right. split; congruence.
Qed.

Lemma firstSeen_NoDup ks : NoDup (firstSeen ks).
Proof.
  induction ks as [|k0 ks IH]; simpl; constructor.
  - rewrite filter_In, negb_true_iff, String.eqb_neq. tauto.
  - now apply NoDup_filter.
Qed.

Lemma firstSeen_snoc ks k :
  firstSeen (ks ++ [k]) =
  if in_dec string_dec k ks then firstSeen ks else (firstSeen ks ++ [k])%list.
Proof.
  induction ks as [|k0 ks IH]; simpl; [reflexivity|].
  rewrite IH.
  destruct (in_dec string_dec k ks) as [Hin|Hnin];
    destruct (string_dec k0 k) as [->|Hne]; try reflexivity.
  - rewrite filter_app. simpl. now rewrite String.eqb_refl, app_nil_r.
  - destruct (in_dec string_dec k ks); [contradiction|].
    rewrite filter_app. simpl.
    assert (E : String.eqb k k0 = false) by (apply String.eqb_neq; congruence).
    now rewrite E.
Qed.

Section GroupingFacts.
Import JsObject JsObjectFacts.
Context {B A : Type}.
Variable key : B -> string.
Variable init : B -> A.
Variable upd : B -> A -> A.

Local Abbreviation step := (groupStep key init upd).
Local Abbreviation run bs := (fold_left step bs JsObject.empty).

Lemma get_groupStep m b k :
    get (step m b) k = groupWatch key init upd k (get m k) b.
Proof.
    unfold groupStep, groupWatch. rewrite get_modify.
    rewrite (String.eqb_sym (key b) k).
    destruct (String.eqb k (key b)) eqn:E; [apply String.eqb_eq in E; subst k|].
    - destruct (get m (key b)) eqn:G; simpl.
      + now rewrite G.
      + now rewrite get_set, String.eqb_refl.
    - destruct (get m (key b)) eqn:G; [reflexivity|].
      now rewrite get_set, E.
Qed.

(** The accumulator stored under [k] is the one of the pass restricted to
    the records of key [k]. *)
Lemma get_run bs k : get (run bs) k = groupAcc key init upd k bs.
Proof.
    unfold groupAcc. induction bs as [|b bs IH] using rev_ind; [reflexivity|].
    rewrite !fold_left_app. simpl. now rewrite get_groupStep, IH.
Qed.

Lemma keys_groupStep m b :
    keys (step m b) =
    if in_dec string_dec (key b) (keys m) then keys m
    else (keys m ++ [key b])%list.
Proof.
    unfold groupStep. rewrite keys_modify.
    destruct (get m (key b)) eqn:G.
    - destruct (in_dec string_dec (key b) (keys m)) as [|Hn]; [reflexivity|].
      apply get_None_keys in Hn. congruence.
    - destruct (in_dec string_dec (key b) (keys m)) as [Hi|]; 
        [apply get_None_keys in G; contradiction|].
      rewrite set_fresh by assumption. unfold keys. now rewrite map_app.
Qed.

(** The groups are created in encounter order of their keys. *)
Lemma keys_run bs : keys (run bs) = firstSeen (map key bs).
Proof.
    induction bs as [|b bs IH] using rev_ind; [reflexivity|].
    rewrite fold_left_app, map_app. simpl.
    rewrite keys_groupStep, firstSeen_snoc, IH.
    destruct (in_dec string_dec (key b) (firstSeen (map key bs))) as [H|H];
      destruct (in_dec string_dec (key b) (map key bs)) as [H'|H'];
      try reflexivity; rewrite firstSeen_In in H; contradiction.
Qed.

Lemma NoDup_keys_run bs : NoDup (keys (run bs)).
Proof. rewrite keys_run. apply firstSeen_NoDup. Qed.

Lemma In_run bs k a : In (k, a) (run bs) <-> groupAcc key init upd k bs = Some a.
Proof.
    rewrite <- get_run. split.
    - apply In_get, NoDup_keys_run.
    - apply get_In.
Qed.

Lemma In_run_key bs k a : In (k, a) (run bs) -> In k (map key bs).
Proof.
    intros H. rewrite <- firstSeen_In, <- keys_run.
    unfold keys. apply in_map_iff. now exists (k, a).
Qed.
End GroupingFacts.

Lemma fold_left_ext {X Y : Type} (f g : X -> Y -> X) l x :
  (forall a b, f a b = g a b) -> fold_left f l x = fold_left g l x.
Proof.
  intros H. revert x. induction l as [|y l IH]; intros x; simpl; [reflexivity|].
  now rewrite H, IH.
Qed.

(** On a plain object the pass skips the records whose key is inherited and
    groups the others. *)
Section DictStepFacts.
Import JsObject JsObjectFacts.
Context {B A : Type}.
Variable key : B -> string.
Variable init : B -> A.
Variable upd : B -> A -> A.

Let ordinary (m : JsObject.t A) : Prop :=
  Forall (fun k => inherited k = false) (keys m).

Lemma dictStep_inherited m b :
  ordinary m -> inherited (key b) = true -> dictStep key init upd m b = m.
Proof.
  intros Hm Hb. unfold dictStep, truthy.
  destruct (get m (key b)) eqn:G.
  - exfalso. unfold ordinary in Hm. rewrite Forall_forall in Hm.
    assert (Hin : In (key b) (keys m)).
    { destruct (in_dec string_dec (key b) (keys m)) as [|Hn]; [assumption|].
      apply get_None_keys in Hn. congruence. }
    specialize (Hm _ Hin). congruence.
  - rewrite Hb. simpl. now apply modify_absent.
Qed.

Lemma dictStep_ordinary m b :
  inherited (key b) = false ->
  dictStep key init upd m b = groupStep key init upd m b.
Proof.
  intros Hb. unfold dictStep, groupStep, truthy.
  destruct (get m (key b)); [reflexivity|]. now rewrite Hb.
Qed.

Lemma groupStep_ordinary m b :
  ordinary m -> inherited (key b) = false ->
  ordinary (groupStep key init upd m b).
Proof.
  unfold ordinary. intros Hm Hb. rewrite keys_groupStep.
  destruct (in_dec string_dec (key b) (keys m)); [assumption|].
  apply Forall_app. split; [assumption|]. now constructor.
Qed.

Lemma dictStep_run_from bs m :
  ordinary m ->
  fold_left (dictStep key init upd) bs m
  = fold_left (groupStep key init upd) (grouped key bs) m.
Proof.
  revert m. induction bs as [|b bs IH]; intros m Hm; simpl; [reflexivity|].
  destruct (inherited (key b)) eqn:Hb; simpl.
  - rewrite dictStep_inherited by assumption. now apply IH.
  - rewrite dictStep_ordinary by assumption.
    apply IH. now apply groupStep_ordinary.
Qed.

Lemma dictStep_run bs :
  fold_left (dictStep key init upd) bs JsObject.empty
  = fold_left (groupStep key init upd) (grouped key bs) JsObject.empty.
Proof. apply dictStep_run_from. constructor. Qed.

(** The records of an ordinary key all get a group. *)
Lemma grouped_filter k bs :
  inherited k = false ->
  filter (fun b => String.eqb (key b) k) (grouped key bs)
  = filter (fun b => String.eqb (key b) k) bs.
Proof.
  intros Hk. unfold grouped. induction bs as [|b bs IH]; simpl; [reflexivity|].
  destruct (String.eqb (key b) k) eqn:E.
  - apply String.eqb_eq in E. rewrite E, Hk. simpl.
    rewrite <- E at 1. rewrite String.eqb_refl. now rewrite IH.
  - destruct (inherited (key b)); simpl; [|rewrite E]; apply IH.
Qed.

Lemma grouped_find k bs :
  inherited k = false ->
  find (fun b => String.eqb (key b) k) (grouped key bs)
  = find (fun b => String.eqb (key b) k) bs.
Proof.
  intros Hk. unfold grouped. induction bs as [|b bs IH]; simpl; [reflexivity|].
  destruct (String.eqb (key b) k) eqn:E.
  - apply String.eqb_eq in E. rewrite E, Hk. simpl.
    rewrite <- E at 1. now rewrite String.eqb_refl.
  - destruct (inherited (key b)); simpl; [|rewrite E]; apply IH.
Qed.

Lemma grouped_ordinary k bs :
  In k (map key (grouped key bs)) -> inherited k = false.
Proof.
  unfold grouped. intros H. apply in_map_iff in H.
  destruct H as [b [<- Hb]]. apply filter_In in Hb.
  destruct Hb as [_ Hb]. now apply negb_true_iff in Hb.
Qed.

Lemma grouped_all bs :
  Forall (fun b => inherited (key b) = false) bs -> grouped key bs = bs.
Proof.
  unfold grouped. induction 1 as [|b bs Hb _ IH]; simpl; [reflexivity|].
  now rewrite Hb, IH.
Qed.
End DictStepFacts.

Lemma platformStep_dictStep m bug :
  platformStep m bug =
  dictStep platformName (fun _ => newPlatformAcc) platformUpd m bug.
Proof.
  unfold platformStep, dictStep, platformUpd.
  destruct (includes resolvedStatuses (BugData.status bug));
    [destruct (includes acceptedStatuses (BugData.status bug))|];
    now rewrite !JsObjectFacts.modify_modify.
Qed.

Lemma programStep_dictStep m bug :
  programStep m bug =
  dictStep programName (fun b => newProgramAcc (companyName b)) programUpd m bug.
Proof.
  unfold programStep, dictStep, programUpd.
  destruct (includes resolvedStatuses (BugData.status bug));
    [destruct (includes acceptedStatuses (BugData.status bug))|];
    now rewrite !JsObjectFacts.modify_modify.
Qed.

Lemma platformMap_run bugs :
  fold_left platformStep bugs JsObject.empty =
  fold_left (groupStep platformName (fun _ => newPlatformAcc) platformUpd)
    (grouped platformName bugs) JsObject.empty.
Proof.
  rewrite (fold_left_ext _ _ _ _ platformStep_dictStep). apply dictStep_run.
Qed.

Lemma programMap_run bugs :
  fold_left programStep bugs JsObject.empty =
  fold_left (groupStep programName (fun b => newProgramAcc (companyName b))
               programUpd) (grouped programName bugs) JsObject.empty.
Proof.
  rewrite (fold_left_ext _ _ _ _ programStep_dictStep). apply dictStep_run.
Qed.

Lemma sumNat_app l1 l2 : sumNat (l1 ++ l2) = (sumNat l1 + sumNat l2)%nat.
Proof. induction l1 as [|n l IH]; simpl; lia. Qed.

Lemma sumQ_app l1 l2 : (sumQ (l1 ++ l2) == sumQ l1 + sumQ l2)%Q.
Proof. induction l1 as [|q l IH]; simpl; [ring|]. rewrite IH. ring. Qed.

Section GroupingSums.
Import JsObject JsObjectFacts.
Context {B A : Type}.
Variable key : B -> string.
Variable init : B -> A.
Variable upd : B -> A -> A.

(** A counter field that starts at 0 and grows by [w b] with record [b]. *)
Section NatField.
Variable field : A -> nat.
Variable w : B -> nat.
Hypothesis field_init : forall b, field (init b) = 0%nat.
Hypothesis field_upd : forall b a, field (upd b a) = (field a + w b)%nat.

Let total (o : JsObject.t A) : nat :=
  sumNat (map (fun e => field (snd e)) o).

Lemma total_modify o k b :
      In k (keys o) -> total (modify o k (upd b)) = (total o + w b)%nat.
Proof.
      unfold total. induction o as [|[k0 v0] o IH]; simpl; [tauto|].
      destruct (String.eqb k k0) eqn:E; simpl.
      - intros _. rewrite field_upd. lia.
      - apply String.eqb_neq in E. intros [H|H]; [congruence|].
        rewrite IH by assumption. lia.
Qed.

Lemma total_groupStep o b :
      total (groupStep key init upd o b) = (total o + w b)%nat.
Proof.
      unfold groupStep. destruct (get o (key b)) eqn:G.
      - apply total_modify. 
        destruct (in_dec string_dec (key b) (keys o)) as [|Hn]; [assumption|].
        apply get_None_keys in Hn. congruence.
      - rewrite set_fresh by assumption. rewrite total_modify.
        + unfold total. rewrite map_app. simpl.
          clear G. induction o as [|e o IH]; simpl.
          * rewrite field_init. lia.
          * unfold total in IH. simpl in IH. lia.
        + unfold keys. rewrite map_app. apply in_or_app. right. now left.
Qed.

Lemma total_run bs :
      total (fold_left (groupStep key init upd) bs JsObject.empty) =
      sumNat (map w bs).
Proof.
      induction bs as [|b bs IH] using rev_ind; [reflexivity|].
      rewrite fold_left_app. simpl.
      rewrite total_groupStep, IH, map_app, sumNat_app. simpl. lia.
Qed.
End NatField.

(** An amount field that starts at 0 and grows by [w b] with record [b]. *)
Section AmountField.
Variable field : A -> Q.
Variable w : B -> Q.
Hypothesis field_init : forall b, (field (init b) == 0)%Q.
Hypothesis field_upd : forall b a, (field (upd b a) == field a + w b)%Q.

Let amount (o : JsObject.t A) : Q :=
  sumQ (map (fun e => field (snd e)) o).

Lemma amount_modify o k b :
      In k (keys o) -> (amount (modify o k (upd b)) == amount o + w b)%Q.
Proof.
      unfold amount. induction o as [|[k0 v0] o IH]; simpl; [tauto|].
      destruct (String.eqb k k0) eqn:E; simpl.
      - intros _. rewrite field_upd. ring.
      - apply String.eqb_neq in E. intros [H|H]; [congruence|].
        rewrite IH by assumption. ring.
Qed.

Lemma amount_snoc o k v : (amount (o ++ [(k, v)]) == amount o + field v)%Q.
Proof.
      unfold amount. induction o as [|e o IH]; simpl; [ring|].
      rewrite IH. ring.
Qed.

Lemma amount_groupStep o b :
      (amount (groupStep key init upd o b) == amount o + w b)%Q.
Proof.
      unfold groupStep. destruct (get o (key b)) eqn:G.
      - apply amount_modify. 
        destruct (in_dec string_dec (key b) (keys o)) as [|Hn]; [assumption|].
        apply get_None_keys in Hn. congruence.
      - rewrite set_fresh by assumption. rewrite amount_modify.
        + rewrite amount_snoc, field_init. ring.
        + unfold keys. rewrite map_app. apply in_or_app. right. now left.
Qed.

Lemma amount_run bs :
      (amount (fold_left (groupStep key init upd) bs JsObject.empty)
       == sumQ (map w bs))%Q.
Proof.
      induction bs as [|b bs IH] using rev_ind; [reflexivity|].
      rewrite fold_left_app. simpl.
      rewrite amount_groupStep, IH, map_app, sumQ_app. simpl. ring.
Qed.
End AmountField.
End GroupingSums.

(** *** One group of the grouping pass *)

Lemma find_snoc {X : Type} (p : X -> bool) l x :
  find p (l ++ [x]) =
  match find p l with
  | Some y => Some y
  | None => if p x then Some x else None
  end.
Proof.
  induction l as [|y l IH]; simpl; [reflexivity|].
  destruct (p y); [reflexivity | apply IH].
Qed.

Section GroupFacts.
Context {B A : Type}.
Variable key : B -> string.
Variable init : B -> A.
Variable upd : B -> A -> A.
Variable k : string.

Local Abbreviation acc bs := (groupAcc key init upd k bs).
Local Abbreviation mine := (fun b : B => String.eqb (key b) k).

Lemma groupAcc_snoc bs b :
  acc (bs ++ [b]) = groupWatch key init upd k (acc bs) b.
Proof. unfold groupAcc. now rewrite fold_left_app. Qed.

Lemma groupAcc_None bs : acc bs = None <-> filter mine bs = [].
Proof.
  induction bs as [|b bs IH] using rev_ind; [simpl; tauto|].
  rewrite groupAcc_snoc, filter_app. unfold groupWatch. simpl.
  destruct (String.eqb (key b) k).
  - split; [discriminate|]. intros H. apply app_eq_nil in H. destruct H. discriminate.
  - now rewrite app_nil_r.
Qed.

Section CounterOfGroup.
Variable field : A -> nat.
Variable w : B -> nat.
Hypothesis field_init : forall b, field (init b) = 0%nat.
Hypothesis field_upd : forall b a, field (upd b a) = (field a + w b)%nat.

Lemma groupAcc_counter bs a :
  acc bs = Some a -> field a = sumNat (map w (filter mine bs)).
Proof.
  revert a. induction bs as [|b bs IH] using rev_ind; [discriminate|].
  intros a. rewrite groupAcc_snoc, filter_app. unfold groupWatch. simpl.
  destruct (String.eqb (key b) k).
  - intros H. inversion H; subst a. rewrite field_upd, map_app, sumNat_app. simpl.
    destruct (acc bs) as [a'|] eqn:E.
    + rewrite (IH a' eq_refl). lia.
    + apply groupAcc_None in E. rewrite E, field_init. simpl. lia.
  - rewrite app_nil_r. apply IH.
Qed.
End CounterOfGroup.

Section AmountOfGroup.
Variable field : A -> Q.
Variable w : B -> Q.
Hypothesis field_init : forall b, (field (init b) == 0)%Q.
Hypothesis field_upd : forall b a, (field (upd b a) == field a + w b)%Q.

Lemma groupAcc_amount bs a :
  acc bs = Some a -> (field a == sumQ (map w (filter mine bs)))%Q.
Proof.
  revert a. induction bs as [|b bs IH] using rev_ind; [discriminate|].
  intros a. rewrite groupAcc_snoc, filter_app. unfold groupWatch. simpl.
  destruct (String.eqb (key b) k).
  - intros H. inversion H; subst a. rewrite field_upd, map_app, sumQ_app. simpl.
    destruct (acc bs) as [a'|] eqn:E.
    + rewrite (IH a' eq_refl). ring.
    + apply groupAcc_None in E. rewrite E, field_init. simpl. ring.
  - rewrite app_nil_r. apply IH.
Qed.
End AmountOfGroup.

(** A field set when the group is created and never touched again. *)
Section ConstantOfGroup.
Context {C : Type}.
Variable field : A -> C.
Variable c : B -> C.
Hypothesis field_init : forall b, field (init b) = c b.
Hypothesis field_upd : forall b a, field (upd b a) = field a.

Lemma groupAcc_constant bs a :
  acc bs = Some a ->
  exists b0, find mine bs = Some b0 /\ field a = c b0.
Proof.
  revert a. induction bs as [|b bs IH] using rev_ind; [discriminate|].
  intros a. rewrite groupAcc_snoc, find_snoc. unfold groupWatch.
  destruct (acc bs) as [a'|] eqn:E.
  - destruct (IH a' eq_refl) as [b0 [Hf Hc]]. rewrite Hf.
    destruct (String.eqb (key b) k).
    + intros H. inversion H; subst a. exists b0. now rewrite field_upd.
    + intros H. inversion H; subst a. now exists b0.
  - apply groupAcc_None in E.
    assert (Hn : find mine bs = None).
    { clear IH. induction bs as [|x l IHl]; simpl in *; [reflexivity|].
      destruct (String.eqb (key x) k); [discriminate | now apply IHl]. }
    rewrite Hn. destruct (String.eqb (key b) k); [|discriminate].
    intros H. inversion H; subst a. exists b. now rewrite field_upd, field_init.
Qed.
End ConstantOfGroup.
End GroupFacts.

(** *** The stable sort by decreasing amount *)

Section SortFacts.
Context {A : Type}.
Variable f : A -> Q.

Local Abbreviation byAmount := (fun a b : A => (f b - f a)%Q).
Local Abbreviation sorted := (Array_sort byAmount).
Local Abbreviation ins := (sort_insert byAmount).

Lemma goes_first x y : Qle_bool (f y - f x) 0 = true <-> (f y <= f x)%Q.
Proof.
  rewrite Qle_bool_iff. split; intros H.
  - apply Qplus_le_l with (z := (- f x)%Q). now rewrite Qplus_opp_r.
  - apply Qplus_le_l with (z := (- f x)%Q) in H. now rewrite Qplus_opp_r in H.
Qed.

Lemma sort_insert_perm x l : Permutation (ins x l) (x :: l).
Proof.
  induction l as [|y l IH]; simpl; [apply Permutation_refl|].
  destruct (Qle_bool (f y - f x) 0); [apply Permutation_refl|].
  rewrite IH. apply perm_swap.
Qed.

Lemma Array_sort_perm l : Permutation (sorted l) l.
Proof.
  induction l as [|x l IH]; simpl; [constructor|].
  rewrite sort_insert_perm. now constructor.
Qed.

Lemma sort_insert_sorted x l :
  Sorted (fun a b => (f b <= f a)%Q) l ->
  Sorted (fun a b => (f b <= f a)%Q) (ins x l).
Proof.
  induction l as [|y l IH]; simpl; intros Hs.
  - repeat constructor.
  - destruct (Qle_bool (f y - f x) 0) eqn:E.
    + constructor; [assumption|]. constructor. now apply goes_first.
    + inversion Hs as [|? ? Hs' Hhd]; subst.
      constructor; [now apply IH|].
      assert (Hxy : (f x <= f y)%Q).
      { apply Qlt_le_weak, Qnot_le_lt. intros H. apply goes_first in H. congruence. }
      destruct l as [|z l]; simpl.
      * now constructor.
      * destruct (Qle_bool (f z - f x) 0); constructor; [assumption|].
        now inversion Hhd.
Qed.

Lemma Array_sort_sorted l : Sorted (fun a b => (f b <= f a)%Q) (sorted l).
Proof.
  induction l as [|x l IH]; simpl; [constructor|].
  now apply sort_insert_sorted.
Qed.

End SortFacts.

Lemma Sorted_firstn {A : Type} (R : A -> A -> Prop) n l :
  Sorted R l -> Sorted R (firstn n l).
Proof.
  revert l. induction n as [|n IH]; intros l Hs; simpl; [constructor|].
  destruct l as [|x l]; [constructor|].
  inversion Hs as [|? ? Hs' Hhd]; subst.
  constructor; [now apply IH|].
  destruct n; simpl; [constructor|].
  destruct l; [constructor|]. constructor. now inversion Hhd.
Qed.

Lemma filter_firstn_prefix {A : Type} (p : A -> bool) n l :
  prefixOf (filter p (firstn n l)) (filter p l).
Proof.
  exists (filter p (skipn n l)).
  now rewrite <- filter_app, firstn_skipn.
Qed.

Lemma In_firstn {A : Type} n (l : list A) x : In x (firstn n l) -> In x l.
Proof.
  intros H. rewrite <- (firstn_skipn n l). apply in_or_app. now left.
Qed.

(** *** Facts on the two rollups *)

Lemma sumNat_perm l l' : Permutation l l' -> sumNat l = sumNat l'.
Proof. induction 1; simpl; lia. Qed.

Lemma sumQ_perm l l' : Permutation l l' -> (sumQ l == sumQ l')%Q.
Proof.
  induction 1; simpl.
  - reflexivity.
  - now rewrite IHPermutation.
  - ring.
  - now rewrite IHPermutation1.
Qed.

Lemma sumNat_ones {X : Type} (l : list X) :
  sumNat (map (fun _ => 1%nat) l) = List.length l.
Proof. induction l; simpl; lia. Qed.

Lemma sumQ_amounts bugs : (sumQ (map amountOrZero bugs) == totalBounty bugs)%Q.
Proof.
  induction bugs as [|b l IH]; simpl; [reflexivity|].
  rewrite IH. unfold amountOrZero. reflexivity.
Qed.

Lemma platformUpd_bugs bug a :
  PlatformAcc.bugs (platformUpd bug a) = (PlatformAcc.bugs a + 1)%nat.
Proof.
  unfold platformUpd.
  destruct (includes resolvedStatuses (BugData.status bug));
    [destruct (includes acceptedStatuses (BugData.status bug))|]; reflexivity.
Qed.

Lemma platformUpd_earnings bug a :
  (PlatformAcc.earnings (platformUpd bug a)
   == PlatformAcc.earnings a + amountOrZero bug)%Q.
Proof.
  unfold platformUpd.
  destruct (includes resolvedStatuses (BugData.status bug));
    [destruct (includes acceptedStatuses (BugData.status bug))|]; reflexivity.
Qed.

Lemma programUpd_bugs bug a :
  ProgramAcc.bugs (programUpd bug a) = (ProgramAcc.bugs a + 1)%nat.
Proof.
  unfold programUpd.
  destruct (includes resolvedStatuses (BugData.status bug));
    [destruct (includes acceptedStatuses (BugData.status bug))|]; reflexivity.
Qed.

Lemma programUpd_earnings bug a :
  (ProgramAcc.earnings (programUpd bug a)
   == ProgramAcc.earnings a + amountOrZero bug)%Q.
Proof.
  unfold programUpd.
  destruct (includes resolvedStatuses (BugData.status bug));
    [destruct (includes acceptedStatuses (BugData.status bug))|]; reflexivity.
Qed.

Lemma programUpd_company bug a :
  ProgramAcc.company (programUpd bug a) = ProgramAcc.company a.
Proof.
  unfold programUpd.
  destruct (includes resolvedStatuses (BugData.status bug));
    [destruct (includes acceptedStatuses (BugData.status bug))|]; reflexivity.
Qed.

(** *** Property enumeration *)

Section EnumerationFacts.
Import JsObject.
Context {X : Type}.
Variable name : X -> string.

Lemma insertIndexed_perm (x : N * X) l : Permutation (insertIndexed x l) (x :: l).
Proof.
  induction l as [|y l IH]; simpl; [apply Permutation_refl|].
  destruct (fst x <=? fst y)%N; [apply Permutation_refl|].
  rewrite IH. apply perm_swap.
Qed.

Lemma enumerate_perm l : Permutation (enumerate name l) l.
Proof.
  unfold enumerate. induction l as [|x l IH]; simpl; [constructor|].
  destruct (arrayIndex (name x)) as [n|].
  - rewrite (Permutation_map snd (insertIndexed_perm (n, x) (indexed name l))).
    simpl. now constructor.
  - apply Permutation_sym, Permutation_cons_app, Permutation_sym, IH.
Qed.

Lemma enumerate_In l x : In x (enumerate name l) <-> In x l.
Proof.
  split; apply Permutation_in;
    [apply enumerate_perm | apply Permutation_sym, enumerate_perm].
Qed.

(** Without array indices among the names, enumeration is creation order. *)
Lemma enumerate_named l :
  Forall (fun x => arrayIndex (name x) = None) l -> enumerate name l = l.
Proof.
  intros H. unfold enumerate.
  assert (Hi : indexed name l = []).
  { induction H as [|x l Hx _ IH]; simpl; [reflexivity|]. now rewrite Hx. }
  assert (Hn : named name l = l).
  { unfold named. induction H as [|x l Hx _ IH]; simpl; [reflexivity|].
    rewrite Hx. f_equal. apply IH.
    clear -Hi Hx. simpl in Hi. now rewrite Hx in Hi. }
  now rewrite Hi, Hn.
Qed.

Lemma insertIndexed_map (g : X -> string) (x : N * X) l :
  map (fun p => (fst p, g (snd p))) (insertIndexed x l)
  = insertIndexed (fst x, g (snd x)) (map (fun p => (fst p, g (snd p))) l).
Proof.
  induction l as [|y l IH]; simpl; [reflexivity|].
  destruct (fst x <=? fst y)%N; simpl; [reflexivity|]. now rewrite IH.
Qed.

(** The names of the enumerated properties are the enumerated names. *)
Lemma enumerate_names l :
  map name (enumerate name l) = enumerate (fun k => k) (map name l).
Proof.
  unfold enumerate. rewrite map_app. f_equal.
  - rewrite map_map.
    transitivity (map snd (map (fun p => (fst p, name (snd p))) (indexed name l))).
    { now rewrite map_map. }
    f_equal. induction l as [|x l IH]; simpl; [reflexivity|].
    destruct (arrayIndex (name x)) as [n|]; [|exact IH].
    now rewrite insertIndexed_map, IH.
  - unfold named. induction l as [|x l IH]; simpl; [reflexivity|].
    destruct (arrayIndex (name x)); simpl; now rewrite IH.
Qed.
End EnumerationFacts.

Lemma platformData_perm bugs :
  Permutation (calculatePlatformData bugs) (platformRows bugs).
Proof. apply Array_sort_perm. Qed.

Lemma platformRows_names bugs :
  map PlatformData.name (platformRows bugs)
  = propertyOrder (firstSeen (map platformName (grouped platformName bugs))).
Proof.
  unfold platformRows, JsObject.entries, propertyOrder.
  rewrite platformMap_run.
  rewrite <- keys_run with (init := fun _ => newPlatformAcc) (upd := platformUpd).
  unfold JsObject.keys. rewrite <- enumerate_names, map_map.
  apply map_ext. now intros [k a].
Qed.

Lemma programRows_names bugs :
  map ProgramData.name (programRows bugs)
  = propertyOrder (firstSeen (map programName (grouped programName bugs))).
Proof.
  unfold programRows, JsObject.entries, propertyOrder.
  rewrite programMap_run.
  rewrite <- keys_run with (init := fun b => newProgramAcc (companyName b))
                           (upd := programUpd).
  unfold JsObject.keys. rewrite <- enumerate_names, map_map.
  apply map_ext. now intros [k a].
Qed.

(** A row of the platform rollup summarises the records of its name. *)
Lemma platformRows_group bugs g :
  In g (platformRows bugs) ->
  let group := filter (fun b => String.eqb (platformName b) (PlatformData.name g)) bugs in
  group <> []
  /\ PlatformData.bugs g = List.length group
  /\ (PlatformData.earnings g == totalBounty group)%Q.
Proof.
  unfold platformRows, JsObject.entries. rewrite platformMap_run.
  intros H. apply in_map_iff in H. destruct H as [[k a] [<- Hin]].
  apply enumerate_In in Hin.
  pose proof (grouped_ordinary _ _ _ (In_run_key _ _ _ _ _ _ Hin)) as Hk.
  apply In_run in Hin. simpl.
  rewrite <- (grouped_filter platformName k bugs Hk).
  split; [|split].
  - intros E. apply groupAcc_None with (init := fun _ => newPlatformAcc)
                                       (upd := platformUpd) in E. congruence.
  - rewrite (groupAcc_counter platformName (fun _ => newPlatformAcc)
               platformUpd k PlatformAcc.bugs (fun _ => 1%nat)
               (fun _ => eq_refl) platformUpd_bugs _ a Hin).
    apply sumNat_ones.
  - rewrite (groupAcc_amount platformName (fun _ => newPlatformAcc)
               platformUpd k PlatformAcc.earnings amountOrZero
               (fun _ => Qeq_refl _) platformUpd_earnings _ a Hin).
    apply sumQ_amounts.
Qed.

(** A row of the program leaderboard summarises the records of its name;
    its company is the one of the first of them. *)
Lemma programRows_group bugs p :
  In p (programRows bugs) ->
  let mine := fun b => String.eqb (programName b) (ProgramData.name p) in
  ProgramData.bugs p = List.length (filter mine bugs)
  /\ (ProgramData.earnings p == totalBounty (filter mine bugs))%Q
  /\ exists b0, find mine bugs = Some b0
                /\ ProgramData.company p = companyName b0.
Proof.
  unfold programRows, JsObject.entries. rewrite programMap_run.
  intros H. apply in_map_iff in H. destruct H as [[k a] [<- Hin]].
  apply enumerate_In in Hin.
  pose proof (grouped_ordinary _ _ _ (In_run_key _ _ _ _ _ _ Hin)) as Hk.
  apply In_run in Hin. simpl.
  rewrite <- (grouped_filter programName k bugs Hk).
  rewrite <- (grouped_find programName k bugs Hk).
  split; [|split].
  - rewrite (groupAcc_counter programName
               (fun b => newProgramAcc (companyName b))
               programUpd k ProgramAcc.bugs (fun _ => 1%nat)
               (fun _ => eq_refl) programUpd_bugs _ a Hin).
    apply sumNat_ones.
  - rewrite (groupAcc_amount programName
               (fun b => newProgramAcc (companyName b))
               programUpd k ProgramAcc.earnings amountOrZero
               (fun _ => Qeq_refl _) programUpd_earnings _ a Hin).
    apply sumQ_amounts.
  - apply (groupAcc_constant programName
             (fun b => newProgramAcc (companyName b))
             programUpd k ProgramAcc.company companyName
             (fun _ => eq_refl) programUpd_company _ a Hin).
Qed.

Lemma In_topPrograms bugs p :
  In p (calculateTopPrograms bugs) -> In p (programRows bugs).
Proof.
  unfold calculateTopPrograms, slice0. intros H. apply In_firstn in H.
  eapply Permutation_in; [apply Array_sort_perm | exact H].
Qed.

(** *** Calendar *)

Lemma zrange_In n x : 0 <= x < Z.of_nat n -> In x (zrange n).
Proof.
  intros H. unfold zrange. apply in_map_iff. exists (Z.to_nat x). split.
  - lia.
  - apply in_seq. lia.
Qed.

Lemma eraCheck_holds :
  forallb (fun yoe =>
    forallb (firstOfMonthCheck yoe) [1; 2; 3; 4; 5; 6; 7; 8; 9; 10; 11; 12])
    (zrange 400) = true.
Proof. vm_compute. reflexivity. Qed.

Lemma firstOfMonthCheck_holds yoe m :
  0 <= yoe < 400 -> 1 <= m <= 12 -> firstOfMonthCheck yoe m = true.
Proof.
  intros Hy Hm. pose proof eraCheck_holds as H.
  rewrite forallb_forall in H.
  specialize (H yoe (zrange_In 400 yoe ltac:(lia))).
  rewrite forallb_forall in H. apply H. simpl. lia.
Qed.

Lemma civil_of_doe_first yoe m :
  0 <= yoe < 400 -> 1 <= m <= 12 ->
  let doe := doe_of_civil yoe (if 2 <? m then m - 3 else m + 9) 1 in
  0 <= doe < 146097
  /\ civil_of_doe doe = (yoe + (if m <=? 2 then 1 else 0), m, 1).
Proof.
  intros Hy Hm doe.
  pose proof (firstOfMonthCheck_holds yoe m Hy Hm) as H.
  unfold firstOfMonthCheck in H. cbv zeta in H. fold doe in H.
  destruct (civil_of_doe doe) as [[y' m'] d'].
  rewrite !andb_true_iff in H.
  destruct H as [[H0 H1] [[H2 H3] H4]].
  apply Z.leb_le in H0. apply Z.ltb_lt in H1.
  apply Z.eqb_eq in H2, H3, H4. subst. split; [lia | reflexivity].
Qed.

(** The first day of a month is mapped to its day number and back. *)
Lemma civil_from_days_first y m :
  1 <= m <= 12 -> civil_from_days (days_from_civil y m 1) = (y, m, 1).
Proof.
  intros Hm. unfold civil_from_days, days_from_civil. cbv zeta.
  set (y' := if m <=? 2 then y - 1 else y).
  set (mp := if 2 <? m then m - 3 else m + 9).
  assert (Hyoe : 0 <= y' mod 400 < 400) by (apply Z.mod_pos_bound; lia).
  destruct (civil_of_doe_first (y' mod 400) m Hyoe Hm) as [Hdoe Hciv].
  fold mp in Hdoe, Hciv.
  set (doe := doe_of_civil (y' mod 400) mp 1) in *.
  replace (y' / 400 * 146097 + doe - 719468 + 719468)
    with (doe + y' / 400 * 146097) by lia.
  rewrite Z.mod_add, Z.div_add by lia.
  rewrite (Z.mod_small doe), (Z.div_small doe) by lia.
  rewrite Hciv. f_equal; f_equal.
  subst y'. pose proof (Z.div_mod y 400). pose proof (Z.div_mod (y - 1) 400).
  destruct (m <=? 2); lia.
Qed.

Lemma MakeDay_first y m :
  civil_from_days (MakeDay y m 1) = (y + m / 12, m mod 12 + 1, 1).
Proof.
  unfold MakeDay. cbv zeta.
  replace (days_from_civil (y + m / 12) (m mod 12 + 1) 1 + 1 - 1)
    with (days_from_civil (y + m / 12) (m mod 12 + 1) 1) by lia.
  apply civil_from_days_first.
  pose proof (Z.mod_pos_bound m 12). lia.
Qed.

Lemma localDay_newDate tz y m d : localDay tz (newDate tz y m d) = MakeDay y m d.
Proof.
  unfold localDay, newDate.
  replace (MakeDay y m d * msPerDay - tz + tz) with (MakeDay y m d * msPerDay) by lia.
  apply Z.div_mul. discriminate.
Qed.

Lemma getMonth_newDate tz y m : getMonth tz (newDate tz y m 1) = m mod 12.
Proof. unfold getMonth. rewrite localDay_newDate, MakeDay_first. lia. Qed.

Lemma getFullYear_newDate tz y m :
  getFullYear tz (newDate tz y m 1) = y + m / 12.
Proof. unfold getFullYear. now rewrite localDay_newDate, MakeDay_first. Qed.

Lemma getDate_newDate tz y m : getDate tz (newDate tz y m 1) = 1.
Proof. unfold getDate. now rewrite localDay_newDate, MakeDay_first. Qed.

Lemma civil_of_doe_month doe :
  0 <= doe < 146097 -> let '(_, m, _) := civil_of_doe doe in 1 <= m <= 12.
Proof.
  intros H. unfold civil_of_doe. cbv zeta.
  set (yoe := (doe - doe / 1460 + doe / 36524 - doe / 146096) / 365).
  set (doy := doe - (365 * yoe + yoe / 4 - yoe / 100)).
  assert (Hd : -61 <= doy <= 672)
    by (subst doy yoe; Z.div_mod_to_equations; lia).
  set (mp := (5 * doy + 2) / 153).
  assert (Hmp : -2 <= mp <= 21) by (subst mp; Z.div_mod_to_equations; lia).
  destruct (mp <? 10) eqn:E; [apply Z.ltb_lt in E | apply Z.ltb_ge in E]; lia.
Qed.

Lemma getMonth_range tz t : 0 <= getMonth tz t <= 11.
Proof.
  unfold getMonth, civil_from_days. cbv zeta.
  pose proof (civil_of_doe_month ((localDay tz t + 719468) mod 146097)
                (Z.mod_pos_bound _ 146097 eq_refl)) as H.
  destruct (civil_of_doe _) as [[y m] d]. lia.
Qed.

(** The day before the first of a month, and the 31st of December, are one
    day before the next first. *)
Lemma MakeDay_zeroth y m : MakeDay y m 0 = MakeDay y m 1 - 1.
Proof. unfold MakeDay. lia. Qed.

Ltac january_december :=
  unfold MakeDay, days_from_civil, doe_of_civil; cbv zeta;
  change (11 / 12) with 0; change (11 mod 12) with 11;
  change (0 / 12) with 0; change (0 mod 12) with 0;
  change (11 + 1 <=? 2) with false; change (0 + 1 <=? 2) with true;
  change (2 <? 11 + 1) with true; change (2 <? 0 + 1) with false; cbv iota;
  change ((153 * (11 + 1 - 3) + 2) / 5) with 275;
  change ((153 * (0 + 1 + 9) + 2) / 5) with 306.

Lemma MakeDay_dec31 y : MakeDay (y - 1) 11 31 = MakeDay y 0 1 - 1.
Proof.
  january_december.
  replace (y - 1 + 0) with (y - 1) by lia.
  replace (y + 0 - 1) with (y - 1) by lia. lia.
Qed.

Lemma MakeDay_january y : MakeDay (y - 1) 0 1 < MakeDay y 0 1.
Proof.
  january_december.
  replace (y - 1 + 0 - 1) with (y - 2) by lia.
  replace (y + 0 - 1) with (y - 1) by lia.
  Z.div_mod_to_equations. lia.
Qed.

(** The first of a month comes before the first of the next one. *)
Lemma MakeDay_next_month y m : MakeDay y (m - 1) 1 < MakeDay y m 1.
Proof.
  unfold MakeDay. cbv zeta.
  assert (H : forall y1 m1, 1 <= m1 <= 12 ->
            days_from_civil y1 m1 1
            < days_from_civil (if m1 =? 12 then y1 + 1 else y1)
                              (if m1 =? 12 then 1 else m1 + 1) 1).
  { intros y1 m1 Hm. unfold days_from_civil, doe_of_civil. cbv zeta.
    repeat match goal with
           | |- context [if ?c then _ else _] => destruct c eqn:?
           end;
    repeat match goal with
           | H : (_ <=? _) = true |- _ => apply Z.leb_le in H
           | H : (_ <=? _) = false |- _ => apply Z.leb_gt in H
           | H : (_ <? _) = true |- _ => apply Z.ltb_lt in H
           | H : (_ <? _) = false |- _ => apply Z.ltb_ge in H
           | H : (_ =? _) = true |- _ => apply Z.eqb_eq in H
           | H : (_ =? _) = false |- _ => apply Z.eqb_neq in H
           end;
    try lia; Z.div_mod_to_equations; lia. }
  specialize (H (y + (m - 1) / 12) ((m - 1) mod 12 + 1)
                ltac:(pose proof (Z.mod_pos_bound (m - 1) 12); lia)).
  assert (E1 : y + m / 12 =
               if (m - 1) mod 12 + 1 =? 12 then y + (m - 1) / 12 + 1
               else y + (m - 1) / 12).
  { destruct ((m - 1) mod 12 + 1 =? 12) eqn:E;
      [apply Z.eqb_eq in E | apply Z.eqb_neq in E];
      Z.div_mod_to_equations; lia. }
  assert (E2 : m mod 12 + 1 =
               if (m - 1) mod 12 + 1 =? 12 then 1 else (m - 1) mod 12 + 1 + 1).
  { destruct ((m - 1) mod 12 + 1 =? 12) eqn:E;
      [apply Z.eqb_eq in E | apply Z.eqb_neq in E];
      Z.div_mod_to_equations; lia. }
  rewrite E1, E2. lia.
Qed.

(** *** Month labels *)

Lemma monthShort_inj m m' s s' :
  0 <= m <= 11 -> 0 <= m' <= 11 ->
  (monthShort m ++ s)%string = (monthShort m' ++ s')%string ->
  m = m' /\ s = s'.
Proof.
  intros Hm Hm'.
  assert (C : m = 0 \/ m = 1 \/ m = 2 \/ m = 3 \/ m = 4 \/ m = 5 \/ m = 6
              \/ m = 7 \/ m = 8 \/ m = 9 \/ m = 10 \/ m = 11) by lia.
  assert (C' : m' = 0 \/ m' = 1 \/ m' = 2 \/ m' = 3 \/ m' = 4 \/ m' = 5
               \/ m' = 6 \/ m' = 7 \/ m' = 8 \/ m' = 9 \/ m' = 10
               \/ m' = 11) by lia.
  clear Hm Hm'.
  repeat (destruct C as [->|C]); [..|subst m];
    repeat (destruct C' as [->|C']); try subst m'; simpl; intros H;
    solve [ discriminate H | injection H; auto ].
Qed.

Lemma digit_inj a b : 0 <= a <= 9 -> 0 <= b <= 9 -> digit a = digit b -> a = b.
Proof.
  intros Ha Hb H. unfold digit in H.
  apply (f_equal nat_of_ascii) in H.
  rewrite !nat_ascii_embedding in H by lia. lia.
Qed.

Lemma twoDigitYear_inj y y' :
  twoDigitYear y = twoDigitYear y' ->
  yearOfEra y mod 100 = yearOfEra y' mod 100.
Proof.
  unfold twoDigitYear. cbv zeta. intros H.
  pose proof (Z.mod_pos_bound (yearOfEra y) 100 eq_refl) as B.
  pose proof (Z.mod_pos_bound (yearOfEra y') 100 eq_refl) as B'.
  injection H as H1 H2.
  apply digit_inj in H1; [|Z.div_mod_to_equations; lia..].
  apply digit_inj in H2; [|Z.div_mod_to_equations; lia..].
  Z.div_mod_to_equations. lia.
Qed.

Lemma monthLabel_eqb m y m' y' :
  0 <= m <= 11 -> 0 <= m' <= 11 ->
  String.eqb (monthLabel m y) (monthLabel m' y')
  = (m =? m') && (yearOfEra y mod 100 =? yearOfEra y' mod 100).
Proof.
  intros Hm Hm'.
  destruct ((m =? m') && (yearOfEra y mod 100 =? yearOfEra y' mod 100)) eqn:E.
  - apply andb_true_iff in E. destruct E as [E1 E2].
    apply Z.eqb_eq in E1, E2. subst m'. apply String.eqb_eq.
    unfold monthLabel, twoDigitYear. cbv zeta. now rewrite E2.
  - apply String.eqb_neq. intros H. unfold monthLabel in H.
    apply monthShort_inj in H; [|assumption..]. destruct H as [-> H].
    cbn [append] in H.
    assert (H' : twoDigitYear y = twoDigitYear y') by congruence.
    apply twoDigitYear_inj in H'.
    rewrite H', !Z.eqb_refl in E. discriminate.
Qed.

(** The label of a record's month is the label of bucket month [m] of year
    [y] exactly when the record was created in month [m] of a year with the
    last two digits of [y]. *)
Lemma label_matches tz m y bug :
  0 <= m <= 11 ->
  String.eqb (toLocaleDateString tz (BugData.created_at bug)) (monthLabel m y)
  = createdInMonthOfCentury tz m y bug.
Proof.
  intros Hm. unfold toLocaleDateString, createdInMonthOfCentury.
  apply monthLabel_eqb; [apply getMonth_range | assumption].
Qed.

Lemma toLocaleDateString_newDate tz y m :
  toLocaleDateString tz (newDate tz y m 1) = monthLabel (m mod 12) (y + m / 12).
Proof.
  unfold toLocaleDateString. now rewrite getMonth_newDate, getFullYear_newDate.
Qed.

(** *** Dictionaries filled key by key and updated in place *)

Section FillAndUpdate.
Import JsObject JsObjectFacts.
Context {I B V : Type}.

Lemma fold_set_fresh (k : I -> string) (v : I -> V) (ixs : list I)
  (o : JsObject.t V) :
  NoDup (keys o ++ map k ixs) ->
  fold_left (fun m i => set m (k i) (v i)) ixs o
  = (o ++ map (fun i => (k i, v i)) ixs)%list.
Proof.
  revert o. induction ixs as [|i ixs IH]; intros o Hnd; simpl.
  - now rewrite app_nil_r.
  - assert (Hfresh : get o (k i) = None).
    { apply get_None_keys. intros Hin.
      simpl in Hnd. apply NoDup_remove_2 in Hnd. apply Hnd.
      apply in_or_app. now left. }
    rewrite (set_fresh _ _ _ Hfresh), IH.
    + now rewrite <- app_assoc.
    + unfold keys. rewrite map_app. simpl. rewrite <- app_assoc. exact Hnd.
Qed.

Variable key : B -> string.
Variable upd : B -> V -> V.

Lemma modify_map (o : JsObject.t V) k0 f :
  NoDup (keys o) ->
  modify o k0 f
  = map (fun e => (fst e, if String.eqb k0 (fst e) then f (snd e) else snd e)) o.
Proof.
  induction o as [|[k v] o IH]; simpl; intros Hnd; [reflexivity|].
  inversion Hnd as [|? ? Hnot Hnd']; subst.
  destruct (String.eqb k0 k) eqn:E.
  - apply String.eqb_eq in E. subst k0. f_equal.
    clear IH Hnd Hnd'. induction o as [|[k' v'] o IH]; simpl; [reflexivity|].
    simpl in Hnot.
    destruct (String.eqb k k') eqn:E'.
    + apply String.eqb_eq in E'. subst k'. tauto.
    + f_equal. apply IH. tauto.
  - f_equal. now apply IH.
Qed.

Lemma fold_modify (bs : list B) (o : JsObject.t V) :
  NoDup (keys o) ->
  fold_left (fun m b => modify m (key b) (upd b)) bs o
  = map (fun e => (fst e, updatedBy key upd (fst e) bs (snd e))) o.
Proof.
  revert o. induction bs as [|b bs IH]; intros o Hnd; simpl.
  - rewrite <- (map_id o) at 1. apply map_ext. now intros [k v].
  - rewrite IH by (now rewrite keys_modify).
    rewrite modify_map by assumption. rewrite map_map.
    apply map_ext. intros [k v]. reflexivity.
Qed.
End FillAndUpdate.

(** *** The monthly series *)

Lemma monthlyStep_modify tz m bug :
  monthlyStep tz m bug
  = JsObject.modify m (toLocaleDateString tz (BugData.created_at bug))
      (monthlyUpd bug).
Proof.
  unfold monthlyStep, monthlyUpd. cbv zeta.
  destruct (JsObject.truthy m (toLocaleDateString tz (BugData.created_at bug)))
    eqn:T.
  - destruct (includes acceptedStatuses (BugData.status bug));
      now rewrite !JsObjectFacts.modify_modify.
  - unfold JsObject.truthy in T.
    destruct (JsObject.get m (toLocaleDateString tz (BugData.created_at bug)))
      eqn:G; [discriminate|].
    symmetry. now apply JsObjectFacts.modify_absent.
Qed.

(** A month label starts with a letter: it is not an array index. *)
Lemma monthLabel_not_index m y : JsObject.arrayIndex (monthLabel m y) = None.
Proof.
  unfold monthLabel, monthShort.
  destruct m as [|p|p]; [reflexivity| |reflexivity].
  do 4 (try destruct p as [p|p|]); reflexivity.
Qed.

Lemma NoDup_map_on {X Y : Type} (f : X -> Y) (l : list X) :
  (forall x x', In x l -> In x' l -> f x = f x' -> x = x') ->
  NoDup l -> NoDup (map f l).
Proof.
  intros Hinj Hnd. induction Hnd as [|x l Hnot Hnd IH]; simpl; constructor.
  - intros Hin. apply in_map_iff in Hin. destruct Hin as [x' [Hf Hx']].
    assert (x' = x) by (apply Hinj; simpl; auto). now subst.
  - apply IH. intros a b Ha Hb. apply Hinj; simpl; auto.
Qed.

Lemma monthOffsets_In i : In i monthOffsets <-> 0 <= i <= 11.
Proof. unfold monthOffsets. simpl. lia. Qed.

Lemma monthOffsets_NoDup : NoDup monthOffsets.
Proof.
  unfold monthOffsets.
  repeat (constructor; [simpl; intros H; lia|]). constructor.
Qed.

(** The label of the bucket created at offset [i]. *)
Lemma bucketLabels_NoDup Y M :
  NoDup (map (fun i => monthLabel ((M - i) mod 12) (Y + (M - i) / 12))
           monthOffsets).
Proof.
  apply NoDup_map_on; [|apply monthOffsets_NoDup].
  intros i j Hi Hj H. apply monthOffsets_In in Hi, Hj.
  apply String.eqb_eq in H.
  pose proof (Z.mod_pos_bound (M - i) 12 eq_refl).
  pose proof (Z.mod_pos_bound (M - j) 12 eq_refl).
  rewrite monthLabel_eqb in H by lia.
  apply andb_true_iff in H. destruct H as [H _]. apply Z.eqb_eq in H.
  Z.div_mod_to_equations. lia.
Qed.

Lemma monthlyMap_init tz now :
  fold_left (initMonth tz now) monthOffsets JsObject.empty
  = map (fun i =>
           let key := monthLabel ((getMonth tz now - i) mod 12)
                        (getFullYear tz now + (getMonth tz now - i) / 12) in
           (key, {| MonthlyData.month := key; MonthlyData.earnings := 0%Q;
                    MonthlyData.submissions := 0%nat;
                    MonthlyData.accepted := 0%nat |}))
      monthOffsets.
Proof.
  rewrite (fold_left_ext _
             (fun m i =>
                JsObject.set m
                  (monthLabel ((getMonth tz now - i) mod 12)
                     (getFullYear tz now + (getMonth tz now - i) / 12))
                  (let key := monthLabel ((getMonth tz now - i) mod 12)
                                (getFullYear tz now + (getMonth tz now - i) / 12) in
                   {| MonthlyData.month := key; MonthlyData.earnings := 0%Q;
                      MonthlyData.submissions := 0%nat;
                      MonthlyData.accepted := 0%nat |}))).
  - rewrite fold_set_fresh; [reflexivity|].
    apply bucketLabels_NoDup.
  - intros m i. unfold initMonth. cbv zeta.
    now rewrite toLocaleDateString_newDate.
Qed.

Section MonthlyBucket.
Variable key : BugData.t -> string.
Variable k : string.

Local Abbreviation after bs d := (updatedBy key monthlyUpd k bs d).
Local Abbreviation mine := (fun b : BugData.t => String.eqb (key b) k).

Lemma bucket_month bs d : MonthlyData.month (after bs d) = MonthlyData.month d.
Proof.
  revert d. induction bs as [|b bs IH]; intros d; [reflexivity|].
  unfold updatedBy in *. simpl. rewrite IH.
  destruct (String.eqb (key b) k); [|reflexivity].
  unfold monthlyUpd. now destruct (includes acceptedStatuses (BugData.status b)).
Qed.

Lemma bucket_submissions bs d :
  MonthlyData.submissions (after bs d)
  = (MonthlyData.submissions d + countRecords mine bs)%nat.
Proof.
  revert d. induction bs as [|b bs IH]; intros d; [simpl; lia|].
  unfold updatedBy in *. simpl. rewrite IH.
  destruct (String.eqb (key b) k); [|lia].
  unfold monthlyUpd.
  destruct (includes acceptedStatuses (BugData.status b)); simpl; lia.
Qed.

Lemma bucket_accepted bs d :
  MonthlyData.accepted (after bs d)
  = (MonthlyData.accepted d
     + countRecords (fun b => mine b && statusIn acceptedStatuses b) bs)%nat.
Proof.
  revert d. induction bs as [|b bs IH]; intros d; [simpl; lia|].
  unfold updatedBy in *. simpl. rewrite IH, statusIn_includes.
  destruct (String.eqb (key b) k); [|simpl; lia].
  unfold monthlyUpd.
  destruct (includes acceptedStatuses (BugData.status b)); simpl; lia.
Qed.

Lemma bucket_earnings bs d :
  (MonthlyData.earnings (after bs d)
   == MonthlyData.earnings d + totalBounty (filter mine bs))%Q.
Proof.
  revert d. induction bs as [|b bs IH]; intros d; [simpl; ring|].
  unfold updatedBy in *. simpl. rewrite IH.
  destruct (String.eqb (key b) k); [|reflexivity].
  unfold monthlyUpd.
  destruct (includes acceptedStatuses (BugData.status b)); simpl;
    unfold amountOrZero; ring.
Qed.
End MonthlyBucket.

Lemma Forall2_map_same {X Y Z' : Type} (R : Y -> Z' -> Prop)
  (f : X -> Y) (g : X -> Z') (l : list X) :
  (forall x, In x l -> R (f x) (g x)) -> Forall2 R (map f l) (map g l).
Proof.
  induction l as [|x l IH]; intros H; simpl; constructor.
  - apply H. now left.
  - apply IH. intros y Hy. apply H. now right.
Qed.

Lemma totalBounty_ext p q bugs :
  (forall b, p b = q b) -> totalBounty (filter p bugs) = totalBounty (filter q bugs).
Proof. intros H. now rewrite (filter_ext p q H). Qed.

(** The series is, bucket by bucket, what the pass leaves under the
    bucket's label. *)
Lemma calculateMonthlyData_buckets tz now bugs :
  calculateMonthlyData tz now bugs
  = map (fun i =>
           updatedBy (fun b => toLocaleDateString tz (BugData.created_at b))
             monthlyUpd
             (monthLabel ((getMonth tz now - i) mod 12)
                (getFullYear tz now + (getMonth tz now - i) / 12))
             bugs
             {| MonthlyData.month :=
                  monthLabel ((getMonth tz now - i) mod 12)
                    (getFullYear tz now + (getMonth tz now - i) / 12);
                MonthlyData.earnings := 0%Q;
                MonthlyData.submissions := 0%nat;
                MonthlyData.accepted := 0%nat |})
      monthOffsets.
Proof.
  unfold calculateMonthlyData. cbv zeta.
  rewrite monthlyMap_init.
  rewrite (fold_left_ext _ _ _ _ (monthlyStep_modify tz)).
  rewrite (fold_modify (fun b => toLocaleDateString tz (BugData.created_at b))
             monthlyUpd).
  - unfold JsObject.values, JsObject.entries.
    rewrite enumerate_named.
    + rewrite !map_map. reflexivity.
    + rewrite !Forall_map. apply Forall_forall. intros i _.
      apply monthLabel_not_index.
  - unfold JsObject.keys. rewrite map_map. apply bucketLabels_NoDup.
Qed.

Lemma nth_last_of_twelve {T : Type} (f : Z -> T) (d : T) :
  nth 11 (map f [11; 10; 9; 8; 7; 6; 5; 4; 3; 2; 1; 0]) d = f 0.
Proof. reflexivity. Qed.

(** *** Summary statistics *)

Lemma accepted_not_rejected s :
  includes acceptedStatuses s = true -> includes rejectedStatuses s = false.
Proof.
  intros H. apply includes_In in H. simpl in H.
  destruct H as [<-|[<-|[<-|[]]]]; reflexivity.
Qed.

Lemma length_filter_or {X : Type} (p q : X -> bool) l :
  (forall x, p x = true -> q x = false) ->
  List.length (filter (fun x => p x || q x) l) =
  (List.length (filter p l) + List.length (filter q l))%nat.
Proof.
  intros H. induction l as [|x l IH]; simpl; [reflexivity|].
  destruct (p x) eqn:P; simpl.
  - rewrite (H x P). simpl. now rewrite IH.
  - destruct (q x); simpl; rewrite IH; lia.
Qed.

Lemma num_nonneg a : (0 <= num a)%Q.
Proof. unfold num. rewrite <- (Zle_Qle 0). lia. Qed.

Lemma num_pos a : (0 < a)%nat -> (0 < num a)%Q.
Proof. unfold num. intros H. rewrite <- (Zlt_Qlt 0). lia. Qed.

Lemma num_le a b : (a <= b)%nat -> (num a <= num b)%Q.
Proof. unfold num. intros H. rewrite <- Zle_Qle. lia. Qed.

(** A share of a positive whole, as a percentage, lies in 0..100. *)
Lemma percentage_range a n :
  (a <= n)%nat -> (0 < n)%nat ->
  (0 <= num a / num n * 100 /\ num a / num n * 100 <= 100)%Q.
Proof.
  intros Hle Hpos. pose proof (num_pos n Hpos) as Hn. split.
  - apply Qmult_le_0_compat; [|discriminate].
    apply Qle_shift_div_l; [assumption|].
    rewrite Qmult_0_l. apply num_nonneg.
  - setoid_replace (100 : Q)%Q with (1 * 100)%Q at 2 by reflexivity.
    apply Qmult_le_compat_r; [|discriminate].
    apply Qle_shift_div_r; [assumption|].
    rewrite Qmult_1_l. now apply num_le.
Qed.

Lemma Math_ceil_div_ceilDays s r :
  Math_ceil_div (r - s) msPerDay = ceilDays s r.
Proof.
  unfold Math_ceil_div, ceilDays, msPerDay. simpl Z.mul.
  Z.div_mod_to_equations. lia.
Qed.

Lemma ceilDays_is_ceiling s r :
  (ceilDays s r - 1) * msPerDay < r - s <= ceilDays s r * msPerDay.
Proof.
  unfold ceilDays, msPerDay. simpl Z.mul. Z.div_mod_to_equations. lia.
Qed.

Lemma resolutionTimes_length bugs :
  List.length (resolutionTimes bugs) =
  List.length (filter (fun bug => present (BugData.submission_date bug)
                                  && present (BugData.resolution_date bug)) bugs).
Proof.
  induction bugs as [|b l IH]; simpl; [reflexivity|].
  destruct (BugData.submission_date b), (BugData.resolution_date b);
    simpl; now rewrite IH.
Qed.

Lemma totalDays_acc bugs acc :
  fold_left (fun sum bug => sum + resolutionDays bug)
    (filter (fun bug => present (BugData.submission_date bug)
                        && present (BugData.resolution_date bug)) bugs) acc
  = acc + sumZ (resolutionTimes bugs).
Proof.
  revert acc. induction bugs as [|b l IH]; intros acc; simpl; [lia|].
  unfold resolutionDays at 1.
  destruct (BugData.submission_date b) as [s|] eqn:Es,
           (BugData.resolution_date b) as [r|] eqn:Er; simpl; rewrite ?IH; try lia.
  unfold resolutionDays. rewrite Es, Er. simpl.
  rewrite Math_ceil_div_ceilDays. lia.
Qed.

(** *** The calendar buckets of the summary statistics *)

Lemma lastMonthEnd_eq tz now :
  lastMonthEnd tz now = thisMonthStart tz now - msPerDay.
Proof. unfold lastMonthEnd, thisMonthStart, newDate. rewrite MakeDay_zeroth. lia. Qed.

Lemma lastYearEnd_eq tz now :
  lastYearEnd tz now = thisYearStart tz now - msPerDay.
Proof. unfold lastYearEnd, thisYearStart, newDate. rewrite MakeDay_dec31. lia. Qed.

Lemma lastMonthStart_lt tz now : lastMonthStart tz now < thisMonthStart tz now.
Proof.
  unfold lastMonthStart, thisMonthStart, newDate.
  pose proof (MakeDay_next_month (getFullYear tz now) (getMonth tz now)).
  unfold msPerDay. lia.
Qed.

Lemma lastYearStart_lt tz now : lastYearStart tz now < thisYearStart tz now.
Proof.
  unfold lastYearStart, thisYearStart, newDate.
  pose proof (MakeDay_january (getFullYear tz now)).
  unfold msPerDay. lia.
Qed.

Lemma inLastMonth_within tz now date :
  inLastMonth tz now date = true ->
  lastMonthStart tz now <= date < thisMonthStart tz now.
Proof.
  unfold inLastMonth. intros H. apply andb_true_iff in H.
  destruct H as [H1 H2]. apply Z.leb_le in H1, H2.
  rewrite lastMonthEnd_eq in H2. assert (0 < msPerDay) by reflexivity. lia.
Qed.

Lemma inLastMonth_covers tz now date :
  lastMonthStart tz now <= date <= thisMonthStart tz now - msPerDay ->
  inLastMonth tz now date = true.
Proof.
  intros H. unfold inLastMonth. rewrite lastMonthEnd_eq.
  apply andb_true_iff. split; apply Z.leb_le; lia.
Qed.

Lemma inLastYear_within tz now date :
  inLastYear tz now date = true ->
  lastYearStart tz now <= date < thisYearStart tz now.
Proof.
  unfold inLastYear. intros H. apply andb_true_iff in H.
  destruct H as [H1 H2]. apply Z.leb_le in H1, H2.
  rewrite lastYearEnd_eq in H2. assert (0 < msPerDay) by reflexivity. lia.
Qed.

Lemma inLastYear_covers tz now date :
  lastYearStart tz now <= date <= thisYearStart tz now - msPerDay ->
  inLastYear tz now date = true.
Proof.
  intros H. unfold inLastYear. rewrite lastYearEnd_eq.
  apply andb_true_iff. split; apply Z.leb_le; lia.
Qed.

Lemma thisMonthStart_civil tz now :
  getFullYear tz (thisMonthStart tz now) = getFullYear tz now
  /\ getMonth tz (thisMonthStart tz now) = getMonth tz now
  /\ getDate tz (thisMonthStart tz now) = 1.
Proof.
  pose proof (getMonth_range tz now) as HM. unfold thisMonthStart.
  rewrite getFullYear_newDate, getMonth_newDate, getDate_newDate.
  rewrite (Z.mod_small (getMonth tz now) 12), (Z.div_small (getMonth tz now) 12)
    by lia.
  split; [lia|]. split; reflexivity.
Qed.

Lemma lastMonthStart_civil tz now :
  getFullYear tz (lastMonthStart tz now) * 12
  + getMonth tz (lastMonthStart tz now)
  = getFullYear tz now * 12 + getMonth tz now - 1
  /\ getDate tz (lastMonthStart tz now) = 1
  /\ lastMonthStart tz now < thisMonthStart tz now.
Proof.
  split; [|split; [|apply lastMonthStart_lt]]; unfold lastMonthStart.
  - rewrite getFullYear_newDate, getMonth_newDate.
    pose proof (Z.div_mod (getMonth tz now - 1) 12 ltac:(lia)). lia.
  - apply getDate_newDate.
Qed.

Lemma thisYearStart_civil tz now :
  getFullYear tz (thisYearStart tz now) = getFullYear tz now
  /\ getMonth tz (thisYearStart tz now) = 0
  /\ getDate tz (thisYearStart tz now) = 1.
Proof.
  unfold thisYearStart.
  rewrite getFullYear_newDate, getMonth_newDate, getDate_newDate.
  change (0 / 12) with 0. change (0 mod 12) with 0.
  split; [lia|]. split; reflexivity.
Qed.

Lemma lastYearStart_civil tz now :
  getFullYear tz (lastYearStart tz now) = getFullYear tz now - 1
  /\ getMonth tz (lastYearStart tz now) = 0
  /\ getDate tz (lastYearStart tz now) = 1
  /\ lastYearStart tz now < thisYearStart tz now.
Proof.
  split; [|split; [|split; [|apply lastYearStart_lt]]]; unfold lastYearStart.
  - rewrite getFullYear_newDate. change (0 / 12) with 0. lia.
  - now rewrite getMonth_newDate.
  - apply getDate_newDate.
Qed.

(** The four calendar sums read the unfiltered collection only. *)
Lemma calendar_sums_ignore_filter tz now filteredBugs filteredBugs' allBugs :
  AnalyticsStats.thisMonthEarnings (calculateStats tz now filteredBugs' allBugs)
  = AnalyticsStats.thisMonthEarnings (calculateStats tz now filteredBugs allBugs)
  /\ AnalyticsStats.lastMonthEarnings (calculateStats tz now filteredBugs' allBugs)
     = AnalyticsStats.lastMonthEarnings (calculateStats tz now filteredBugs allBugs)
  /\ AnalyticsStats.thisYearEarnings (calculateStats tz now filteredBugs' allBugs)
     = AnalyticsStats.thisYearEarnings (calculateStats tz now filteredBugs allBugs)
  /\ AnalyticsStats.lastYearEarnings (calculateStats tz now filteredBugs' allBugs)
     = AnalyticsStats.lastYearEarnings (calculateStats tz now filteredBugs allBugs).
Proof.
  unfold calculateStats.
  cbn [AnalyticsStats.thisMonthEarnings AnalyticsStats.lastMonthEarnings
       AnalyticsStats.thisYearEarnings AnalyticsStats.lastYearEarnings].
  split; [reflexivity|]. split; [reflexivity|]. split; reflexivity.
Qed.

Lemma lastMonthEarnings_bucket tz now filteredBugs allBugs :
  (AnalyticsStats.lastMonthEarnings (calculateStats tz now filteredBugs allBugs)
   == totalBounty (filter (fun b => inLastMonth tz now (BugData.created_at b))
                     allBugs))%Q.
Proof.
  unfold calculateStats, inLastMonth. cbn [AnalyticsStats.lastMonthEarnings].
  apply sumBounty_total.
Qed.

Lemma lastYearEarnings_bucket tz now filteredBugs allBugs :
  (AnalyticsStats.lastYearEarnings (calculateStats tz now filteredBugs allBugs)
   == totalBounty (filter (fun b => inLastYear tz now (BugData.created_at b))
                     allBugs))%Q.
Proof.
  unfold calculateStats, inLastYear. cbn [AnalyticsStats.lastYearEarnings].
  apply sumBounty_total.
Qed.

Lemma filter_rows {R E : Type} (row : string * E -> R) (name : R -> string)
  (p : R -> bool) (q : string -> bool) (o : list (string * E)) :
  (forall e, name (row e) = fst e) ->
  (forall e, In e o -> p (row e) = q (fst e)) ->
  map name (filter p (map row o)) = filter q (map fst o).
Proof.
  intros Hn Hpq. induction o as [|e o IH]; simpl; [reflexivity|].
  rewrite (Hpq e (or_introl eq_refl)).
  destruct (q (fst e)); simpl; rewrite IH; auto using in_cons.
  now rewrite Hn.
Qed.

(** *** The rollups as a whole *)

(** The platform rollup over the records that get a group (those whose
    platform name is not an inherited property name): the group names are
    pairwise distinct and cover these records, each group counts the
    records of its name, the counts add up to their number, the amounts to
    their total amount, and no group is empty. *)
Lemma platform_rollup_of_grouped (bugs : list BugData.t) :
  let out := calculatePlatformData bugs in
  sumNat (map PlatformData.bugs out) = List.length (grouped platformName bugs)
  /\ Forall (fun g => (1 <= PlatformData.bugs g)%nat) out
  /\ NoDup (map PlatformData.name out)
  /\ Forall (fun bug => In (platformName bug) (map PlatformData.name out))
       (grouped platformName bugs)
  /\ Forall (fun g =>
       PlatformData.bugs g =
       countRecords
         (fun bug => String.eqb (platformName bug) (PlatformData.name g)) bugs)
       out
  /\ (sumQ (map PlatformData.earnings out)
      == totalBounty (grouped platformName bugs))%Q.
Proof.
  intros out.
  assert (Hperm : Permutation out (platformRows bugs)) by apply platformData_perm.
  assert (Hnames : Permutation (map PlatformData.name out)
                     (firstSeen (map platformName (grouped platformName bugs)))).
  { rewrite (Permutation_map PlatformData.name Hperm), platformRows_names.
    apply enumerate_perm. }
  assert (Hrows : Permutation (platformRows bugs)
                    (map platformEntry
                       (fold_left
                          (groupStep platformName (fun _ => newPlatformAcc)
                             platformUpd)
                          (grouped platformName bugs) JsObject.empty))).
  { unfold platformRows, JsObject.entries. rewrite platformMap_run.
    apply Permutation_map, enumerate_perm. }
  split; [|split; [|split; [|split; [|split]]]].
  - rewrite (sumNat_perm _ _ (Permutation_map PlatformData.bugs
                                (Permutation_trans Hperm Hrows))).
    rewrite map_map, <- (sumNat_ones (grouped platformName bugs)).
    rewrite (map_ext _ (fun e => PlatformAcc.bugs (snd e)))
      by (now intros [k a]).
    apply (total_run platformName (fun _ => newPlatformAcc) platformUpd
             PlatformAcc.bugs (fun _ => 1%nat) (fun _ => eq_refl)
             platformUpd_bugs).
  - apply Forall_forall. intros g Hg.
    apply (Permutation_in _ Hperm) in Hg.
    destruct (platformRows_group bugs g Hg) as [Hne [Hc _]].
    rewrite Hc.
    destruct (filter _ bugs); [congruence | simpl; lia].
  - apply (Permutation_NoDup (Permutation_sym Hnames)), firstSeen_NoDup.
  - apply Forall_forall. intros bug Hb.
    apply (Permutation_in _ (Permutation_sym Hnames)).
    apply firstSeen_In, in_map, Hb.
  - apply Forall_forall. intros g Hg.
    apply (Permutation_in _ Hperm) in Hg.
    destruct (platformRows_group bugs g Hg) as [_ [Hc _]].
    now rewrite countRecords_filter.
  - rewrite (sumQ_perm _ _ (Permutation_map PlatformData.earnings
                              (Permutation_trans Hperm Hrows))).
    rewrite map_map, <- sumQ_amounts.
    rewrite (map_ext _ (fun e => PlatformAcc.earnings (snd e)))
      by (now intros [k a]).
    apply (amount_run platformName (fun _ => newPlatformAcc) platformUpd
             PlatformAcc.earnings amountOrZero (fun _ => Qeq_refl _)
             platformUpd_earnings).
Qed.

(** *** Binary64 numbers: the sign of a difference *)

Lemma positive_spec x : Binary64.positive x = SFpositive (Prim2SF x).
Proof. unfold Binary64.positive, SFpositive. now rewrite ltb_spec. Qed.

Lemma binary_round_aux_negative mx ex lx :
  SFpositive (binary_round_aux prec emax true mx ex lx) = false.
Proof.
  unfold binary_round_aux.
  destruct (shr_fexp prec emax mx ex lx) as [mrs' e'].
  destruct (shr_fexp prec emax
              (round_nearest_even (shr_m mrs') (loc_of_shr_record mrs')) e'
              loc_Exact) as [mrs'' e''].
  destruct (shr_m mrs''); [reflexivity| |reflexivity].
  destruct (e'' <=? emax - prec); reflexivity.
Qed.

Lemma binary_round_negative mx ex :
  SFpositive (binary_round prec emax true mx ex) = false.
Proof.
  unfold binary_round.
  destruct (shl_align mx ex (fexp prec emax (Z.pos (digits2_pos mx) + ex)))
    as [mz ez].
  apply binary_round_aux_negative.
Qed.

Lemma binary_normalize_positive m e szero :
  SFpositive (binary_normalize prec emax m e szero) = true -> 0 < m.
Proof.
  destruct m as [|p|p]; cbn [binary_normalize].
  - destruct szero; discriminate.
  - lia.
  - now rewrite binary_round_negative.
Qed.

Lemma binary_normalize_not_positive m e szero :
  m <= 0 -> SFpositive (binary_normalize prec emax m e szero) = false.
Proof.
  intros H. destruct (SFpositive (binary_normalize prec emax m e szero)) eqn:E;
    [|reflexivity].
  apply binary_normalize_positive in E. lia.
Qed.

(** When [a - b] is positive, [b - a] is not. *)
Lemma SFsub_asymmetric a b :
  SFpositive (SF64sub a b) = true -> SFpositive (SF64sub b a) = false.
Proof.
  unfold SF64sub.
  destruct a as [sa|sa| |sa ma ea], b as [sb|sb| |sb mb eb];
    try (destruct sa, sb; cbn; congruence);
    try (destruct sa; cbn; congruence);
    try (destruct sb; cbn; congruence);
    try (cbn; congruence).
  cbn [SFsub]. cbv zeta. intros H.
  apply binary_normalize_positive in H.
  apply binary_normalize_not_positive.
  rewrite (Z.min_comm eb ea). lia.
Qed.

Lemma SFeqb_finite s1 m1 e1 s2 m2 e2 :
  SFeqb (S754_finite s1 m1 e1) (S754_finite s2 m2 e2) = true ->
  s1 = s2 /\ m1 = m2 /\ e1 = e2.
Proof.
  unfold SFeqb, SFcompare.
  destruct s1, s2; try discriminate;
    destruct (Z.compare_spec e1 e2) as [E|E|E]; try discriminate;
    change (PosDef.Pos.compare_cont Eq m1 m2) with (Pos.compare m1 m2);
    destruct (Pos.compare_spec m1 m2) as [C|C|C]; cbn; try discriminate;
    intros _; subst; repeat split.
Qed.

(** Two numbers equal to a third have a difference that is not positive. *)
Lemma SFsub_tied a b e :
  SFeqb a e = true -> SFeqb b e = true -> SFpositive (SF64sub b a) = false.
Proof.
  destruct e as [se|se| |se me ee].
  - destruct a as [sa|sa| |sa ma ea]; try (destruct sa; discriminate);
      try discriminate.
    destruct b as [sb|sb| |sb mb eb]; try (destruct sb; discriminate);
      try discriminate.
    destruct sa, sb; reflexivity.
  - destruct a as [sa|sa| |sa ma ea]; try (destruct se; discriminate);
      try (destruct sa, se; discriminate); try discriminate.
    destruct b as [sb|sb| |sb mb eb]; try (destruct se; discriminate);
      try (destruct sb, se; discriminate); try discriminate.
    destruct sa, sb, se; try discriminate; reflexivity.
  - destruct a; discriminate.
  - destruct a as [sa|sa| |sa ma ea]; try (destruct se; discriminate);
      try (destruct sa, se; discriminate); try discriminate.
    destruct b as [sb|sb| |sb mb eb]; try (destruct se; discriminate);
      try (destruct sb, se; discriminate); try discriminate.
    intros Ha Hb.
    apply SFeqb_finite in Ha as (-> & -> & ->).
    apply SFeqb_finite in Hb as (-> & -> & ->).
    unfold SF64sub. cbn [SFsub]. cbv zeta.
    rewrite Z.sub_diag. reflexivity.
Qed.

Lemma positive_sub_asymmetric a b :
  Binary64.positive (a - b) = true -> Binary64.positive (b - a) = false.
Proof. rewrite !positive_spec, !sub_spec. apply SFsub_asymmetric. Qed.

Lemma positive_sub_tied a b e :
  (a =? e)%float = true -> (b =? e)%float = true ->
  Binary64.positive (b - a) = false.
Proof. rewrite !eqb_spec, positive_spec, sub_spec. apply SFsub_tied. Qed.

(** The number of binary digits of a significand. *)
Lemma digits2_pos_bounds m :
  2 ^ (Z.pos (digits2_pos m) - 1) <= Z.pos m < 2 ^ Z.pos (digits2_pos m).
Proof.
  induction m as [m IH|m IH|]; cbn [digits2_pos].
  - rewrite Pos2Z.inj_succ. change (Z.pos m~1) with (2 * Z.pos m + 1).
    replace (Z.succ (Z.pos (digits2_pos m)) - 1)
      with (Z.succ (Z.pos (digits2_pos m) - 1)) by lia.
    rewrite !Z.pow_succ_r by lia.
    revert IH. generalize (2 ^ (Z.pos (digits2_pos m) - 1)).
    generalize (2 ^ Z.pos (digits2_pos m)). intros hi lo IH. lia.
  - rewrite Pos2Z.inj_succ. change (Z.pos m~0) with (2 * Z.pos m).
    replace (Z.succ (Z.pos (digits2_pos m)) - 1)
      with (Z.succ (Z.pos (digits2_pos m) - 1)) by lia.
    rewrite !Z.pow_succ_r by lia.
    revert IH. generalize (2 ^ (Z.pos (digits2_pos m) - 1)).
    generalize (2 ^ Z.pos (digits2_pos m)). intros hi lo IH. lia.
  - cbn. lia.
Qed.

Lemma shr_1_m mrs : 0 <= shr_m mrs -> shr_m (shr_1 mrs) = shr_m mrs / 2.
Proof.
  destruct mrs as [m r s]. cbn [shr_m]. intros H.
  destruct m as [|p|p]; [reflexivity| |lia].
  destruct p as [p|p|]; cbn [shr_1 shr_m].
  - change (Z.pos p~1) with (2 * Z.pos p + 1).
    apply Z.div_unique with (r := 1); lia.
  - change (Z.pos p~0) with (2 * Z.pos p).
    apply Z.div_unique with (r := 0); lia.
  - reflexivity.
Qed.

Lemma shr_iter_m p mrs :
  0 <= shr_m mrs -> shr_m (iter_pos shr_1 p mrs) = shr_m mrs / 2 ^ Z.pos p.
Proof.
  revert mrs. induction p as [p IH|p IH|]; intros mrs H; cbn [iter_pos].
  - assert (H1 : 0 <= shr_m (shr_1 mrs))
      by (rewrite shr_1_m by assumption; apply Z.div_pos; lia).
    assert (H2 : 0 <= shr_m (iter_pos shr_1 p (shr_1 mrs)))
      by (rewrite IH by assumption; apply Z.div_pos; lia).
    rewrite IH, IH, shr_1_m by assumption.
    rewrite !Z.div_div by lia. f_equal.
    change (Z.pos p~1) with (2 * Z.pos p + 1).
    replace (2 * Z.pos p + 1) with (1 + Z.pos p + Z.pos p) by lia.
    rewrite !Z.pow_add_r by lia. lia.
  - assert (H2 : 0 <= shr_m (iter_pos shr_1 p mrs))
      by (rewrite IH by assumption; apply Z.div_pos; lia).
    rewrite IH, IH by assumption.
    rewrite !Z.div_div by lia. f_equal.
    change (Z.pos p~0) with (2 * Z.pos p).
    replace (2 * Z.pos p) with (Z.pos p + Z.pos p) by lia.
    rewrite !Z.pow_add_r by lia. lia.
  - rewrite shr_1_m by assumption. reflexivity.
Qed.

Lemma shr_record_of_loc_m m l : shr_m (shr_record_of_loc m l) = m.
Proof. destruct l as [|[ | | ]]; reflexivity. Qed.

(** Rounding a positive significand at an exponent of the format leaves a
    positive significand: a positive number is not rounded to zero. *)
Lemma shr_fexp_positive m e l :
  0 < m -> -1074 <= e ->
  0 < shr_m (fst (shr_fexp prec emax m e l))
  /\ -1074 <= snd (shr_fexp prec emax m e l).
Proof.
  intros Hm He. unfold shr_fexp, shr, fexp, SpecFloat.emin, prec, emax.
  destruct m as [|p|p]; try lia. cbn [Zdigits2].
  pose proof (digits2_pos_bounds p) as Hd.
  set (d := Z.pos (digits2_pos p)) in *.
  destruct (Z.max (d + e - 53) (3 - 1024 - 53) - e) as [|n|n] eqn:En;
    cbn [fst snd]; rewrite ?shr_record_of_loc_m; try lia.
  rewrite shr_iter_m by (rewrite shr_record_of_loc_m; lia).
  rewrite shr_record_of_loc_m.
  assert (Hn : Z.pos n = d - 53) by lia.
  split; [|lia].
  apply Z.div_str_pos. split; [lia|].
  apply Z.le_trans with (2 ^ (d - 1)); [|lia].
  apply Z.pow_le_mono_r; lia.
Qed.

Lemma round_nearest_even_ge m l : m <= round_nearest_even m l.
Proof.
  destruct l as [|[ | | ]]; cbn [round_nearest_even]; try lia.
  destruct (Z.even m); lia.
Qed.

Lemma binary_round_aux_positive m e l :
  0 < m -> -1074 <= e ->
  SFpositive (binary_round_aux prec emax false m e l) = true.
Proof.
  intros Hm He. unfold binary_round_aux.
  destruct (shr_fexp_positive m e l Hm He) as [H1 H2].
  destruct (shr_fexp prec emax m e l) as [mrs' e']. cbn [fst snd] in H1, H2.
  pose proof (round_nearest_even_ge (shr_m mrs') (loc_of_shr_record mrs')) as Hr.
  destruct (shr_fexp_positive
              (round_nearest_even (shr_m mrs') (loc_of_shr_record mrs'))
              e' loc_Exact ltac:(lia) H2) as [H3 _].
  destruct (shr_fexp prec emax
              (round_nearest_even (shr_m mrs') (loc_of_shr_record mrs'))
              e' loc_Exact) as [mrs'' e'']. cbn [fst] in H3.
  destruct (shr_m mrs'') as [|p|p]; try lia.
  destruct (e'' <=? emax - prec); reflexivity.
Qed.

Lemma binary_round_positive m e :
  -1074 <= e -> SFpositive (binary_round prec emax false m e) = true.
Proof.
  intros He. unfold binary_round, shl_align.
  set (e' := fexp prec emax (Z.pos (digits2_pos m) + e)).
  assert (He' : -1074 <= e')
    by (subst e'; unfold fexp, SpecFloat.emin, prec, emax; lia).
  destruct (e' - e) as [|n|n]; apply binary_round_aux_positive; lia.
Qed.

Lemma binary_normalize_is_positive m e szero :
  0 < m -> -1074 <= e ->
  SFpositive (binary_normalize prec emax m e szero) = true.
Proof.
  intros Hm He. destruct m as [|p|p]; try lia.
  now apply binary_round_positive.
Qed.

Lemma shl_align_value m e ez :
  ez <= e -> Z.pos (fst (shl_align m e ez)) = Z.pos m * 2 ^ (e - ez).
Proof.
  intros H. unfold shl_align.
  destruct (ez - e) as [|n|n] eqn:E; cbn [fst]; try lia.
  - replace (e - ez) with 0 by lia. lia.
  - replace (e - ez) with (Z.pos n) by lia.
    change (Pos.iter xO m n) with (shift_pos n m).
    rewrite shift_pos_correct. rewrite Zpower_pos_nat, Zpower_nat_Z,
      positive_nat_Z. lia.
Qed.

(** The significand and the exponent of a finite number of the format. *)
Lemma bounded_canonical m e :
  bounded prec emax m e = true ->
  -1074 <= e /\ Z.pos m < 2 ^ 53 /\ (-1074 < e -> 2 ^ 52 <= Z.pos m).
Proof.
  unfold bounded, canonical_mantissa, fexp, SpecFloat.emin, prec, emax.
  intros H. apply andb_prop in H. destruct H as [H _].
  apply Z.eqb_eq in H.
  pose proof (digits2_pos_bounds m) as Hd.
  set (d := Z.pos (digits2_pos m)) in *.
  assert (Hd53 : d <= 53) by lia.
  split; [lia|]. split.
  - apply Z.lt_le_trans with (2 ^ d); [lia|]. apply Z.pow_le_mono_r; lia.
  - intros He. assert (d = 53) by lia.
    replace 52 with (d - 1) by lia. lia.
Qed.

(** When [a] is less than [b], the difference [b - a] is positive: it is
    not rounded to zero. *)
Lemma SFltb_sub a b :
  valid_binary a = true -> valid_binary b = true ->
  SFltb a b = true -> SFpositive (SF64sub b a) = true.
Proof.
  unfold SF64sub.
  destruct a as [sa|sa| |sa ma ea], b as [sb|sb| |sb mb eb];
    try (destruct sa, sb; cbn; congruence);
    try (destruct sa; cbn; congruence);
    try (destruct sb; cbn; congruence);
    try (cbn; congruence).
  unfold valid_binary. cbn [SpecFloat.valid_binary SFsub]. cbv zeta.
  intros Va Vb Hlt.
  apply bounded_canonical in Va, Vb.
  destruct Va as (Ha1 & Ha2 & Ha3), Vb as (Hb1 & Hb2 & Hb3).
  apply binary_normalize_is_positive; [|lia].
  rewrite !shl_align_value by lia.
  unfold SFltb, SFcompare in Hlt.
  assert (Hpow : forall x y, x < y -> 2 <= 2 ^ (y - x)).
  { intros x y Hxy. change 2 with (2 ^ 1) at 1. apply Z.pow_le_mono_r; lia. }
  destruct sa, sb; cbn [cond_Zopp]; try discriminate.
  - change (PosDef.Pos.compare_cont Eq ma mb) with (Pos.compare ma mb) in Hlt.
    destruct (Z.compare_spec ea eb) as [E|E|E]; try discriminate.
    + subst eb. rewrite Z.min_id, Z.sub_diag, !Z.mul_1_r.
      destruct (Pos.compare_spec ma mb) as [C|C|C]; try discriminate. lia.
    + rewrite Z.min_l by lia. rewrite Z.sub_diag, Z.mul_1_r.
      pose proof (Hpow eb ea E). nia.
  - pose proof (Z.pow_pos_nonneg 2 (eb - Z.min eb ea) ltac:(lia) ltac:(lia)).
    pose proof (Z.pow_pos_nonneg 2 (ea - Z.min eb ea) ltac:(lia) ltac:(lia)).
    nia.
  - change (PosDef.Pos.compare_cont Eq ma mb) with (Pos.compare ma mb) in Hlt.
    destruct (Z.compare_spec ea eb) as [E|E|E]; try discriminate.
    + subst eb. rewrite Z.min_id, Z.sub_diag, !Z.mul_1_r.
      destruct (Pos.compare_spec ma mb) as [C|C|C]; try discriminate. lia.
    + rewrite Z.min_r by lia. rewrite Z.sub_diag, Z.mul_1_r.
      pose proof (Hpow ea eb E). nia.
Qed.

Lemma ltb_positive_sub x y :
  (x <? y)%float = true -> Binary64.positive (y - x) = true.
Proof.
  rewrite ltb_spec, positive_spec, sub_spec.
  apply SFltb_sub; apply Prim2SF_valid.
Qed.

Lemma not_positive_sub_not_ltb x y :
  Binary64.positive (y - x) = false -> (x <? y)%float = false.
Proof.
  intros H. destruct (x <? y)%float eqn:E; [|reflexivity].
  apply ltb_positive_sub in E. congruence.
Qed.

(** *** The stable sort by decreasing binary64 amount *)

Section SortFacts64.
Context {A : Type}.
Variable f : A -> float.

Local Abbreviation byAmount := (fun a b : A => (f b - f a)%float).
Local Abbreviation sorted := (Binary64.Array_sort byAmount).
Local Abbreviation ins := (Binary64.sort_insert byAmount).
Local Abbreviation notBelow := (fun a b : A => (f a <? f b)%float = false).

Lemma sort_insert64_perm x l : Permutation (ins x l) (x :: l).
Proof.
  induction l as [|y l IH]; simpl; [apply Permutation_refl|].
  destruct (Binary64.positive (f y - f x)); [|apply Permutation_refl].
  rewrite IH. apply perm_swap.
Qed.

Lemma Array_sort64_perm l : Permutation (sorted l) l.
Proof.
  induction l as [|x l IH]; simpl; [constructor|].
  rewrite sort_insert64_perm. now constructor.
Qed.

Lemma sort_insert64_sorted x l :
  Sorted notBelow l -> Sorted notBelow (ins x l).
Proof.
  induction l as [|y l IH]; simpl; intros Hs.
  - repeat constructor.
  - destruct (Binary64.positive (f y - f x)) eqn:E.
    + inversion Hs as [|? ? Hs' Hhd]; subst.
      constructor; [now apply IH|].
      assert (Hyx : (f y <? f x)%float = false)
        by (apply not_positive_sub_not_ltb; now apply positive_sub_asymmetric).
      destruct l as [|z l]; simpl.
      * now constructor.
      * destruct (Binary64.positive (f z - f x)); constructor;
          [now inversion Hhd | assumption].
    + constructor; [assumption|]. constructor.
      now apply not_positive_sub_not_ltb.
Qed.

Lemma Array_sort64_sorted l : Sorted notBelow (sorted l).
Proof.
  induction l as [|x l IH]; simpl; [constructor|].
  now apply sort_insert64_sorted.
Qed.

(** Stability: the rows of one amount keep their relative order. *)
Lemma sort_insert64_stable e x l :
  filter (fun a => (f a =? e)%float) (ins x l) =
  filter (fun a => (f a =? e)%float) (x :: l).
Proof.
  induction l as [|y l IH]; [reflexivity|].
  simpl Binary64.sort_insert.
  destruct (Binary64.positive (f y - f x)) eqn:E; [|reflexivity].
  change (filter (fun a => (f a =? e)%float) (y :: ins x l))
    with (if (f y =? e)%float
          then y :: filter (fun a => (f a =? e)%float) (ins x l)
          else filter (fun a => (f a =? e)%float) (ins x l)).
  rewrite IH. simpl.
  destruct (f y =? e)%float eqn:Ey; [|reflexivity].
  destruct (f x =? e)%float eqn:Ex; [|reflexivity].
  rewrite (positive_sub_tied (f x) (f y) e Ex Ey) in E. discriminate.
Qed.

Lemma Array_sort64_stable e l :
  filter (fun a => (f a =? e)%float) (sorted l) =
  filter (fun a => (f a =? e)%float) l.
Proof.
  induction l as [|x l IH]; [reflexivity|].
  simpl Binary64.Array_sort. rewrite sort_insert64_stable. simpl. now rewrite IH.
Qed.
End SortFacts64.

(** *** One group of the grouping pass: a field that accumulates *)

Section AccumulatorOfGroup.
Context {B A C : Type}.
Variable key : B -> string.
Variable init : B -> A.
Variable upd : B -> A -> A.
Variable k : string.
Variable field : A -> C.
Variable c0 : C.
Variable add : C -> B -> C.
Hypothesis field_init : forall b, field (init b) = c0.
Hypothesis field_upd : forall b a, field (upd b a) = add (field a) b.

Lemma groupAcc_accumulator bs a :
  groupAcc key init upd k bs = Some a ->
  field a = fold_left add (filter (fun b => String.eqb (key b) k) bs) c0.
Proof.
  revert a. induction bs as [|b bs IH] using rev_ind; [discriminate|].
  intros a. rewrite groupAcc_snoc, filter_app, fold_left_app.
  unfold groupWatch. simpl.
  destruct (String.eqb (key b) k).
  - intros H. inversion H; subst a. rewrite field_upd. simpl.
    destruct (groupAcc key init upd k bs) as [a'|] eqn:E.
    + now rewrite (IH a' eq_refl).
    + apply groupAcc_None in E. now rewrite E, field_init.
  - simpl. apply IH.
Qed.
End AccumulatorOfGroup.

(** *** The two rollups on binary64 amounts *)

Lemma platformStep64_dictStep m bug :
  Binary64.platformStep m bug =
  dictStep Binary64.platformName (fun _ => Binary64.newPlatformAcc)
    Binary64.platformUpd m bug.
Proof.
  unfold Binary64.platformStep, dictStep, Binary64.platformUpd.
  destruct (includes resolvedStatuses (Binary64.BugData.status bug));
    [destruct (includes acceptedStatuses (Binary64.BugData.status bug))|];
    now rewrite !JsObjectFacts.modify_modify.
Qed.

Lemma programStep64_dictStep m bug :
  Binary64.programStep m bug =
  dictStep Binary64.programName
    (fun b => Binary64.newProgramAcc (Binary64.companyName b))
    Binary64.programUpd m bug.
Proof.
  unfold Binary64.programStep, dictStep, Binary64.programUpd.
  destruct (includes resolvedStatuses (Binary64.BugData.status bug));
    [destruct (includes acceptedStatuses (Binary64.BugData.status bug))|];
    now rewrite !JsObjectFacts.modify_modify.
Qed.

Lemma platformMap64_run bugs :
  fold_left Binary64.platformStep bugs JsObject.empty =
  fold_left (groupStep Binary64.platformName
               (fun _ => Binary64.newPlatformAcc) Binary64.platformUpd)
    (grouped Binary64.platformName bugs) JsObject.empty.
Proof.
  rewrite (fold_left_ext _ _ _ _ platformStep64_dictStep). apply dictStep_run.
Qed.

Lemma programMap64_run bugs :
  fold_left Binary64.programStep bugs JsObject.empty =
  fold_left (groupStep Binary64.programName
               (fun b => Binary64.newProgramAcc (Binary64.companyName b))
               Binary64.programUpd)
    (grouped Binary64.programName bugs) JsObject.empty.
Proof.
  rewrite (fold_left_ext _ _ _ _ programStep64_dictStep). apply dictStep_run.
Qed.

Lemma platformRows64_names bugs :
  map Binary64.PlatformData.name (Binary64.platformRows bugs)
  = propertyOrder
      (firstSeen (map Binary64.platformName
                    (grouped Binary64.platformName bugs))).
Proof.
  unfold Binary64.platformRows, JsObject.entries, propertyOrder.
  rewrite platformMap64_run.
  rewrite <- keys_run with (init := fun _ => Binary64.newPlatformAcc)
                           (upd := Binary64.platformUpd).
  unfold JsObject.keys. rewrite <- enumerate_names, map_map.
  apply map_ext. now intros [k a].
Qed.

Lemma programRows64_names bugs :
  map Binary64.ProgramData.name (Binary64.programRows bugs)
  = propertyOrder
      (firstSeen (map Binary64.programName
                    (grouped Binary64.programName bugs))).
Proof.
  unfold Binary64.programRows, JsObject.entries, propertyOrder.
  rewrite programMap64_run.
  rewrite <- keys_run
    with (init := fun b => Binary64.newProgramAcc (Binary64.companyName b))
         (upd := Binary64.programUpd).
  unfold JsObject.keys. rewrite <- enumerate_names, map_map.
  apply map_ext. now intros [k a].
Qed.

Lemma platformUpd64_earnings bug a :
  Binary64.PlatformAcc.earnings (Binary64.platformUpd bug a)
  = (Binary64.PlatformAcc.earnings a + Binary64.amountOrZero bug)%float.
Proof.
  unfold Binary64.platformUpd.
  destruct (includes resolvedStatuses (Binary64.BugData.status bug));
    [destruct (includes acceptedStatuses (Binary64.BugData.status bug))|];
    reflexivity.
Qed.

Lemma programUpd64_earnings bug a :
  Binary64.ProgramAcc.earnings (Binary64.programUpd bug a)
  = (Binary64.ProgramAcc.earnings a + Binary64.amountOrZero bug)%float.
Proof.
  unfold Binary64.programUpd.
  destruct (includes resolvedStatuses (Binary64.BugData.status bug));
    [destruct (includes acceptedStatuses (Binary64.BugData.status bug))|];
    reflexivity.
Qed.

(** The earnings of a row of the platform rollup are the amounts of the
    records of its name, added up in binary64 in the order of the
    records. *)
Lemma platformRows64_earnings bugs g :
  In g (Binary64.platformRows bugs) ->
  Binary64.PlatformData.earnings g
  = Binary64.platformEarnings bugs (Binary64.PlatformData.name g).
Proof.
  unfold Binary64.platformRows, JsObject.entries. rewrite platformMap64_run.
  intros H. apply in_map_iff in H. destruct H as [[k a] [<- Hin]].
  apply enumerate_In in Hin.
  pose proof (grouped_ordinary _ _ _ (In_run_key _ _ _ _ _ _ Hin)) as Hk.
  apply In_run in Hin.
  cbn [Binary64.platformEntry Binary64.PlatformData.earnings
       Binary64.PlatformData.name].
  unfold Binary64.platformEarnings, Binary64.sumBounty.
  rewrite <- (grouped_filter Binary64.platformName k bugs Hk).
  exact (groupAcc_accumulator Binary64.platformName
           (fun _ => Binary64.newPlatformAcc) Binary64.platformUpd k
           Binary64.PlatformAcc.earnings 0%float
           (fun sum bug => (sum + Binary64.amountOrZero bug)%float)
           (fun _ => eq_refl) platformUpd64_earnings _ a Hin).
Qed.

Lemma programRows64_earnings bugs p :
  In p (Binary64.programRows bugs) ->
  Binary64.ProgramData.earnings p
  = Binary64.programEarnings bugs (Binary64.ProgramData.name p).
Proof.
  unfold Binary64.programRows, JsObject.entries. rewrite programMap64_run.
  intros H. apply in_map_iff in H. destruct H as [[k a] [<- Hin]].
  apply enumerate_In in Hin.
  pose proof (grouped_ordinary _ _ _ (In_run_key _ _ _ _ _ _ Hin)) as Hk.
  apply In_run in Hin.
  cbn [Binary64.programEntry Binary64.ProgramData.earnings
       Binary64.ProgramData.name].
  unfold Binary64.programEarnings, Binary64.sumBounty.
  rewrite <- (grouped_filter Binary64.programName k bugs Hk).
  exact (groupAcc_accumulator Binary64.programName
           (fun b => Binary64.newProgramAcc (Binary64.companyName b))
           Binary64.programUpd k
           Binary64.ProgramAcc.earnings 0%float
           (fun sum bug => (sum + Binary64.amountOrZero bug)%float)
           (fun _ => eq_refl) programUpd64_earnings _ a Hin).
Qed.

(** The names of the groups that get a row are not array indices when no
    record's name is. *)
Lemma firstSeen_named {B : Type} (key : B -> string) (bs : list B) :
  Forall (fun b => JsObject.arrayIndex (key b) = None) bs ->
  propertyOrder (firstSeen (map key (grouped key bs)))
  = firstSeen (map key (grouped key bs)).
Proof.
  intros Hidx. unfold propertyOrder. apply enumerate_named.
  apply Forall_forall. intros k Hk.
  apply firstSeen_In, in_map_iff in Hk. destruct Hk as [b [<- Hb]].
  unfold grouped in Hb. apply filter_In in Hb. destruct Hb as [Hb _].
  rewrite Forall_forall in Hidx. now apply Hidx.
Qed.

(** The rows of the leaderboard of a given amount, by name, before the
    cut. *)
Lemma programRows64_tied bugs e :
  map Binary64.ProgramData.name
    (filter (fun p => (Binary64.ProgramData.earnings p =? e)%float)
       (Binary64.programRows bugs))
  = filter (fun k => (Binary64.programEarnings bugs k =? e)%float)
      (propertyOrder
         (firstSeen (map Binary64.programName
                       (grouped Binary64.programName bugs)))).
Proof.
  rewrite <- programRows64_names. unfold Binary64.programRows at 2.
  rewrite (map_map Binary64.programEntry Binary64.ProgramData.name).
  rewrite <- (map_ext fst (fun x => Binary64.ProgramData.name
                                      (Binary64.programEntry x)))
    by (now intros [k a]).
  apply filter_rows; [now intros [k a]|].
  intros x Hx.
  assert (Hp : In (Binary64.programEntry x) (Binary64.programRows bugs))
    by (now apply in_map).
  rewrite (programRows64_earnings bugs _ Hp). now destruct x as [k a].
Qed.

Lemma platformRows64_tied bugs e :
  map Binary64.PlatformData.name
    (filter (fun g => (Binary64.PlatformData.earnings g =? e)%float)
       (Binary64.platformRows bugs))
  = filter (fun k => (Binary64.platformEarnings bugs k =? e)%float)
      (propertyOrder
         (firstSeen (map Binary64.platformName
                       (grouped Binary64.platformName bugs)))).
Proof.
  rewrite <- platformRows64_names. unfold Binary64.platformRows at 2.
  rewrite (map_map Binary64.platformEntry Binary64.PlatformData.name).
  rewrite <- (map_ext fst (fun x => Binary64.PlatformData.name
                                      (Binary64.platformEntry x)))
    by (now intros [k a]).
  apply filter_rows; [now intros [k a]|].
  intros x Hx.
  assert (Hp : In (Binary64.platformEntry x) (Binary64.platformRows bugs))
    by (now apply in_map).
  rewrite (platformRows64_earnings bugs _ Hp). now destruct x as [k a].
Qed.

(** The leaderboard on binary64 amounts: at most 5 rows, none followed by
    a row of greater earnings, and the rows of one amount in the order of
    property enumeration of their names. *)
Lemma leaderboard64_order (bugs : list Binary64.BugData.t) :
  let out := Binary64.calculateTopPrograms bugs in
  (List.length out <= 5)%nat
  /\ Sorted (fun a b => (Binary64.ProgramData.earnings a
                         <? Binary64.ProgramData.earnings b)%float = false) out
  /\ forall e : float,
       prefixOf
         (map Binary64.ProgramData.name
            (filter (fun p => (Binary64.ProgramData.earnings p =? e)%float) out))
         (filter (fun k => (Binary64.programEarnings bugs k =? e)%float)
            (propertyOrder
               (firstSeen (map Binary64.programName
                             (grouped Binary64.programName bugs))))).
Proof.
  intros out. unfold out, Binary64.calculateTopPrograms, slice0.
  fold (Binary64.programRows bugs).
  split; [|split].
  - apply firstn_le_length.
  - apply Sorted_firstn, (Array_sort64_sorted Binary64.ProgramData.earnings).
  - intros e.
    destruct (filter_firstn_prefix
                (fun p => (Binary64.ProgramData.earnings p =? e)%float) 5
                (Binary64.Array_sort
                   (fun a b => (Binary64.ProgramData.earnings b
                                - Binary64.ProgramData.earnings a)%float)
                   (Binary64.programRows bugs)))
      as [rest Hrest].
    exists (map Binary64.ProgramData.name rest).
    rewrite <- map_app, <- Hrest.
    rewrite (Array_sort64_stable Binary64.ProgramData.earnings).
    symmetry. apply programRows64_tied.
Qed.

Lemma platform_rollup64_order (bugs : list Binary64.BugData.t) :
  let out := Binary64.calculatePlatformData bugs in
  Sorted (fun a b => (Binary64.PlatformData.earnings a
                      <? Binary64.PlatformData.earnings b)%float = false) out
  /\ forall e : float,
       map Binary64.PlatformData.name
         (filter (fun g => (Binary64.PlatformData.earnings g =? e)%float) out)
       = filter (fun k => (Binary64.platformEarnings bugs k =? e)%float)
           (propertyOrder
              (firstSeen (map Binary64.platformName
                            (grouped Binary64.platformName bugs)))).
Proof.
  intros out. unfold out, Binary64.calculatePlatformData.
  fold (Binary64.platformRows bugs). split.
  - apply (Array_sort64_sorted Binary64.PlatformData.earnings).
  - intros e. rewrite (Array_sort64_stable Binary64.PlatformData.earnings).
    apply platformRows64_tied.
Qed.

(** * Properties stated by the specification *)

(** C1. [acceptedBugs] counts the records whose status is Accepted,
    Resolved or Bounty Awarded, [rejectedBugs] those whose status is
    Duplicate or Not Applicable; [successRate] is
    [acceptedBugs / (acceptedBugs + rejectedBugs) * 100] when that
    denominator is positive and 0 when it is 0, and lies in 0..100. *)
Theorem successRate_formula_and_range (tz now : Z)
  (filteredBugs allBugs : list BugData.t) :
  let stats := calculateStats tz now filteredBugs allBugs in
  let accepted := AnalyticsStats.acceptedBugs stats in
  let rejected := AnalyticsStats.rejectedBugs stats in
  accepted
  = countRecords (statusIn ["Accepted"; "Resolved"; "Bounty Awarded"]%string)
      filteredBugs
  /\ rejected
     = countRecords (statusIn ["Duplicate"; "Not Applicable"]%string)
         filteredBugs
  /\ (AnalyticsStats.successRate stats
      == if (0 <? accepted + rejected)%nat
         then num accepted / num (accepted + rejected) * 100
         else 0)%Q
  /\ (0 <= AnalyticsStats.successRate stats)%Q
  /\ (AnalyticsStats.successRate stats <= 100)%Q.
Proof.
  unfold calculateStats.
  cbn [AnalyticsStats.successRate AnalyticsStats.acceptedBugs
       AnalyticsStats.rejectedBugs].
  set (acc := filter (fun bug => includes acceptedStatuses (BugData.status bug))
                filteredBugs).
  set (rej := filter (fun bug => includes rejectedStatuses (BugData.status bug))
                filteredBugs).
  assert (Hres :
    List.length (filter (fun bug => includes acceptedStatuses (BugData.status bug)
                                    || includes rejectedStatuses (BugData.status bug))
                   filteredBugs)
    = (List.length acc + List.length rej)%nat).
  { apply (length_filter_or
             (fun bug => includes acceptedStatuses (BugData.status bug))
             (fun bug => includes rejectedStatuses (BugData.status bug))).
    intros b. apply accepted_not_rejected. }
  rewrite Hres.
  split; [|split; [|split; [reflexivity|]]].
  - unfold acc. rewrite <- countRecords_filter.
    apply countRecords_ext. intros b. symmetry. apply statusIn_includes.
  - unfold rej. rewrite <- countRecords_filter.
    apply countRecords_ext. intros b. symmetry. apply statusIn_includes.
  - destruct (0 <? List.length acc + List.length rej)%nat eqn:E.
    + apply Nat.ltb_lt in E.
      apply percentage_range; [lia | assumption].
    + split; discriminate.
Qed.

(** C2, as the code has it.  The four calendar sums of [calculateStats] are
    taken over the unfiltered collection, whatever the selector that
    produced the filtered one.  The this-month and this-year buckets hold
    every record created at or after the first local midnight of the
    current month / year: the lower bound is inclusive and there is no
    upper bound.  The last-month and last-year buckets start, inclusively,
    at the first local midnight of the previous month / year, hold only
    records created before the start of the current month / year, and hold
    all of those created up to the midnight that begins the last day of the
    previous period. *)
Theorem calendar_earnings_buckets (tz now : Z)
  (filteredBugs allBugs : list BugData.t) :
  let stats := calculateStats tz now filteredBugs allBugs in
  (forall range : string,
      let viaFilter :=
        calculateStats tz now (filterBugsByTimeRange tz now allBugs range)
          allBugs in
      AnalyticsStats.thisMonthEarnings viaFilter
      = AnalyticsStats.thisMonthEarnings stats
      /\ AnalyticsStats.lastMonthEarnings viaFilter
         = AnalyticsStats.lastMonthEarnings stats
      /\ AnalyticsStats.thisYearEarnings viaFilter
         = AnalyticsStats.thisYearEarnings stats
      /\ AnalyticsStats.lastYearEarnings viaFilter
         = AnalyticsStats.lastYearEarnings stats)
  /\ (AnalyticsStats.thisMonthEarnings stats
      == totalBounty (filter (fun b => thisMonthStart tz now
                                       <=? BugData.created_at b) allBugs))%Q
  /\ (AnalyticsStats.thisYearEarnings stats
      == totalBounty (filter (fun b => thisYearStart tz now
                                       <=? BugData.created_at b) allBugs))%Q
  /\ (AnalyticsStats.lastMonthEarnings stats
      == totalBounty (filter (fun b => inLastMonth tz now (BugData.created_at b))
                        allBugs))%Q
  /\ (AnalyticsStats.lastYearEarnings stats
      == totalBounty (filter (fun b => inLastYear tz now (BugData.created_at b))
                        allBugs))%Q
  /\ (forall date, inLastMonth tz now date = true ->
                   lastMonthStart tz now <= date < thisMonthStart tz now)
  /\ (forall date,
        lastMonthStart tz now <= date <= thisMonthStart tz now - msPerDay ->
        inLastMonth tz now date = true)
  /\ (forall date, inLastYear tz now date = true ->
                   lastYearStart tz now <= date < thisYearStart tz now)
  /\ (forall date,
        lastYearStart tz now <= date <= thisYearStart tz now - msPerDay ->
        inLastYear tz now date = true)
  /\ (getFullYear tz (thisMonthStart tz now) = getFullYear tz now
      /\ getMonth tz (thisMonthStart tz now) = getMonth tz now
      /\ getDate tz (thisMonthStart tz now) = 1)
  /\ (getFullYear tz (lastMonthStart tz now) * 12
      + getMonth tz (lastMonthStart tz now)
      = getFullYear tz now * 12 + getMonth tz now - 1
      /\ getDate tz (lastMonthStart tz now) = 1
      /\ lastMonthStart tz now < thisMonthStart tz now)
  /\ (getFullYear tz (thisYearStart tz now) = getFullYear tz now
      /\ getMonth tz (thisYearStart tz now) = 0
      /\ getDate tz (thisYearStart tz now) = 1)
  /\ (getFullYear tz (lastYearStart tz now) = getFullYear tz now - 1
      /\ getMonth tz (lastYearStart tz now) = 0
      /\ getDate tz (lastYearStart tz now) = 1
      /\ lastYearStart tz now < thisYearStart tz now).
Proof.
  intros stats.
  split; [intros range; apply calendar_sums_ignore_filter|].
  split; [apply sumBounty_total|]. split; [apply sumBounty_total|].
  split; [apply lastMonthEarnings_bucket|].
  split; [apply lastYearEarnings_bucket|].
  split; [apply inLastMonth_within|].
  split; [apply inLastMonth_covers|].
  split; [apply inLastYear_within|].
  split; [apply inLastYear_covers|].
  split; [apply thisMonthStart_civil|].
  split; [apply lastMonthStart_civil|].
  split; [apply thisYearStart_civil | apply lastYearStart_civil].
Qed.

(** C2 as stated fails on the upper bound of the this-month bucket: on
    2024-03-15 a record created on 2024-04-10, after the start of the next
    month, is counted in [thisMonthEarnings]. *)
Lemma this_month_bucket_has_no_upper_bound :
  getFullYear 0 midMarch2024 = 2024
  /\ getMonth 0 midMarch2024 = 2
  /\ newDate 0 2024 3 1 <= BugData.created_at createdInApril2024
  /\ getMonth 0 (BugData.created_at createdInApril2024) = 3
  /\ (AnalyticsStats.thisMonthEarnings
        (calculateStats 0 midMarch2024 [] [createdInApril2024]) == 100)%Q
  /\ (AnalyticsStats.thisYearEarnings
        (calculateStats 0 midMarch2024 [] [createdInApril2024]) == 100)%Q.
Proof. vm_compute. repeat split; discriminate. Qed.

(** The upper end of the last-month bucket is the midnight that begins the
    last day of the previous month: on 2024-03-15 a record created on
    2024-02-29 at noon is counted neither in the last-month nor in the
    this-month sum. *)
Example last_month_bucket_ends_at_start_of_last_day :
  lastMonthEnd 0 midMarch2024 = newDate 0 2024 1 29
  /\ inLastMonth 0 midMarch2024 (BugData.created_at createdOnLeapDay2024) = false
  /\ (AnalyticsStats.lastMonthEarnings
        (calculateStats 0 midMarch2024 [] [createdOnLeapDay2024]) == 0)%Q
  /\ (AnalyticsStats.thisMonthEarnings
        (calculateStats 0 midMarch2024 [] [createdOnLeapDay2024]) == 0)%Q.
Proof. vm_compute. repeat split. Qed.

(** C3, as the code has it.  The company recorded for a program-name group
    is the company of the first record of that name in encounter order
    (first seen wins): it is set when the group is created and not touched
    afterwards.  This holds for every group of the grouping pass and so for
    every row of the leaderboard. *)
Theorem leaderboard_company_first_seen (bugs : list BugData.t) :
  Forall (fun p => firstSeenCompany bugs (ProgramData.name p)
                   = Some (ProgramData.company p)) (programRows bugs)
  /\ Forall (fun p => firstSeenCompany bugs (ProgramData.name p)
                      = Some (ProgramData.company p)) (calculateTopPrograms bugs).
Proof.
  assert (H : forall p, In p (programRows bugs) ->
                firstSeenCompany bugs (ProgramData.name p)
                = Some (ProgramData.company p)).
  { intros p Hp. destruct (programRows_group bugs p Hp) as [_ [_ [b0 [Hf Hc]]]].
    unfold firstSeenCompany. rewrite Hf. simpl. now rewrite Hc. }
  split; apply Forall_forall; intros p Hp; auto using In_topPrograms.
Qed.

(** C3 as stated fails: with two records of program name "acme", the first
    of company "A" and the last of company "B", the leaderboard row of
    "acme" carries "A", not the last-seen "B". *)
Lemma leaderboard_company_not_last_seen :
  exists p, In p (calculateTopPrograms twoCompanies)
            /\ ProgramData.name p = "acme"%string
            /\ ProgramData.company p = "A"%string
            /\ lastSeenCompany twoCompanies (ProgramData.name p) = Some "B"%string
            /\ lastSeenCompany twoCompanies (ProgramData.name p)
               <> Some (ProgramData.company p).
Proof.
  eexists. split; [left; reflexivity|]. simpl.
  repeat split; try reflexivity. discriminate.
Qed.

(** C4, as the code has it.  The monthly series has exactly 12 buckets, one
    per calendar month of the trailing 12 months ending at the month of
    [now], oldest first, labelled with the month's short name and the last
    two digits of its year.  The bucket of month [m] of year [y] counts
    exactly the records created in month [m] of a year with the last two
    digits of [y]: so a record created in one of the 12 months is counted
    in the bucket of that month and, the 12 months being distinct, in no
    other; and a record whose month and two-digit year are those of no
    bucket is counted nowhere. *)
Theorem monthly_series_buckets (tz now : Z) (bugs : list BugData.t) :
  let out := calculateMonthlyData tz now bugs in
  List.length out = 12%nat
  /\ Forall2
       (fun bucket month =>
          let '(m, y) := month in
          MonthlyData.month bucket = monthLabel m y
          /\ MonthlyData.submissions bucket
             = countRecords (createdInMonthOfCentury tz m y) bugs
          /\ (MonthlyData.earnings bucket
              == totalBounty (filter (createdInMonthOfCentury tz m y) bugs))%Q
          /\ MonthlyData.accepted bucket
             = countRecords
                 (fun bug => createdInMonthOfCentury tz m y bug
                             && statusIn acceptedStatuses bug) bugs)
       out (trailingMonths tz now)
  /\ NoDup (map fst (trailingMonths tz now))
  /\ nth 11 (trailingMonths tz now) (0, 0) = (getMonth tz now, getFullYear tz now)
  /\ (forall m y bug, createdInMonth tz m y bug = true ->
                      createdInMonthOfCentury tz m y bug = true).
Proof.
  intros out.
  assert (Hout := calculateMonthlyData_buckets tz now bugs). fold out in Hout.
  pose proof (getMonth_range tz now) as HM.
  assert (Hwin : forall i,
    ((getFullYear tz now * 12 + getMonth tz now - i) mod 12,
     (getFullYear tz now * 12 + getMonth tz now - i) / 12)
    = ((getMonth tz now - i) mod 12,
       getFullYear tz now + (getMonth tz now - i) / 12)).
  { intros i. f_equal; Z.div_mod_to_equations; lia. }
  split; [|split; [|split; [|split]]].
  - rewrite Hout. now rewrite length_map.
  - rewrite Hout. unfold trailingMonths. cbv zeta.
    apply (Forall2_map_same _ _ _ monthOffsets).
    intros i Hi. cbv beta iota.
    pose proof (Hwin i) as Hi'. injection Hi' as Hwm Hwy. rewrite Hwm, Hwy.
    assert (Hm : 0 <= (getMonth tz now - i) mod 12 <= 11)
      by (pose proof (Z.mod_pos_bound (getMonth tz now - i) 12); lia).
    split; [|split; [|split]].
    + apply bucket_month.
    + rewrite bucket_submissions. cbn [MonthlyData.submissions Nat.add].
      apply countRecords_ext. intros b. now apply label_matches.
    + rewrite bucket_earnings. cbn [MonthlyData.earnings]. rewrite Qplus_0_l.
      erewrite totalBounty_ext; [reflexivity|].
      intros b. now apply label_matches.
    + rewrite bucket_accepted. cbn [MonthlyData.accepted Nat.add].
      apply countRecords_ext. intros b. now rewrite label_matches.
  - unfold trailingMonths. cbv zeta. rewrite map_map.
    apply NoDup_map_on; [|apply monthOffsets_NoDup].
    intros i j Hi Hj H. apply monthOffsets_In in Hi, Hj. cbn [fst] in H.
    Z.div_mod_to_equations. lia.
  - unfold trailingMonths. cbv zeta. rewrite nth_last_of_twelve, Hwin.
    f_equal; Z.div_mod_to_equations; lia.
  - intros m y bug H. unfold createdInMonth in H. unfold createdInMonthOfCentury.
    apply andb_true_iff in H. destruct H as [H1 H2].
    apply Z.eqb_eq in H2. now rewrite H1, H2, Z.eqb_refl.
Qed.

(** C4 as stated fails: on 2024-03-15 a record created on 1924-03-15 lies
    in none of the 12 months from April 2023 to March 2024, yet it is
    counted in the last bucket, whose label "Mar 24" is also the label of
    March 1924. *)
Lemma monthly_series_counts_a_record_of_1924 :
  getFullYear 0 (BugData.created_at createdInMarch1924) = 1924
  /\ trailingMonths 0 midMarch2024
     = [(3, 2023); (4, 2023); (5, 2023); (6, 2023); (7, 2023); (8, 2023);
        (9, 2023); (10, 2023); (11, 2023); (0, 2024); (1, 2024); (2, 2024)]
  /\ existsb (fun month => createdInMonth 0 (fst month) (snd month)
                              createdInMarch1924)
       (trailingMonths 0 midMarch2024) = false
  /\ map MonthlyData.submissions
       (calculateMonthlyData 0 midMarch2024 [createdInMarch1924])
     = [0; 0; 0; 0; 0; 0; 0; 0; 0; 0; 0; 1]%nat
  /\ map MonthlyData.month
       (calculateMonthlyData 0 midMarch2024 [createdInMarch1924])
     = ["Apr 23"; "May 23"; "Jun 23"; "Jul 23"; "Aug 23"; "Sep 23"; "Oct 23";
        "Nov 23"; "Dec 23"; "Jan 24"; "Feb 24"; "Mar 24"]%string.
Proof. vm_compute. repeat split. Qed.

(** The partition of the earnings (claim C5) in exact arithmetic, for the
    collections it holds for.  When no platform name is a property name
    that the dictionary inherits from [Object.prototype], the amounts of
    the platform rollup add up to [totalEarnings] of the summary statistics
    of the same collection, as rational numbers; [totalEarnings] is in
    every case the sum of the records' [bounty_amount] with [null] counted
    as 0.  The sums that the code computes, in binary64, can differ in the
    last place: see [platform_earnings_are_binary64_sums]. *)
Theorem platform_earnings_partition_total (tz now : Z)
  (filteredBugs allBugs : list BugData.t) :
  Forall (fun bug => JsObject.inherited (platformName bug) = false)
    filteredBugs ->
  (sumQ (map PlatformData.earnings (calculatePlatformData filteredBugs))
   == AnalyticsStats.totalEarnings (calculateStats tz now filteredBugs allBugs))%Q
  /\ (AnalyticsStats.totalEarnings (calculateStats tz now filteredBugs allBugs)
      == totalBounty filteredBugs)%Q.
Proof.
  intros Hord.
  assert (Htot : (AnalyticsStats.totalEarnings
                    (calculateStats tz now filteredBugs allBugs)
                  == totalBounty filteredBugs)%Q)
    by (unfold calculateStats; cbn [AnalyticsStats.totalEarnings];
        apply sumBounty_total).
  split; [|exact Htot].
  rewrite Htot.
  pose proof (platform_rollup_of_grouped filteredBugs) as H. cbv zeta in H.
  rewrite (grouped_all platformName filteredBugs Hord) in H.
  apply H.
Qed.

(** C5 on a failing input: for one record of 100 whose platform is named
    "constructor" the rollup is empty, so its amounts add up to 0, while
    [totalEarnings] is 100. *)
Lemma platform_earnings_miss_inherited_name :
  (sumQ (map PlatformData.earnings
           (calculatePlatformData [onPlatformConstructor])) == 0)%Q
  /\ (AnalyticsStats.totalEarnings
        (calculateStats 0 0 [onPlatformConstructor] []) == 100)%Q
  /\ ~ (sumQ (map PlatformData.earnings
               (calculatePlatformData [onPlatformConstructor]))
        == AnalyticsStats.totalEarnings
             (calculateStats 0 0 [onPlatformConstructor] []))%Q.
Proof. vm_compute. repeat split; discriminate. Qed.

(** C6. With the clock fixed, filtering the output of the time-window
    filter again with the same selector changes nothing. *)
Theorem filterBugsByTimeRange_idempotent (tz now : Z)
  (bugs : list BugData.t) (range : string) :
  filterBugsByTimeRange tz now (filterBugsByTimeRange tz now bugs range) range
  = filterBugsByTimeRange tz now bugs range.
Proof.
  unfold filterBugsByTimeRange.
  assert (H : forall (p : BugData.t -> bool) l, filter p (filter p l) = filter p l).
  { intros p l. induction l as [|b l IH]; simpl; [reflexivity|].
    destruct (p b) eqn:E; simpl; [rewrite E|]; now rewrite IH. }
  destruct (String.eqb range "month"); [apply H|].
  destruct (String.eqb range "6months"); [apply H|].
  destruct (String.eqb range "year"); [apply H | reflexivity].
Qed.

(** C7. The time-window filter is a total function of its arguments, and
    for every selector other than "month", "6months" and "year" (so for
    "all" and for any unrecognised value) it returns the input list
    itself: same records, same order. *)
Theorem filterBugsByTimeRange_default_is_all (tz now : Z)
  (bugs : list BugData.t) (range : string) :
  range <> "month"%string -> range <> "6months"%string ->
  range <> "year"%string ->
  filterBugsByTimeRange tz now bugs range = bugs
  /\ filterBugsByTimeRange tz now bugs range
     = filterBugsByTimeRange tz now bugs "all".
Proof.
  intros Hm H6 Hy. unfold filterBugsByTimeRange.
  apply String.eqb_neq in Hm, H6, Hy. rewrite Hm, H6, Hy. now split.
Qed.

Lemma filterBugsByTimeRange_default_is_all_witness :
  filterBugsByTimeRange 0 0 twoCompanies "weekly" = twoCompanies
  /\ filterBugsByTimeRange 0 0 twoCompanies "weekly"
     = filterBugsByTimeRange 0 0 twoCompanies "all".
Proof.
  apply filterBugsByTimeRange_default_is_all; discriminate.
Defined.

(** C8. [avgTimeToResolution] is the arithmetic mean of the day counts of
    exactly the records that have both a submission and a resolution date,
    and 0 when there is none; a day count is the difference of the two
    dates in days rounded up to a whole number, negative when the
    resolution precedes the submission: nothing is clamped. *)
Theorem avgTimeToResolution_is_mean (tz now : Z)
  (filteredBugs allBugs : list BugData.t) :
  (AnalyticsStats.avgTimeToResolution
     (calculateStats tz now filteredBugs allBugs)
   == mean (resolutionTimes filteredBugs))%Q
  /\ (forall submitted resolved : Z,
        (ceilDays submitted resolved - 1) * msPerDay
        < resolved - submitted <= ceilDays submitted resolved * msPerDay)
  /\ (AnalyticsStats.avgTimeToResolution
        (calculateStats tz now [resolvedBeforeSubmitted] allBugs)
      == - (2))%Q.
Proof.
  split; [|split; [apply ceilDays_is_ceiling | reflexivity]].
  unfold calculateStats. cbn [AnalyticsStats.avgTimeToResolution].
  rewrite <- resolutionTimes_length, totalDays_acc.
  destruct (resolutionTimes filteredBugs) as [|z zs]; reflexivity.
Qed.

(** C9, as the code has it.  The leaderboard has at most 5 rows, and no row
    is followed by a row of greater earnings, the earnings of a row being
    the binary64 sum that the code computes.  Rows of equal earnings stand
    in the order in which [Object.entries] lists their names: for every
    amount [e], the names of the rows of amount [e] are an initial segment
    of the names of the groups of amount [e], taken in that order.  When no
    program name is an array index, that order is the order of the groups'
    first records (encounter order). *)
Theorem leaderboard_top5_sorted_stable (bugs : list Binary64.BugData.t) :
  let out := Binary64.calculateTopPrograms bugs in
  let names :=
    firstSeen (map Binary64.programName (grouped Binary64.programName bugs)) in
  (List.length out <= 5)%nat
  /\ Sorted (fun a b => (Binary64.ProgramData.earnings a
                         <? Binary64.ProgramData.earnings b)%float = false) out
  /\ (forall e : float,
        prefixOf
          (map Binary64.ProgramData.name
             (filter (fun p => (Binary64.ProgramData.earnings p =? e)%float)
                out))
          (filter (fun k => (Binary64.programEarnings bugs k =? e)%float)
             (propertyOrder names)))
  /\ (Forall (fun bug => JsObject.arrayIndex (Binary64.programName bug) = None)
        bugs ->
      forall e : float,
        prefixOf
          (map Binary64.ProgramData.name
             (filter (fun p => (Binary64.ProgramData.earnings p =? e)%float)
                out))
          (filter (fun k => (Binary64.programEarnings bugs k =? e)%float)
             names)).
Proof.
  intros out names.
  destruct (leaderboard64_order bugs) as [H1 [H2 H3]].
  split; [exact H1|]. split; [exact H2|]. split; [exact H3|].
  intros Hidx e. specialize (H3 e).
  now rewrite (firstSeen_named Binary64.programName bugs Hidx) in H3.
Qed.

(** C9 on records of seven programs, none named by an array index.  Five
    rows are kept of seven.  E (1000) comes first; C and D (500 each) tie
    and keep their encounter order; A, met after B, has earned
    0.1 + 0.2 = 0.30000000000000004 and comes before B, which has earned
    0.3; F and G, which tie at 0, are cut. *)
Lemma leaderboard_top5_sorted_stable_witness :
  Forall (fun bug => JsObject.arrayIndex (Binary64.programName bug) = None)
    Binary64.sevenPrograms
  /\ firstSeen (map Binary64.programName
                  (grouped Binary64.programName Binary64.sevenPrograms))
     = ["B"; "A"; "C"; "D"; "E"; "F"; "G"]%string
  /\ map Binary64.ProgramData.name
       (Binary64.calculateTopPrograms Binary64.sevenPrograms)
     = ["E"; "C"; "D"; "A"; "B"]%string
  /\ (Binary64.programEarnings Binary64.sevenPrograms "B"
      <? Binary64.programEarnings Binary64.sevenPrograms "A")%float = true
  /\ (forall e : float,
        prefixOf
          (map Binary64.ProgramData.name
             (filter (fun p => (Binary64.ProgramData.earnings p =? e)%float)
                (Binary64.calculateTopPrograms Binary64.sevenPrograms)))
          (filter (fun k => (Binary64.programEarnings Binary64.sevenPrograms k
                             =? e)%float)
             (firstSeen (map Binary64.programName
                           (grouped Binary64.programName
                              Binary64.sevenPrograms))))).
Proof.
  assert (Hidx : Forall (fun bug => JsObject.arrayIndex
                                      (Binary64.programName bug) = None)
                   Binary64.sevenPrograms) by (repeat constructor).
  split; [exact Hidx|].
  split; [vm_compute; reflexivity|].
  split; [vm_compute; reflexivity|].
  split; [vm_compute; reflexivity|].
  exact (proj2 (proj2 (proj2
           (leaderboard_top5_sorted_stable Binary64.sevenPrograms))) Hidx).
Defined.

(** C9 as stated fails on the order of ties: of two programs without
    earnings, "2" met first and "1" met second, the leaderboard lists "1"
    before "2", because the dictionary enumerates names that are array
    indices in increasing numeric order. *)
Lemma leaderboard_ties_follow_property_order :
  map Binary64.programName Binary64.twoNumberedPrograms = ["2"; "1"]%string
  /\ map Binary64.ProgramData.name
       (Binary64.calculateTopPrograms Binary64.twoNumberedPrograms)
     = ["1"; "2"]%string
  /\ (Binary64.programEarnings Binary64.twoNumberedPrograms "1"
      =? Binary64.programEarnings Binary64.twoNumberedPrograms "2")%float
     = true.
Proof. vm_compute. repeat split. Qed.

(** The partition property of the platform rollup (claim C10), for the
    collections it holds for.  When no platform name is a property name
    that the dictionary inherits from [Object.prototype], the platform
    rollup puts every record in exactly one group, the one named by
    [platformName] (the platform name of the record's program, ["Unknown"]
    without a program, a platform or a name): the group names are pairwise
    distinct and cover every record, each group counts the records of its
    name, so the counts add up to the number of records and no group is
    empty. *)
Theorem platform_rollup_partitions_records (bugs : list BugData.t) :
  Forall (fun bug => JsObject.inherited (platformName bug) = false) bugs ->
  let out := calculatePlatformData bugs in
  sumNat (map PlatformData.bugs out) = List.length bugs
  /\ Forall (fun g => (1 <= PlatformData.bugs g)%nat) out
  /\ NoDup (map PlatformData.name out)
  /\ Forall (fun bug => In (platformName bug) (map PlatformData.name out)) bugs
  /\ Forall (fun g =>
       PlatformData.bugs g =
       countRecords
         (fun bug => String.eqb (platformName bug) (PlatformData.name g)) bugs)
       out
  /\ Forall (fun bug =>
       platformName bug =
       match BugData.programs bug with
       | Some {| Program.platforms := Some {| Platform.name := n |} |} =>
           if string_dec n "" then "Unknown"%string else n
       | _ => "Unknown"%string
       end) bugs.
Proof.
  intros Hord out.
  pose proof (platform_rollup_of_grouped bugs) as H. cbv zeta in H. fold out in H.
  rewrite (grouped_all platformName bugs Hord) in H.
  destruct H as [H1 [H2 [H3 [H4 [H5 _]]]]].
  repeat (split; [assumption|]).
  apply Forall_forall. intros bug _. unfold platformName, optOr, strOr.
  destruct (BugData.programs bug) as [[tn co [[n]|]]|]; simpl; try reflexivity.
  destruct (string_dec n "") as [->|Hn]; [reflexivity|].
  apply String.eqb_neq in Hn. now rewrite Hn.
Qed.

Lemma platform_rollup_partitions_records_witness :
  let out := calculatePlatformData threePlatforms in
  map platformName threePlatforms
  = ["HackerOne"; "Bugcrowd"; "HackerOne"; "Unknown"]%string
  /\ map (fun g => (PlatformData.name g, PlatformData.bugs g)) out
     = [("HackerOne", 2); ("Bugcrowd", 1); ("Unknown", 1)]%string%nat
  /\ sumNat (map PlatformData.bugs out) = 4%nat
  /\ Forall (fun g => (1 <= PlatformData.bugs g)%nat) out
  /\ NoDup (map PlatformData.name out)
  /\ Forall (fun bug => In (platformName bug) (map PlatformData.name out))
       threePlatforms
  /\ Forall (fun g =>
       PlatformData.bugs g =
       countRecords
         (fun bug => String.eqb (platformName bug) (PlatformData.name g))
         threePlatforms)
       out.
Proof.
  pose proof (platform_rollup_partitions_records threePlatforms
                ltac:(repeat constructor)) as H.
  cbv zeta in H. destruct H as [H1 [H2 [H3 [H4 [H5 _]]]]].
  split; [reflexivity|]. split; [vm_compute; reflexivity|].
  repeat split; assumption.
Defined.

(** C10 on a failing input: a record whose platform is named "constructor"
    finds the inherited [constructor] property under that name, so no group
    is created for it and the rollup is empty: the counts add up to 0 for
    1 record, where the claim says 1. *)
Lemma platform_rollup_drops_inherited_name :
  platformName onPlatformConstructor = "constructor"%string
  /\ calculatePlatformData [onPlatformConstructor] = []
  /\ sumNat (map PlatformData.bugs (calculatePlatformData [onPlatformConstructor]))
     = 0%nat
  /\ List.length [onPlatformConstructor] = 1%nat.
Proof. vm_compute. repeat split. Qed.

(** Scenario A of the specification: one resolved record of 500. *)
Example scenario_single_resolved_record :
  let bug := sampleBug "Resolved" (Some 500%Q) midMarch2024 None in
  let stats := calculateStats 0 midMarch2024 [bug] [bug] in
  AnalyticsStats.totalBugs stats = 1%nat
  /\ (AnalyticsStats.totalEarnings stats == 500)%Q
  /\ AnalyticsStats.acceptedBugs stats = 1%nat
  /\ (AnalyticsStats.successRate stats == 100)%Q.
Proof. vm_compute. repeat split. Qed.

(** Scenario E of the specification: under the selector "month" a record of
    last month is filtered out, and still counts in the last-month sum. *)
Example scenario_month_selector :
  let lastMonth := sampleBug "Resolved" (Some 70%Q) (newDate 0 2024 1 10) None in
  let today := sampleBug "Resolved" (Some 30%Q) midMarch2024 None in
  let allBugs := [lastMonth; today] in
  let filtered := filterBugsByTimeRange 0 midMarch2024 allBugs "month" in
  let stats := calculateStats 0 midMarch2024 filtered allBugs in
  filtered = [today]
  /\ AnalyticsStats.totalBugs stats = 1%nat
  /\ (AnalyticsStats.lastMonthEarnings stats == 70)%Q
  /\ (AnalyticsStats.thisMonthEarnings stats == 30)%Q.
Proof. vm_compute. repeat split. Qed.

(** * Further properties of the engine *)

(** ** Calendar: every instant has a date *)

Lemma yearOfEra_bounds doe :
  0 <= doe < 146097 ->
  let yoe := (doe - doe / 1460 + doe / 36524 - doe / 146096) / 365 in
  0 <= yoe < 400
  /\ 0 <= doe - (365 * yoe + yoe / 4 - yoe / 100) <= 365.
Proof.
  intros H yoe. subst yoe. Z.div_mod_to_equations; lia.
Qed.

(** Every day of the era has a civil date, from which [doe_of_civil] gives
    the day back. *)
Lemma civil_of_doe_inv doe :
  0 <= doe < 146097 ->
  let '(y, m, d) := civil_of_doe doe in
  let yoe := y - (if m <=? 2 then 1 else 0) in
  1 <= m <= 12 /\ 1 <= d <= 31 /\ 0 <= yoe < 400
  /\ doe_of_civil yoe (if 2 <? m then m - 3 else m + 9) d = doe.
Proof.
  intros H. pose proof (yearOfEra_bounds doe H) as Hy. cbv zeta in Hy.
  unfold civil_of_doe, doe_of_civil. cbv zeta.
  set (yoe := (doe - doe / 1460 + doe / 36524 - doe / 146096) / 365) in *.
  set (doy := doe - (365 * yoe + yoe / 4 - yoe / 100)) in *.
  set (mp := (5 * doy + 2) / 153).
  assert (Hmp : 0 <= mp <= 11) by (subst mp; Z.div_mod_to_equations; lia).
  assert (Hd : 1 <= doy - (153 * mp + 2) / 5 + 1 <= 31)
    by (subst mp; Z.div_mod_to_equations; lia).
  destruct (mp <? 10) eqn:E; [apply Z.ltb_lt in E | apply Z.ltb_ge in E].
  - replace (mp + 3 <=? 2) with false by (symmetry; apply Z.leb_gt; lia).
    replace (2 <? mp + 3) with true by (symmetry; apply Z.ltb_lt; lia).
    replace (yoe + 0 - 0) with yoe by lia.
    replace (mp + 3 - 3) with mp by lia.
    subst doy. repeat split; lia.
  - replace (mp - 9 <=? 2) with true by (symmetry; apply Z.leb_le; lia).
    replace (2 <? mp - 9) with false by (symmetry; apply Z.ltb_ge; lia).
    replace (yoe + 1 - 1) with yoe by lia.
    replace (mp - 9 + 9) with mp by lia.
    subst doy. repeat split; lia.
Qed.

(** Every day number has a civil date, from which [days_from_civil] gives
    the day number back. *)
Lemma days_from_civil_from_days z :
  let '(y, m, d) := civil_from_days z in
  1 <= m <= 12 /\ 1 <= d <= 31 /\ days_from_civil y m d = z.
Proof.
  unfold civil_from_days. cbv zeta.
  pose proof (civil_of_doe_inv ((z + 719468) mod 146097)
                (Z.mod_pos_bound _ 146097 eq_refl)) as H.
  destruct (civil_of_doe ((z + 719468) mod 146097)) as [[y m] d].
  cbv zeta in H. destruct H as (Hm & Hd & Hy & Hdoe).
  split; [exact Hm|]. split; [exact Hd|].
  unfold days_from_civil. cbv zeta.
  set (c := if m <=? 2 then 1 else 0) in *.
  assert (E : (if m <=? 2 then y + (z + 719468) / 146097 * 400 - 1
               else y + (z + 719468) / 146097 * 400)
              = (y - c) + (z + 719468) / 146097 * 400)
    by (subst c; destruct (m <=? 2); lia).
  rewrite E. rewrite Z.div_add, Z.mod_add by lia.
  rewrite (Z.div_small (y - c)), (Z.mod_small (y - c)) by lia.
  rewrite Hdoe. pose proof (Z.div_mod (z + 719468) 146097). lia.
Qed.

Lemma days_from_civil_day y m d :
  days_from_civil y m d = days_from_civil y m 1 + d - 1.
Proof. unfold days_from_civil, doe_of_civil. lia. Qed.

(** The local calendar day of an instant, rebuilt from its date fields. *)
Lemma MakeDay_fields tz t :
  MakeDay (getFullYear tz t) (getMonth tz t) (getDate tz t) = localDay tz t
  /\ 1 <= getDate tz t <= 31.
Proof.
  unfold getFullYear, getMonth, getDate.
  pose proof (days_from_civil_from_days (localDay tz t)) as H.
  destruct (civil_from_days (localDay tz t)) as [[y m] d].
  destruct H as (Hm & Hd & H). split; [|exact Hd].
  unfold MakeDay. cbv zeta.
  rewrite (Z.div_small (m - 1)), (Z.mod_small (m - 1)) by lia.
  replace (y + 0) with y by lia. replace (m - 1 + 1) with m by lia.
  rewrite (days_from_civil_day y m d) in H. lia.
Qed.

Lemma MakeDay_day y m d : MakeDay y m d = MakeDay y m 1 + d - 1.
Proof. unfold MakeDay. lia. Qed.

Lemma localDay_bounds tz t :
  localDay tz t * msPerDay - tz <= t < localDay tz t * msPerDay - tz + msPerDay.
Proof. unfold localDay, msPerDay. Z.div_mod_to_equations. lia. Qed.

(** [new Date(now.getFullYear(), now.getMonth(), 1)] is not after [now]. *)
Lemma monthStart_le_now tz now :
  newDate tz (getFullYear tz now) (getMonth tz now) 1 <= now.
Proof.
  unfold newDate.
  destruct (MakeDay_fields tz now) as [H Hd].
  rewrite MakeDay_day in H.
  pose proof (localDay_bounds tz now) as Hb.
  unfold msPerDay in *. nia.
Qed.

Lemma yearOfEra_next doe :
  0 <= doe < 146097 ->
  let yoe := (doe - doe / 1460 + doe / 36524 - doe / 146096) / 365 in
  yoe < 399 -> doe < 365 * (yoe + 1) + (yoe + 1) / 4 - (yoe + 1) / 100.
Proof.
  intros H yoe. subst yoe. Z.div_mod_to_equations; lia.
Qed.

(** [days_from_civil] on a year given by its era and its year of the era. *)
Lemma days_from_civil_era era yoe m d :
  0 <= yoe < 400 ->
  days_from_civil (yoe + (if m <=? 2 then 1 else 0) + era * 400) m d
  = era * 146097
    + doe_of_civil yoe (if 2 <? m then m - 3 else m + 9) d - 719468.
Proof.
  intros Hy. unfold days_from_civil. cbv zeta.
  assert (E : (if m <=? 2
               then yoe + (if m <=? 2 then 1 else 0) + era * 400 - 1
               else yoe + (if m <=? 2 then 1 else 0) + era * 400)
              = yoe + era * 400) by (destruct (m <=? 2); lia).
  rewrite E, Z.div_add, Z.mod_add by lia.
  rewrite (Z.div_small yoe), (Z.mod_small yoe) by lia. lia.
Qed.

(** A day lies before the first day of the month after its own. *)
Lemma civil_from_days_before_next z :
  let '(y, m, d) := civil_from_days z in
  z < days_from_civil (if m =? 12 then y + 1 else y)
                      (if m =? 12 then 1 else m + 1) 1.
Proof.
  unfold civil_from_days. cbv zeta.
  set (era := (z + 719468) / 146097).
  set (doe := (z + 719468) mod 146097).
  assert (Hdoe : 0 <= doe < 146097) by (apply Z.mod_pos_bound; lia).
  assert (Hz : z = era * 146097 + doe - 719468)
    by (subst era doe; pose proof (Z.div_mod (z + 719468) 146097); lia).
  pose proof (yearOfEra_bounds doe Hdoe) as Hy. cbv zeta in Hy.
  pose proof (yearOfEra_next doe Hdoe) as Hn. cbv zeta in Hn.
  unfold civil_of_doe. cbv zeta.
  set (yoe := (doe - doe / 1460 + doe / 36524 - doe / 146096) / 365) in *.
  set (doy := doe - (365 * yoe + yoe / 4 - yoe / 100)) in *.
  set (mp := (5 * doy + 2) / 153).
  assert (Hmp : 0 <= mp <= 11) by (subst mp; Z.div_mod_to_equations; lia).
  assert (Hnext : mp <= 10 -> doy < (153 * (mp + 1) + 2) / 5)
    by (intros ?; subst mp; Z.div_mod_to_equations; lia).
  assert (Hdoy : doe = 365 * yoe + yoe / 4 - yoe / 100 + doy) by (subst doy; lia).
  clearbody era doe yoe doy mp.
  destruct (mp <? 10) eqn:E; [apply Z.ltb_lt in E | apply Z.ltb_ge in E].
  - replace (mp + 3 <=? 2) with false by (symmetry; apply Z.leb_gt; lia).
    destruct (mp + 3 =? 12) eqn:E12;
      [apply Z.eqb_eq in E12 | apply Z.eqb_neq in E12].
    + (* December: January of the next year is month 10 of the same year
         of the era *)
      pose proof (days_from_civil_era era yoe 1 1 ltac:(lia)) as Hd.
      change (1 <=? 2) with true in Hd. change (2 <? 1) with false in Hd.
      cbv iota in Hd.
      replace (yoe + 0 + era * 400 + 1) with (yoe + 1 + era * 400) by lia.
      rewrite Hd. unfold doe_of_civil. cbv zeta.
      assert (mp = 9) by lia. subst mp.
      change ((153 * (1 + 9) + 2) / 5) with 306.
      change ((153 * (9 + 1) + 2) / 5) with 306 in Hnext. lia.
    + pose proof (days_from_civil_era era yoe (mp + 3 + 1) 1 ltac:(lia)) as Hd.
      replace (mp + 3 + 1 <=? 2) with false in Hd
        by (symmetry; apply Z.leb_gt; lia).
      replace (2 <? mp + 3 + 1) with true in Hd
        by (symmetry; apply Z.ltb_lt; lia).
      rewrite Hd. unfold doe_of_civil. cbv zeta.
      replace (mp + 3 + 1 - 3) with (mp + 1) by lia.
      specialize (Hnext ltac:(lia)). lia.
  - replace (mp - 9 <=? 2) with true by (symmetry; apply Z.leb_le; lia).
    replace (mp - 9 =? 12) with false by (symmetry; apply Z.eqb_neq; lia).
    destruct (Z.eq_dec mp 10) as [->|Hne].
    + (* January: February is month 11 of the same year of the era *)
      change (10 - 9 + 1) with 2.
      pose proof (days_from_civil_era era yoe 2 1 ltac:(lia)) as Hd.
      change (2 <=? 2) with true in Hd. change (2 <? 2) with false in Hd.
      cbv iota in Hd. rewrite Hd. unfold doe_of_civil. cbv zeta.
      change ((153 * (2 + 9) + 2) / 5) with 337.
      change ((153 * (10 + 1) + 2) / 5) with 337 in Hnext.
      specialize (Hnext ltac:(lia)). lia.
    + (* February: March opens the next year of the era, or the next era *)
      assert (mp = 11) by lia. subst mp. change (11 - 9 + 1) with 3.
      destruct (Z.eq_dec yoe 399) as [->|Hy399].
      * pose proof (days_from_civil_era (era + 1) 0 3 1 ltac:(lia)) as Hd.
        change (3 <=? 2) with false in Hd. change (2 <? 3) with true in Hd.
        cbv iota in Hd.
        replace (399 + 1 + era * 400) with (0 + 0 + (era + 1) * 400) by lia.
        rewrite Hd. unfold doe_of_civil. cbv zeta.
        change ((153 * (3 - 3) + 2) / 5) with 0.
        change (0 * 365 + 0 / 4 - 0 / 100) with 0. lia.
      * pose proof (days_from_civil_era era (yoe + 1) 3 1 ltac:(lia)) as Hd.
        change (3 <=? 2) with false in Hd. change (2 <? 3) with true in Hd.
        cbv iota in Hd.
        replace (yoe + 1 + era * 400) with (yoe + 1 + 0 + era * 400) by lia.
        rewrite Hd. unfold doe_of_civil. cbv zeta.
        change ((153 * (3 - 3) + 2) / 5) with 0.
        specialize (Hn ltac:(lia)). lia.
Qed.

(** The first of a month depends on the year and the month through the
    number of the month counted from year 0. *)
Lemma MakeDay_linear y m : MakeDay y m 1 = MakeDay 0 (y * 12 + m) 1.
Proof.
  unfold MakeDay. cbv zeta.
  replace (y * 12 + m) with (m + y * 12) by lia.
  rewrite Z.div_add, Z.mod_add by lia.
  replace (0 + (m / 12 + y)) with (y + m / 12) by lia. reflexivity.
Qed.

Lemma MakeDay_month_mono y m k : 0 <= k -> MakeDay y m 1 <= MakeDay y (m + k) 1.
Proof.
  intros Hk. revert k Hk. apply natlike_ind.
  - replace (m + 0) with m by lia. lia.
  - intros k Hk IH. pose proof (MakeDay_next_month y (m + Z.succ k)) as H.
    replace (m + Z.succ k - 1) with (m + k) in H by lia. lia.
Qed.

Lemma MakeDay_months y m y' m' :
  y * 12 + m <= y' * 12 + m' -> MakeDay y m 1 <= MakeDay y' m' 1.
Proof.
  intros H. rewrite (MakeDay_linear y m), (MakeDay_linear y' m').
  pose proof (MakeDay_month_mono 0 (y * 12 + m) (y' * 12 + m' - (y * 12 + m))
                ltac:(lia)) as Hm.
  replace (y * 12 + m + (y' * 12 + m' - (y * 12 + m))) with (y' * 12 + m')
    in Hm by lia.
  exact Hm.
Qed.

Lemma localDay_before_next_month tz t :
  localDay tz t < MakeDay (getFullYear tz t) (getMonth tz t + 1) 1.
Proof.
  unfold getFullYear, getMonth.
  pose proof (civil_from_days_before_next (localDay tz t)) as H.
  pose proof (days_from_civil_from_days (localDay tz t)) as Hr.
  destruct (civil_from_days (localDay tz t)) as [[y m] d].
  destruct Hr as (Hm & _ & _).
  unfold MakeDay. cbv zeta. replace (m - 1 + 1) with m by lia.
  destruct (m =? 12) eqn:E; [apply Z.eqb_eq in E | apply Z.eqb_neq in E].
  - subst m. change (12 / 12) with 1. change (12 mod 12 + 1) with 1. lia.
  - rewrite (Z.div_small m), (Z.mod_small m) by lia.
    replace (y + 0) with y by lia. lia.
Qed.

Lemma newDate_le tz y m d t :
  newDate tz y m d <= t <-> MakeDay y m d <= localDay tz t.
Proof.
  unfold newDate, localDay, msPerDay. split; intros H.
  - apply Z.div_le_lower_bound; lia.
  - Z.div_mod_to_equations. lia.
Qed.

(** An instant is at or after the first local midnight of a month exactly
    when its own month is that month or a later one. *)
Lemma since_first_of_month tz y m t :
  newDate tz y m 1 <= t
  <-> y * 12 + m <= getFullYear tz t * 12 + getMonth tz t.
Proof.
  rewrite newDate_le.
  destruct (MakeDay_fields tz t) as [Hf Hd]. rewrite MakeDay_day in Hf.
  pose proof (localDay_before_next_month tz t) as Hn.
  split; intros H.
  - destruct (Z_le_gt_dec (y * 12 + m)
                (getFullYear tz t * 12 + getMonth tz t)) as [Hle|Hgt];
      [exact Hle|].
    pose proof (MakeDay_months (getFullYear tz t) (getMonth tz t + 1) y m
                  ltac:(lia)). lia.
  - pose proof (MakeDay_months y m (getFullYear tz t) (getMonth tz t) H). lia.
Qed.

Lemma yearStart_le_monthStart tz now :
  newDate tz (getFullYear tz now) 0 1
  <= newDate tz (getFullYear tz now) (getMonth tz now) 1.
Proof.
  unfold newDate.
  pose proof (getMonth_range tz now) as Hm.
  pose proof (MakeDay_months (getFullYear tz now) 0 (getFullYear tz now)
                (getMonth tz now) ltac:(lia)) as H.
  unfold msPerDay. lia.
Qed.

Lemma sixMonthsStart_le_monthStart tz now :
  newDate tz (getFullYear tz now) (getMonth tz now - 6) 1
  <= newDate tz (getFullYear tz now) (getMonth tz now) 1.
Proof.
  unfold newDate.
  pose proof (MakeDay_months (getFullYear tz now) (getMonth tz now - 6)
                (getFullYear tz now) (getMonth tz now) ltac:(lia)) as H.
  unfold msPerDay. lia.
Qed.

(** ** The time-window filter *)

Lemma filter_filter_le (a b : Z) (bugs : list BugData.t) :
  a <= b ->
  filter (fun bug => b <=? BugData.created_at bug)
    (filter (fun bug => a <=? BugData.created_at bug) bugs)
  = filter (fun bug => b <=? BugData.created_at bug) bugs.
Proof.
  intros Hab. induction bugs as [|bug rest IH]; [reflexivity|].
  cbn [filter].
  destruct (a <=? BugData.created_at bug) eqn:Ea.
  - cbn [filter]. destruct (b <=? BugData.created_at bug); now rewrite IH.
  - replace (b <=? BugData.created_at bug) with false
      by (symmetry; apply Z.leb_gt; apply Z.leb_gt in Ea; lia).
    exact IH.
Qed.

Lemma filter_comm {X : Type} (p q : X -> bool) l :
  filter p (filter q l) = filter q (filter p l).
Proof.
  induction l as [|x l IH]; [reflexivity|]. cbn [filter].
  destruct (p x) eqn:Ep, (q x) eqn:Eq; cbn [filter];
    rewrite ?Ep, ?Eq, IH; reflexivity.
Qed.

Lemma filterBugsByTimeRange_cases tz now bugs range :
  filterBugsByTimeRange tz now bugs range = bugs
  \/ exists start,
       start <= newDate tz (getFullYear tz now) (getMonth tz now) 1
       /\ forall l, filterBugsByTimeRange tz now l range
                    = filter (fun bug => start <=? BugData.created_at bug) l.
Proof.
  unfold filterBugsByTimeRange.
  destruct (String.eqb range "month").
  - right. exists (newDate tz (getFullYear tz now) (getMonth tz now) 1).
    split; [apply Z.le_refl | intros l; reflexivity].
  - destruct (String.eqb range "6months").
    + right. exists (newDate tz (getFullYear tz now) (getMonth tz now - 6) 1).
      split; [apply sixMonthsStart_le_monthStart | intros l; reflexivity].
    + destruct (String.eqb range "year").
      * right. exists (newDate tz (getFullYear tz now) 0 1).
        split; [apply yearStart_le_monthStart | intros l; reflexivity].
      * left. reflexivity.
Qed.

Lemma filterBugsByTimeRange_filter tz now range :
  exists p, forall l, filterBugsByTimeRange tz now l range = filter p l.
Proof.
  unfold filterBugsByTimeRange.
  destruct (String.eqb range "month"); [eexists; reflexivity|].
  destruct (String.eqb range "6months"); [eexists; reflexivity|].
  destruct (String.eqb range "year"); [eexists; reflexivity|].
  exists (fun _ => true). intros l. induction l as [|x l IH]; [reflexivity|].
  cbn [filter]. now rewrite <- IH.
Qed.

(** X1.  The windows in calendar terms.  The selector "month" keeps exactly the
    records created, in local time, in the month of [now] or in a later
    month; "6months" those created from six months before that month on;
    "year" those created in the year of [now] or in a later year. *)
Theorem filterBugsByTimeRange_calendar (tz now : Z) (bugs : list BugData.t) :
  filterBugsByTimeRange tz now bugs "month"
  = filter (fun bug => monthNumber tz now
                       <=? monthNumber tz (BugData.created_at bug)) bugs
  /\ filterBugsByTimeRange tz now bugs "6months"
     = filter (fun bug => monthNumber tz now - 6
                          <=? monthNumber tz (BugData.created_at bug)) bugs
  /\ filterBugsByTimeRange tz now bugs "year"
     = filter (fun bug => getFullYear tz now
                          <=? getFullYear tz (BugData.created_at bug)) bugs.
Proof.
  unfold filterBugsByTimeRange. cbn [String.eqb Ascii.eqb Bool.eqb].
  repeat match goal with |- _ /\ _ => split end;
    apply filter_ext; intros bug; apply eq_true_iff_eq;
    rewrite !Z.leb_le, since_first_of_month; unfold monthNumber.
  - reflexivity.
  - lia.
  - pose proof (getMonth_range tz (BugData.created_at bug)). lia.
Qed.

(** X2.  The selector "month" is the narrowest: filtering by "month" what any
    selector has kept gives what "month" alone keeps.  Two selectors can be
    applied in either order. *)
Theorem filterBugsByTimeRange_month_is_narrowest (tz now : Z)
  (bugs : list BugData.t) (range range' : string) :
  filterBugsByTimeRange tz now (filterBugsByTimeRange tz now bugs range) "month"
  = filterBugsByTimeRange tz now bugs "month"
  /\ filterBugsByTimeRange tz now (filterBugsByTimeRange tz now bugs range) range'
     = filterBugsByTimeRange tz now (filterBugsByTimeRange tz now bugs range')
         range.
Proof.
  split.
  - destruct (filterBugsByTimeRange_cases tz now bugs range)
      as [E | (start & Hs & E)].
    + now rewrite E.
    + rewrite E. unfold filterBugsByTimeRange at 1 2.
      cbn [String.eqb Ascii.eqb Bool.eqb].
      apply filter_filter_le. exact Hs.
  - destruct (filterBugsByTimeRange_filter tz now range) as [p Hp].
    destruct (filterBugsByTimeRange_filter tz now range') as [q Hq].
    rewrite !Hp, !Hq. apply filter_comm.
Qed.

(** X3.  A record created at the instant of the call or later is kept by every
    selector: no window starts after [now]. *)
Theorem filterBugsByTimeRange_keeps_current (tz now : Z)
  (bugs : list BugData.t) (range : string) (bug : BugData.t) :
  In bug bugs -> now <= BugData.created_at bug ->
  In bug (filterBugsByTimeRange tz now bugs range).
Proof.
  intros Hin Hnow.
  destruct (filterBugsByTimeRange_cases tz now bugs range)
    as [E | (start & Hs & E)].
  - now rewrite E.
  - rewrite E. apply filter_In. split; [exact Hin|].
    apply Z.leb_le.
    exact (Z.le_trans _ _ _ (Z.le_trans _ _ _ Hs (monthStart_le_now tz now))
             Hnow).
Qed.

Lemma filterBugsByTimeRange_keeps_current_witness :
  In createdInApril2024
    (filterBugsByTimeRange 0 midMarch2024 [createdInApril2024] "month").
Proof.
  apply (filterBugsByTimeRange_keeps_current 0 midMarch2024
           [createdInApril2024] "month" createdInApril2024).
  - left. reflexivity.
  - vm_compute. discriminate.
Defined.

(** ** The summary statistics: counts, average bounty, windows *)

Lemma accepted_not_pending s :
  includes acceptedStatuses s = true -> includes pendingStatuses s = false.
Proof.
  intros H. apply includes_In in H. simpl in H.
  destruct H as [<-|[<-|[<-|[]]]]; reflexivity.
Qed.

Lemma rejected_not_pending s :
  includes rejectedStatuses s = true -> includes pendingStatuses s = false.
Proof.
  intros H. apply includes_In in H. simpl in H.
  destruct H as [<-|[<-|[]]]; reflexivity.
Qed.

Lemma countRecords_includes statuses bugs :
  List.length (filter (fun bug => includes statuses (BugData.status bug)) bugs)
  = countRecords (statusIn statuses) bugs.
Proof.
  rewrite <- countRecords_filter. apply countRecords_ext.
  intros b. symmetry. apply statusIn_includes.
Qed.

Lemma status_sets_partition bugs :
  (countRecords (statusIn acceptedStatuses) bugs
   + countRecords (statusIn rejectedStatuses) bugs
   + countRecords (statusIn pendingStatuses) bugs
   + countRecords otherStatus bugs = List.length bugs)%nat.
Proof.
  induction bugs as [|b l IH]; [reflexivity|].
  cbn [countRecords List.length]. unfold otherStatus at 1.
  rewrite !statusIn_includes.
  pose proof (accepted_not_rejected (BugData.status b)) as H1.
  pose proof (accepted_not_pending (BugData.status b)) as H2.
  pose proof (rejected_not_pending (BugData.status b)) as H3.
  destruct (includes acceptedStatuses (BugData.status b));
    destruct (includes rejectedStatuses (BugData.status b));
    destruct (includes pendingStatuses (BugData.status b));
    try (specialize (H1 eq_refl); discriminate);
    try (specialize (H2 eq_refl); discriminate);
    try (specialize (H3 eq_refl); discriminate);
    cbn [negb orb]; lia.
Qed.

(** X4.  The counts of the summary.  [totalBugs] is the number of records and
    [pendingBugs] the number of those whose status is Draft, Submitted or
    Triaged; a record counts in at most one of [acceptedBugs],
    [rejectedBugs] and [pendingBugs], and the three counts with the number
    of records of any other status add up to [totalBugs]. *)
Theorem summary_counts_partition (tz now : Z)
  (filteredBugs allBugs : list BugData.t) :
  let stats := calculateStats tz now filteredBugs allBugs in
  AnalyticsStats.totalBugs stats = List.length filteredBugs
  /\ AnalyticsStats.pendingBugs stats
     = countRecords (statusIn ["Draft"; "Submitted"; "Triaged"]%string)
         filteredBugs
  /\ (AnalyticsStats.acceptedBugs stats + AnalyticsStats.rejectedBugs stats
      + AnalyticsStats.pendingBugs stats
      + countRecords otherStatus filteredBugs
      = AnalyticsStats.totalBugs stats)%nat.
Proof.
  unfold calculateStats.
  cbn [AnalyticsStats.totalBugs AnalyticsStats.pendingBugs
       AnalyticsStats.acceptedBugs AnalyticsStats.rejectedBugs].
  rewrite !countRecords_includes.
  split; [reflexivity|]. split; [reflexivity|].
  apply status_sets_partition.
Qed.

Lemma positive_test q :
  negb (Qeq_bool q 0) && negb (Qle_bool q 0)
  = if Qlt_le_dec 0 q then true else false.
Proof.
  destruct (Qlt_le_dec 0 q) as [Hlt|Hle].
  - apply andb_true_iff. split; apply negb_true_iff.
    + apply not_true_iff_false. intros E. apply Qeq_bool_iff in E.
      rewrite E in Hlt. now apply Qlt_irrefl in Hlt.
    + apply not_true_iff_false. intros E. apply Qle_bool_iff in E.
      now apply Qlt_not_le in Hlt.
  - apply andb_false_iff. right. apply negb_false_iff.
    now apply Qle_bool_iff.
Qed.

Lemma bugsWithBounty_length bugs :
  List.length
    (filter (fun bug => match BugData.bounty_amount bug with
                        | Some q => negb (Qeq_bool q 0) && negb (Qle_bool q 0)
                        | None => false
                        end) bugs)
  = List.length (positiveAmounts bugs).
Proof.
  induction bugs as [|b l IH]; [reflexivity|].
  cbn [filter positiveAmounts].
  destruct (BugData.bounty_amount b) as [q|]; [|exact IH].
  rewrite positive_test. destruct (Qlt_le_dec 0 q); cbn [List.length]; now rewrite IH.
Qed.

Lemma totalBounty_positive bugs :
  noNegativeAmount bugs -> (totalBounty bugs == sumQ (positiveAmounts bugs))%Q.
Proof.
  intros H. induction H as [|b l Hb Hl IH]; [reflexivity|].
  cbn [totalBounty positiveAmounts].
  destruct (BugData.bounty_amount b) as [q|].
  - destruct (Qlt_le_dec 0 q) as [Hlt|Hle]; cbn [sumQ]; rewrite IH.
    + reflexivity.
    + assert (E : (q == 0)%Q) by (apply Qle_antisym; assumption).
      rewrite E. apply Qplus_0_l.
  - rewrite IH. apply Qplus_0_l.
Qed.

Lemma positiveAmounts_positive bugs :
  Forall (fun q => (0 < q)%Q) (positiveAmounts bugs).
Proof.
  induction bugs as [|b l IH]; [constructor|].
  cbn [positiveAmounts]. destruct (BugData.bounty_amount b) as [q|]; [|exact IH].
  destruct (Qlt_le_dec 0 q); [constructor; assumption | exact IH].
Qed.

Lemma sumQ_nonneg qs : Forall (fun q => (0 < q)%Q) qs -> (0 <= sumQ qs)%Q.
Proof.
  intros H. induction H as [|q l Hq Hl IH]; [apply Qle_refl|].
  cbn [sumQ]. apply Qlt_le_weak in Hq.
  setoid_replace 0%Q with (0 + 0)%Q by reflexivity.
  now apply Qplus_le_compat.
Qed.

Lemma totalBounty_nonneg bugs : noNegativeAmount bugs -> (0 <= totalBounty bugs)%Q.
Proof.
  intros H. rewrite (totalBounty_positive bugs H).
  apply sumQ_nonneg, positiveAmounts_positive.
Qed.

(** X5.  [avgBounty] when no amount is negative: the mean of the amounts that
    are positive, and 0 when there is none; the records without an amount
    or with the amount 0 count neither in the sum nor in the divisor. *)
Theorem avgBounty_is_mean_of_positive (tz now : Z)
  (filteredBugs allBugs : list BugData.t) :
  noNegativeAmount filteredBugs ->
  let stats := calculateStats tz now filteredBugs allBugs in
  (AnalyticsStats.avgBounty stats == meanQ (positiveAmounts filteredBugs))%Q
  /\ (0 <= AnalyticsStats.avgBounty stats)%Q
  /\ (positiveAmounts filteredBugs = [] ->
      (AnalyticsStats.avgBounty stats == 0)%Q
      /\ (AnalyticsStats.totalEarnings stats == 0)%Q).
Proof.
  intros Hnn. unfold calculateStats.
  cbn [AnalyticsStats.avgBounty AnalyticsStats.totalEarnings].
  rewrite bugsWithBounty_length.
  assert (Hmean :
    ((if (0 <? List.length (positiveAmounts filteredBugs))%nat
      then sumBounty filteredBugs / num (List.length (positiveAmounts filteredBugs))
      else 0) == meanQ (positiveAmounts filteredBugs))%Q).
  { pose proof (totalBounty_positive _ Hnn) as Ht.
    destruct (positiveAmounts filteredBugs) as [|q qs]; [reflexivity|].
    change (0 <? List.length (q :: qs))%nat with true. cbv iota.
    unfold meanQ. rewrite sumBounty_total, Ht. reflexivity. }
  split; [exact Hmean|]. split.
  - rewrite Hmean. pose proof (positiveAmounts_positive filteredBugs) as Hpos.
    destruct (positiveAmounts filteredBugs) as [|q qs] eqn:E; [apply Qle_refl|].
    unfold meanQ. apply Qle_shift_div_l.
    + apply num_pos. cbn [List.length]. lia.
    + rewrite Qmult_0_l. now apply sumQ_nonneg.
  - intros E. split.
    + rewrite Hmean, E. reflexivity.
    + rewrite sumBounty_total, (totalBounty_positive _ Hnn), E. reflexivity.
Qed.

Lemma avgBounty_is_mean_of_positive_witness :
  let bugs := [ sampleBug "Resolved" (Some 300%Q) 0 None;
                sampleBug "Draft" None 0 None;
                sampleBug "Resolved" (Some 0%Q) 0 None;
                sampleBug "Accepted" (Some 100%Q) 0 None ] in
  positiveAmounts bugs = [300%Q; 100%Q]
  /\ (AnalyticsStats.avgBounty (calculateStats 0 0 bugs []) == 200)%Q.
Proof.
  cbv zeta. split; [reflexivity|].
  pose proof (avgBounty_is_mean_of_positive 0 0
                [ sampleBug "Resolved" (Some 300%Q) 0 None;
                  sampleBug "Draft" None 0 None;
                  sampleBug "Resolved" (Some 0%Q) 0 None;
                  sampleBug "Accepted" (Some 100%Q) 0 None ] []) as H.
  cbv zeta in H. destruct H as [H _].
  - repeat constructor; cbn; discriminate.
  - rewrite H. reflexivity.
Defined.

Lemma totalBounty_filter_mono (p q : BugData.t -> bool) bugs :
  noNegativeAmount bugs ->
  (forall b, p b = true -> q b = true) ->
  (totalBounty (filter p bugs) <= totalBounty (filter q bugs))%Q.
Proof.
  intros Hnn Hpq. induction Hnn as [|b l Hb Hl IH]; [apply Qle_refl|].
  cbn [filter]. specialize (Hpq b).
  destruct (p b).
  - rewrite (Hpq eq_refl). cbn [totalBounty].
    apply Qplus_le_compat; [apply Qle_refl | exact IH].
  - destruct (q b); [|exact IH]. cbn [totalBounty].
    setoid_replace (totalBounty (filter p l))
      with (0 + totalBounty (filter p l))%Q by (symmetry; apply Qplus_0_l).
    apply Qplus_le_compat; [|exact IH].
    destruct (BugData.bounty_amount b); [exact Hb | apply Qle_refl].
Qed.

Lemma filter_all {X : Type} (l : list X) : filter (fun _ => true) l = l.
Proof. induction l as [|x l IH]; [reflexivity|]. cbn [filter]. now rewrite IH. Qed.

Lemma totalBounty_filter_le (p : BugData.t -> bool) bugs :
  noNegativeAmount bugs -> (totalBounty (filter p bugs) <= totalBounty bugs)%Q.
Proof.
  intros Hnn. rewrite <- (filter_all bugs) at 2.
  apply totalBounty_filter_mono; [exact Hnn | reflexivity].
Qed.

Lemma thisMonthEarnings_since tz now filteredBugs allBugs :
  (AnalyticsStats.thisMonthEarnings (calculateStats tz now filteredBugs allBugs)
   == totalBounty
        (filter (fun bug => newDate tz (getFullYear tz now) (getMonth tz now) 1
                            <=? BugData.created_at bug) allBugs))%Q.
Proof.
  unfold calculateStats, thisMonthStart. cbn [AnalyticsStats.thisMonthEarnings].
  apply sumBounty_total.
Qed.

Lemma thisYearEarnings_since tz now filteredBugs allBugs :
  (AnalyticsStats.thisYearEarnings (calculateStats tz now filteredBugs allBugs)
   == totalBounty
        (filter (fun bug => newDate tz (getFullYear tz now) 0 1
                            <=? BugData.created_at bug) allBugs))%Q.
Proof.
  unfold calculateStats, thisYearStart. cbn [AnalyticsStats.thisYearEarnings].
  apply sumBounty_total.
Qed.

Lemma totalEarnings_total tz now filteredBugs allBugs :
  (AnalyticsStats.totalEarnings (calculateStats tz now filteredBugs allBugs)
   == totalBounty filteredBugs)%Q.
Proof.
  unfold calculateStats. cbn [AnalyticsStats.totalEarnings].
  apply sumBounty_total.
Qed.

Lemma since_mono (a b : Z) (bug : BugData.t) :
  a <= b -> (b <=? BugData.created_at bug) = true ->
  (a <=? BugData.created_at bug) = true.
Proof. intros Hab H. apply Z.leb_le. apply Z.leb_le in H. lia. Qed.

(** X6.  The earnings cards when no amount is negative, for the statistics that
    [fetchAnalyticsData] computes under any selector: the earnings of this
    month are at most those of this year and at most the total of the
    selected window, which is at most the total of all records.  Under the
    selector "month" the total is the earnings of this month, under "year"
    the earnings of this year. *)
Theorem earnings_windows_ordered (tz now : Z) (allBugs : list BugData.t)
  (range : string) :
  noNegativeAmount allBugs ->
  let stats :=
    calculateStats tz now (filterBugsByTimeRange tz now allBugs range) allBugs in
  (AnalyticsStats.thisMonthEarnings stats
   <= AnalyticsStats.thisYearEarnings stats)%Q
  /\ (AnalyticsStats.thisMonthEarnings stats
      <= AnalyticsStats.totalEarnings stats)%Q
  /\ (AnalyticsStats.totalEarnings stats <= totalBounty allBugs)%Q
  /\ (range = "month"%string ->
      (AnalyticsStats.totalEarnings stats
       == AnalyticsStats.thisMonthEarnings stats)%Q)
  /\ (range = "year"%string ->
      (AnalyticsStats.totalEarnings stats
       == AnalyticsStats.thisYearEarnings stats)%Q).
Proof.
  intros Hnn. cbv zeta.
  rewrite thisMonthEarnings_since, thisYearEarnings_since, totalEarnings_total.
  split.
  { apply totalBounty_filter_mono; [exact Hnn|].
    intros b. apply since_mono, yearStart_le_monthStart. }
  split.
  { destruct (filterBugsByTimeRange_cases tz now allBugs range)
      as [E | (start & Hs & E)]; rewrite E.
    - now apply totalBounty_filter_le.
    - apply totalBounty_filter_mono; [exact Hnn|].
      intros b. now apply since_mono. }
  split.
  { destruct (filterBugsByTimeRange_filter tz now range) as [p Hp].
    rewrite Hp. now apply totalBounty_filter_le. }
  split; intros ->; unfold filterBugsByTimeRange;
    cbn [String.eqb Ascii.eqb Bool.eqb]; reflexivity.
Qed.

Lemma earnings_windows_ordered_witness :
  let stats :=
    calculateStats 0 midMarch2024
      (filterBugsByTimeRange 0 midMarch2024
         [createdInApril2024; createdOnLeapDay2024] "6months")
      [createdInApril2024; createdOnLeapDay2024] in
  (AnalyticsStats.thisMonthEarnings stats
   <= AnalyticsStats.thisYearEarnings stats)%Q
  /\ (AnalyticsStats.thisMonthEarnings stats
      <= AnalyticsStats.totalEarnings stats)%Q.
Proof.
  cbv zeta.
  pose proof (earnings_windows_ordered 0 midMarch2024
                [createdInApril2024; createdOnLeapDay2024] "6months") as H.
  cbv zeta in H. destruct H as (H1 & H2 & _).
  - repeat constructor; cbn; discriminate.
  - split; [exact H1 | exact H2].
Defined.

(** ** The percentage change shown on the earnings cards *)

Lemma Math_round_mono x y : (x <= y)%Q -> Math_round x <= Math_round y.
Proof.
  intros H. unfold Math_round. apply Qfloor_resp_le.
  apply Qplus_le_compat; [exact H | apply Qle_refl].
Qed.

Lemma Math_round_integer k : Math_round (inject_Z k) = k.
Proof.
  unfold Math_round, Qfloor, Qplus, inject_Z. cbn [Qnum Qden].
  change (Z.pos (1 * 2)) with 2. Z.div_mod_to_equations. lia.
Qed.

Lemma Math_round_comp x y : (x == y)%Q -> Math_round x = Math_round y.
Proof.
  intros H. unfold Math_round. apply Qfloor_comp. now rewrite H.
Qed.

Lemma ratio_nonneg a p : (0 < p)%Q -> (0 <= a)%Q -> (0 <= a / p * 100)%Q.
Proof.
  intros Hp Ha. apply Qmult_le_0_compat; [|discriminate].
  apply Qle_shift_div_l; [exact Hp|]. now rewrite Qmult_0_l.
Qed.

Lemma difference_nonneg c p : (p <= c)%Q -> (0 <= c - p)%Q.
Proof.
  intros Hc. unfold Qminus. rewrite <- (Qplus_opp_r p).
  apply Qplus_le_compat; [exact Hc | apply Qle_refl].
Qed.

Lemma change_nonneg c p :
  (0 < p)%Q -> (p <= c)%Q -> (0 <= (c - p) / p * 100)%Q.
Proof. intros Hp Hc. apply ratio_nonneg; [exact Hp | now apply difference_nonneg]. Qed.

Lemma change_nonpos c p :
  (0 < p)%Q -> (c <= p)%Q -> ((c - p) / p * 100 <= 0)%Q.
Proof.
  intros Hp Hc.
  setoid_replace ((c - p) / p * 100)%Q with (- ((p - c) / p * 100))%Q
    by (field; intros E; rewrite E in Hp; now apply Qlt_irrefl in Hp).
  setoid_replace 0%Q with (- 0)%Q by reflexivity.
  apply Qopp_le_compat.
  apply ratio_nonneg; [exact Hp | now apply difference_nonneg].
Qed.

Lemma change_at_least c p :
  (0 < p)%Q -> (0 <= c)%Q -> (inject_Z (-100) <= (c - p) / p * 100)%Q.
Proof.
  intros Hp Hc.
  setoid_replace ((c - p) / p * 100)%Q with (c / p * 100 + inject_Z (-100))%Q
    by (field; intros E; rewrite E in Hp; now apply Qlt_irrefl in Hp).
  setoid_replace (inject_Z (-100)) with (0 + inject_Z (-100))%Q at 1
    by (symmetry; apply Qplus_0_l).
  apply Qplus_le_compat; [|apply Qle_refl].
  now apply ratio_nonneg.
Qed.

Lemma getPercentageChange_zero current previous :
  (previous == 0)%Q ->
  getPercentageChange current previous
  = if Qlt_le_dec 0 current then 100 else 0.
Proof.
  intros E. unfold getPercentageChange.
  replace (Qeq_bool previous 0) with true
    by (symmetry; now apply Qeq_bool_iff).
  destruct (Qlt_le_dec 0 current) as [Hlt|Hle].
  - replace (Qle_bool current 0) with false; [reflexivity|].
    symmetry. apply not_true_iff_false. intros H.
    apply Qle_bool_iff in H. now apply Qlt_not_le in Hlt.
  - replace (Qle_bool current 0) with true; [reflexivity|].
    symmetry. now apply Qle_bool_iff.
Qed.

Lemma getPercentageChange_nonzero current previous :
  ~ (previous == 0)%Q ->
  getPercentageChange current previous
  = Math_round ((current - previous) / previous * 100).
Proof.
  intros Hne. unfold getPercentageChange.
  replace (Qeq_bool previous 0) with false; [reflexivity|].
  symmetry. apply not_true_iff_false. intros H. now apply Qeq_bool_iff in H.
Qed.

Lemma getPercentageChange_range (current previous : Q) :
  (0 <= previous)%Q ->
  ((previous <= current)%Q -> 0 <= getPercentageChange current previous)
  /\ ((current <= previous)%Q -> getPercentageChange current previous <= 0)
  /\ ((0 <= current)%Q -> -100 <= getPercentageChange current previous).
Proof.
  intros Hp. destruct (Qeq_dec previous 0) as [E|Hne].
  - rewrite (getPercentageChange_zero current previous E).
    repeat match goal with |- _ /\ _ => split end.
    + intros _. destruct (Qlt_le_dec 0 current); lia.
    + intros Hc. destruct (Qlt_le_dec 0 current) as [Hlt|Hle]; [|lia].
      exfalso. rewrite E in Hc. now apply Qlt_not_le in Hlt.
    + intros _. destruct (Qlt_le_dec 0 current); lia.
  - rewrite (getPercentageChange_nonzero current previous Hne).
    assert (Hpos : (0 < previous)%Q).
    { apply Qle_lteq in Hp. destruct Hp as [Hlt|Heq]; [exact Hlt|].
      exfalso. apply Hne. now symmetry. }
    repeat match goal with |- _ /\ _ => split end.
    + intros Hc.
      exact (Math_round_mono 0 _ (change_nonneg current previous Hpos Hc)).
    + intros Hc.
      exact (Math_round_mono _ 0 (change_nonpos current previous Hpos Hc)).
    + intros Hc. rewrite <- (Math_round_integer (-100)).
      apply Math_round_mono. now apply change_at_least.
Qed.

(** X7.  The sign of the percentage change agrees with the comparison of the two
    amounts when the previous amount is not negative: the result is at
    least 0 when [current >= previous], at most 0 when
    [current <= previous], and at least -100 when [current] is not
    negative.  A previous amount of 0 gives 100 or 0 and no division; a
    change of a whole number of percent gives that number. *)
Theorem getPercentageChange_sign (current previous : Q) :
  (0 <= previous)%Q ->
  ((previous <= current)%Q -> 0 <= getPercentageChange current previous)
  /\ ((current <= previous)%Q -> getPercentageChange current previous <= 0)
  /\ ((0 <= current)%Q -> -100 <= getPercentageChange current previous)
  /\ ((previous == 0)%Q ->
      getPercentageChange current previous
      = if Qlt_le_dec 0 current then 100 else 0)
  /\ (forall k : Z,
        (0 < previous)%Q ->
        (current == previous * (inject_Z (100 + k) / 100))%Q ->
        getPercentageChange current previous = k).
Proof.
  intros Hp.
  destruct (getPercentageChange_range current previous Hp) as (H1 & H2 & H3).
  split; [exact H1|]. split; [exact H2|]. split; [exact H3|].
  split; [apply getPercentageChange_zero|].
  intros k Hpos Hk.
  assert (Hne : ~ (previous == 0)%Q).
  { intros E. rewrite E in Hpos. now apply Qlt_irrefl in Hpos. }
  rewrite (getPercentageChange_nonzero current previous Hne).
  rewrite <- (Math_round_integer k).
  apply Math_round_comp. rewrite Hk, inject_Z_plus. field. exact Hne.
Qed.

Lemma getPercentageChange_sign_witness :
  getPercentageChange 150 100 = 50
  /\ getPercentageChange 30 0 = 100
  /\ -100 <= getPercentageChange 0 70.
Proof.
  split; [|split].
  - destruct (getPercentageChange_sign 150 100) as (_ & _ & _ & _ & H);
      [discriminate|].
    apply H; reflexivity.
  - reflexivity.
  - reflexivity.
Defined.

Lemma noNegativeAmount_filter (p : BugData.t -> bool) bugs :
  noNegativeAmount bugs -> noNegativeAmount (filter p bugs).
Proof.
  unfold noNegativeAmount. rewrite !Forall_forall.
  intros H b Hb. apply filter_In in Hb. now apply H.
Qed.

Lemma calendar_sums_nonneg tz now filteredBugs allBugs :
  noNegativeAmount allBugs ->
  let stats := calculateStats tz now filteredBugs allBugs in
  (0 <= AnalyticsStats.thisMonthEarnings stats)%Q
  /\ (0 <= AnalyticsStats.lastMonthEarnings stats)%Q
  /\ (0 <= AnalyticsStats.thisYearEarnings stats)%Q
  /\ (0 <= AnalyticsStats.lastYearEarnings stats)%Q.
Proof.
  intros Hnn. cbv zeta.
  rewrite thisMonthEarnings_since, thisYearEarnings_since,
    lastMonthEarnings_bucket, lastYearEarnings_bucket.
  repeat match goal with |- _ /\ _ => split end;
    apply totalBounty_nonneg, noNegativeAmount_filter, Hnn.
Qed.

(** X8.  The percentages on the month and year cards when no amount is negative:
    each is at least -100, at least 0 when the card's badge is green (this
    period's earnings are at least the last period's) and at most 0 when
    the badge is red. *)
Theorem earnings_change_matches_badge (tz now : Z)
  (filteredBugs allBugs : list BugData.t) :
  noNegativeAmount allBugs ->
  let stats := calculateStats tz now filteredBugs allBugs in
  let month := getPercentageChange (AnalyticsStats.thisMonthEarnings stats)
                 (AnalyticsStats.lastMonthEarnings stats) in
  let year := getPercentageChange (AnalyticsStats.thisYearEarnings stats)
                (AnalyticsStats.lastYearEarnings stats) in
  -100 <= month /\ -100 <= year
  /\ ((AnalyticsStats.lastMonthEarnings stats
       <= AnalyticsStats.thisMonthEarnings stats)%Q -> 0 <= month)
  /\ (~ (AnalyticsStats.lastMonthEarnings stats
         <= AnalyticsStats.thisMonthEarnings stats)%Q -> month <= 0)
  /\ ((AnalyticsStats.lastYearEarnings stats
       <= AnalyticsStats.thisYearEarnings stats)%Q -> 0 <= year)
  /\ (~ (AnalyticsStats.lastYearEarnings stats
         <= AnalyticsStats.thisYearEarnings stats)%Q -> year <= 0).
Proof.
  intros Hnn.
  destruct (calendar_sums_nonneg tz now filteredBugs allBugs Hnn)
    as (Hm & Hlm & Hy & Hly).
  cbv zeta.
  set (stats := calculateStats tz now filteredBugs allBugs) in *.
  clearbody stats.
  destruct (getPercentageChange_range
              (AnalyticsStats.thisMonthEarnings stats)
              (AnalyticsStats.lastMonthEarnings stats) Hlm)
    as (M1 & M2 & M3).
  destruct (getPercentageChange_range
              (AnalyticsStats.thisYearEarnings stats)
              (AnalyticsStats.lastYearEarnings stats) Hly)
    as (Y1 & Y2 & Y3).
  repeat match goal with |- _ /\ _ => split end.
  - now apply M3.
  - now apply Y3.
  - exact M1.
  - intros H. apply M2. apply Qlt_le_weak. now apply Qnot_le_lt.
  - exact Y1.
  - intros H. apply Y2. apply Qlt_le_weak. now apply Qnot_le_lt.
Qed.

Lemma earnings_change_matches_badge_witness :
  let stats := calculateStats 0 midMarch2024 []
                 [createdInApril2024; createdOnLeapDay2024] in
  -100 <= getPercentageChange (AnalyticsStats.thisMonthEarnings stats)
            (AnalyticsStats.lastMonthEarnings stats).
Proof.
  cbv zeta.
  pose proof (earnings_change_matches_badge 0 midMarch2024 []
                [createdInApril2024; createdOnLeapDay2024]) as H.
  cbv zeta in H. destruct H as (H & _).
  - repeat constructor; cbn; discriminate.
  - exact H.
Defined.

(** ** The severity and status distributions *)

Lemma keys_set {V : Type} (o : JsObject.t V) k v :
  JsObject.keys (JsObject.set o k v)
  = if in_dec string_dec k (JsObject.keys o) then JsObject.keys o
    else (JsObject.keys o ++ [k])%list.
Proof.
  induction o as [|[k0 v0] o IH]; cbn [JsObject.set JsObject.keys map fst].
  - destruct (in_dec string_dec k []) as [[]|_]. reflexivity.
  - destruct (String.eqb k k0) eqn:E.
    + apply String.eqb_eq in E. subst k0. cbn [map fst].
      destruct (in_dec string_dec k (k :: map fst o)) as [_|Hn];
        [reflexivity | exfalso; apply Hn; now left].
    + apply String.eqb_neq in E. cbn [map fst].
      fold (JsObject.keys (JsObject.set o k v)). rewrite IH.
      fold (JsObject.keys o).
      destruct (in_dec string_dec k (JsObject.keys o)) as [Hin|Hn];
        destruct (in_dec string_dec k (k0 :: JsObject.keys o)) as [Hin'|Hn'];
        try reflexivity.
      * exfalso. apply Hn'. now right.
      * exfalso. destruct Hin' as [H|H]; [now apply E | now apply Hn].
Qed.

Lemma countRecords_app p l1 l2 :
  countRecords p (l1 ++ l2) = (countRecords p l1 + countRecords p l2)%nat.
Proof.
  induction l1 as [|b l1 IH]; [reflexivity|].
  cbn [app countRecords]. rewrite IH. lia.
Qed.

Lemma countRecords_pos p bugs :
  (1 <= countRecords p bugs)%nat <-> exists b, In b bugs /\ p b = true.
Proof.
  induction bugs as [|b l IH]; cbn [countRecords].
  - split; [lia | intros (b & [] & _)].
  - destruct (p b) eqn:E.
    + split; [intros _; exists b; split; [now left | exact E] | lia].
    + rewrite Nat.add_0_l, IH. split.
      * intros (b' & Hin & Hp). exists b'. split; [now right | exact Hp].
      * intros (b' & [->|Hin] & Hp); [congruence|]. now exists b'.
Qed.

Lemma filter_none {X : Type} (l : list X) : filter (fun _ => false) l = [].
Proof. induction l as [|x l IH]; [reflexivity | exact IH]. Qed.

Lemma countRecords_none bugs : countRecords (fun _ => false) bugs = 0%nat.
Proof. induction bugs as [|b l IH]; [reflexivity | exact IH]. Qed.

Lemma total_filter_or {X : Type} (g : X -> nat) (p q : X -> bool) l :
  (forall x, p x = true -> q x = false) ->
  sumNat (map g (filter (fun x => p x || q x) l))
  = (sumNat (map g (filter p l)) + sumNat (map g (filter q l)))%nat.
Proof.
  intros H. induction l as [|x l IH]; [reflexivity|]. cbn [filter].
  destruct (p x) eqn:P.
  - rewrite (H x P). cbn [orb map sumNat]. rewrite IH. lia.
  - destruct (q x); cbn [orb map sumNat]; rewrite IH; lia.
Qed.

Lemma countRecords_or (p q : BugData.t -> bool) bugs :
  (forall b, p b = true -> q b = false) ->
  countRecords (fun b => p b || q b) bugs
  = (countRecords p bugs + countRecords q bugs)%nat.
Proof.
  intros H. induction bugs as [|b l IH]; [reflexivity|]. cbn [countRecords].
  destruct (p b) eqn:P.
  - rewrite (H b P). cbn [orb]. rewrite IH. lia.
  - destruct (q b); cbn [orb]; rewrite IH; lia.
Qed.

Lemma Permutation_filter {X : Type} (p : X -> bool) l l' :
  Permutation l l' -> Permutation (filter p l) (filter p l').
Proof.
  intros H. induction H as [|x l l' H IH|x y l|l l' l'' H1 IH1 H2 IH2].
  - constructor.
  - cbn [filter]. destruct (p x); [now constructor | exact IH].
  - cbn [filter]. destruct (p x), (p y);
      try apply Permutation_refl. apply perm_swap.
  - now apply Permutation_trans with (filter p l').
Qed.

Section Distribution.
Variable field : BugData.t -> string.

Local Abbreviation counts bugs :=
  (fold_left (countStep field) bugs JsObject.empty).
Local Abbreviation under k := (fun b : BugData.t => String.eqb (field b) k).

(** What the counter dictionary holds under a name after the pass. *)
Lemma counts_get bugs k :
  JsObject.get (counts bugs) k
  = if assignable k then
      match countRecords (under k) bugs with
      | O => None
      | S n => Some (tallyOf k (S n))
      end
    else None.
Proof.
  induction bugs as [|b l IH] using rev_ind.
  - cbn. destruct (assignable k); reflexivity.
  - rewrite fold_left_app, countRecords_app.
    cbn [fold_left countRecords]. rewrite Nat.add_0_r.
    unfold countStep at 1. unfold assign.
    destruct (String.eqb (field b) "__proto__") eqn:Ep.
    + apply String.eqb_eq in Ep. rewrite IH. unfold assignable.
      destruct (String.eqb k "__proto__") eqn:Ek; [reflexivity|].
      cbn [negb]. rewrite Ep.
      replace (String.eqb "__proto__" k) with false
        by (symmetry; now rewrite String.eqb_sym).
      now rewrite Nat.add_0_r.
    + rewrite JsObjectFacts.get_set.
      rewrite (String.eqb_sym k (field b)).
      destruct (String.eqb (field b) k) eqn:Ek.
      * apply String.eqb_eq in Ek. subst k.
        unfold assignable. rewrite Ep. cbn [negb].
        unfold orZeroPlusOne. rewrite IH. unfold assignable.
        rewrite Ep. cbn [negb].
        destruct (countRecords (under (field b)) l) as [|n].
        -- unfold tallyOf. reflexivity.
        -- unfold tallyOf.
           destruct (JsObject.inherited (field b)); reflexivity.
      * rewrite Nat.add_0_r. exact IH.
Qed.

Lemma counts_keys bugs :
  JsObject.keys (counts bugs)
  = firstSeen (map field (filter (fun b => assignable (field b)) bugs)).
Proof.
  induction bugs as [|b l IH] using rev_ind; [reflexivity|].
  rewrite fold_left_app, filter_app. cbn [fold_left].
  unfold countStep at 1. unfold assign.
  assert (Hf : filter (fun b0 => assignable (field b0)) [b]
               = if String.eqb (field b) "__proto__" then [] else [b]).
  { cbn [filter]. unfold assignable.
    destruct (String.eqb (field b) "__proto__"); reflexivity. }
  rewrite Hf.
  destruct (String.eqb (field b) "__proto__") eqn:Ep.
  - rewrite app_nil_r. exact IH.
  - rewrite keys_set, map_app. cbn [map]. rewrite firstSeen_snoc, IH.
    destruct (in_dec string_dec (field b)
                (firstSeen (map field (filter (fun b0 => assignable (field b0)) l))))
      as [Hin|Hn];
      destruct (in_dec string_dec (field b)
                  (map field (filter (fun b0 => assignable (field b0)) l)))
      as [Hin'|Hn']; try reflexivity.
    + exfalso. apply Hn'. now apply firstSeen_In.
    + exfalso. apply Hn. now apply firstSeen_In.
Qed.

Lemma counts_NoDup bugs : NoDup (JsObject.keys (counts bugs)).
Proof. rewrite counts_keys. apply firstSeen_NoDup. Qed.

(** An entry of the dictionary holds the tally of the records of its
    name, of which there is at least one. *)
Lemma counts_entry bugs k v :
  In (k, v) (counts bugs) ->
  assignable k = true
  /\ (1 <= countRecords (under k) bugs)%nat
  /\ v = tallyOf k (countRecords (under k) bugs).
Proof.
  intros Hin.
  pose proof (JsObjectFacts.In_get _ _ _ (counts_NoDup bugs) Hin) as Hg.
  rewrite counts_get in Hg.
  destruct (assignable k); [|discriminate].
  destruct (countRecords (under k) bugs) as [|n]; [discriminate|].
  inversion Hg. split; [reflexivity|]. split; [lia | reflexivity].
Qed.

Lemma counts_present bugs b :
  In b bugs -> assignable (field b) = true ->
  exists v, In (field b, v) (counts bugs).
Proof.
  intros Hin Ha.
  assert (Hc : (1 <= countRecords (under (field b)) bugs)%nat).
  { apply countRecords_pos. exists b. split; [exact Hin|].
    apply String.eqb_refl. }
  pose proof (counts_get bugs (field b)) as Hg. rewrite Ha in Hg.
  destruct (countRecords (under (field b)) bugs) as [|n]; [lia|].
  eexists. apply JsObjectFacts.get_In. exact Hg.
Qed.

Local Abbreviation total o :=
  (sumNat (map (fun e : string * tally => countOf (snd e)) o)).

Lemma total_set_fresh (o : JsObject.t tally) k v :
  JsObject.get o k = None ->
  total (JsObject.set o k v) = (total o + countOf v)%nat.
Proof.
  intros H. rewrite (JsObjectFacts.set_fresh o k v H), map_app, sumNat_app.
  cbn [map sumNat snd]. lia.
Qed.

Lemma total_set_own (o : JsObject.t tally) k v v0 :
  JsObject.get o k = Some v0 ->
  (total (JsObject.set o k v) + countOf v0 = total o + countOf v)%nat.
Proof.
  induction o as [|[k1 v1] o IH]; cbn [JsObject.get JsObject.set];
    [discriminate|].
  destruct (String.eqb k k1).
  - intros H. inversion H. subst v1. cbn [map sumNat snd]. lia.
  - intros H. specialize (IH H). cbn [map sumNat snd]. lia.
Qed.

(** The numbers of the dictionary add up to the number of records whose
    name is not an inherited one. *)
Lemma counts_total bugs :
  total (counts bugs)
  = countRecords (fun b => negb (JsObject.inherited (field b))) bugs.
Proof.
  induction bugs as [|b l IH] using rev_ind; [reflexivity|].
  rewrite fold_left_app, countRecords_app.
  cbn [fold_left countRecords]. rewrite Nat.add_0_r, <- IH.
  unfold countStep at 1. unfold assign.
  destruct (String.eqb (field b) "__proto__") eqn:Ep.
  - apply String.eqb_eq in Ep. rewrite Ep. cbn. lia.
  - pose proof (counts_get l (field b)) as Hg.
    unfold assignable in Hg. rewrite Ep in Hg. cbn [negb] in Hg.
    unfold orZeroPlusOne. rewrite Hg.
    destruct (countRecords (under (field b)) l) as [|n].
    + rewrite (total_set_fresh _ _ _ Hg).
      destruct (JsObject.inherited (field b)); reflexivity.
    + pose proof (total_set_own (counts l) (field b)) as Hs.
      unfold tallyOf in *.
      destruct (JsObject.inherited (field b)).
      * specialize (Hs (MemberText (field b) (S n + 1)) _ Hg).
        cbn [countOf negb] in *. lia.
      * specialize (Hs (Count (S n + 1)) _ Hg).
        cbn [countOf negb] in *. lia.
Qed.

Lemma ordinary_assignable k : JsObject.inherited k = false -> assignable k = true.
Proof.
  intros H. unfold assignable. destruct (String.eqb k "__proto__") eqn:E;
    [|reflexivity].
  apply String.eqb_eq in E. subst k. discriminate.
Qed.

Lemma filter_absent (o : JsObject.t tally) k :
  JsObject.get o k = None -> filter (fun e => String.eqb (fst e) k) o = [].
Proof.
  induction o as [|[k0 v0] o IH]; [reflexivity|].
  cbn [JsObject.get filter fst]. rewrite (String.eqb_sym k0 k).
  destruct (String.eqb k k0); [discriminate | exact IH].
Qed.

Lemma total_under (o : JsObject.t tally) k :
  NoDup (JsObject.keys o) ->
  total (filter (fun e => String.eqb (fst e) k) o)
  = match JsObject.get o k with
    | Some v => countOf v
    | None => 0%nat
    end.
Proof.
  induction o as [|[k0 v0] o IH]; [reflexivity|].
  intros Hnd. inversion Hnd as [|? ? Hnot Hnd']; subst.
  cbn [JsObject.get filter fst]. rewrite (String.eqb_sym k0 k).
  destruct (String.eqb k k0) eqn:E.
  - apply String.eqb_eq in E. subst k0.
    rewrite filter_absent by (now apply JsObjectFacts.get_None_keys).
    cbn [map sumNat snd]. lia.
  - now apply IH.
Qed.

(** The numbers of the entries of one name add up to the number of records
    of that name. *)
Lemma entries_under bugs k :
  JsObject.inherited k = false ->
  total (filter (fun e => String.eqb (fst e) k) (JsObject.entries (counts bugs)))
  = countRecords (under k) bugs.
Proof.
  intros Hk.
  rewrite (sumNat_perm _
             (map (fun e => countOf (snd e))
                (filter (fun e => String.eqb (fst e) k) (counts bugs)))).
  - rewrite (total_under _ _ (counts_NoDup bugs)), counts_get.
    rewrite (ordinary_assignable k Hk).
    destruct (countRecords (under k) bugs) as [|n]; [reflexivity|].
    unfold tallyOf. now rewrite Hk.
  - apply Permutation_map, Permutation_filter, enumerate_perm.
Qed.

(** The numbers of the entries whose name is one of [names] add up to the
    number of records whose name is one of them. *)
Lemma entries_of_names bugs names :
  NoDup names -> Forall (fun k => JsObject.inherited k = false) names ->
  total (filter (fun e => includes names (fst e))
           (JsObject.entries (counts bugs)))
  = countRecords (fun b => includes names (field b)) bugs.
Proof.
  intros Hnd Hord. induction Hnd as [|k rest Hnot Hnd IH].
  - unfold includes. cbn [existsb].
    rewrite filter_none, countRecords_none. reflexivity.
  - inversion Hord as [|? ? Hk Hrest]; subst.
    assert (Hdisj : forall s, String.eqb s k = true -> includes rest s = false).
    { intros s E. apply String.eqb_eq in E. subst s.
      apply not_true_iff_false. intros H. now apply includes_In in H. }
    unfold includes. cbn [existsb]. fold (includes rest).
    rewrite (total_filter_or (fun e => countOf (snd e))
               (fun e => String.eqb (fst e) k)
               (fun e => includes rest (fst e)))
      by (intros e; apply Hdisj).
    rewrite (countRecords_or (under k) (fun b => includes rest (field b)))
      by (intros b; apply Hdisj).
    rewrite (entries_under bugs k Hk), (IH Hrest). reflexivity.
Qed.

(** The entries of the dictionary in the order of enumeration. *)
Lemma distribution_entries bugs :
  let es := JsObject.entries (counts bugs) in
  map fst es
  = propertyOrder
      (firstSeen (map field (filter (fun b => assignable (field b)) bugs)))
  /\ NoDup (map fst es)
  /\ Forall (fun e =>
       (1 <= countRecords (under (fst e)) bugs)%nat
       /\ snd e = tallyOf (fst e) (countRecords (under (fst e)) bugs)) es
  /\ sumNat (map (fun e => countOf (snd e)) es)
     = countRecords (fun b => negb (JsObject.inherited (field b))) bugs
  /\ (forall b, In b bugs -> assignable (field b) = true ->
                In (field b) (map fst es)).
Proof.
  cbv zeta. unfold JsObject.entries.
  pose proof (enumerate_perm fst (counts bugs)) as Hperm.
  split.
  { rewrite enumerate_names. unfold propertyOrder.
    fold (JsObject.keys (counts bugs)). now rewrite counts_keys. }
  split.
  { apply (Permutation_NoDup (l := JsObject.keys (counts bugs))).
    - apply Permutation_sym. unfold JsObject.keys.
      now apply Permutation_map.
    - apply counts_NoDup. }
  split.
  { apply Forall_forall. intros [k v] Hin. apply enumerate_In in Hin.
    destruct (counts_entry bugs k v Hin) as (_ & H1 & H2).
    split; assumption. }
  split.
  { rewrite <- counts_total. apply sumNat_perm.
    now apply Permutation_map. }
  intros b Hin Ha. destruct (counts_present bugs b Hin Ha) as [v Hv].
  apply in_map_iff. exists (field b, v). split; [reflexivity|].
  now apply enumerate_In.
Qed.

End Distribution.

Lemma colorOr_listed colors name :
  Forall (fun e => JsObject.inherited (fst e) = false /\ snd e <> ""%string)
    colors ->
  colorOr colors name
  = if JsObject.inherited name then Member name
    else Color (listedColor colors name).
Proof.
  unfold colorOr, listedColor. intros H.
  induction H as [|[k hex] rest [Hk Hhex] Hrest IH]; cbn [JsObject.get find fst snd].
  - destruct (JsObject.inherited name); reflexivity.
  - rewrite (String.eqb_sym k name).
    destruct (String.eqb name k) eqn:E; [|exact IH].
    apply String.eqb_eq in E. subst k. cbn [fst snd] in *. rewrite Hk.
    unfold strOr. destruct (String.eqb hex "") eqn:Eh; [|reflexivity].
    apply String.eqb_eq in Eh. contradiction.
Qed.

Lemma SEVERITY_COLORS_listed :
  Forall (fun e => JsObject.inherited (fst e) = false /\ snd e <> ""%string)
    SEVERITY_COLORS.
Proof. repeat constructor; discriminate. Qed.

Lemma STATUS_COLORS_listed :
  Forall (fun e => JsObject.inherited (fst e) = false /\ snd e <> ""%string)
    STATUS_COLORS.
Proof. repeat constructor; discriminate. Qed.

(** X9.  The severity distribution has one row per severity met, the names in the
    order of property enumeration and pairwise distinct, and no row for a
    severity without record.  The row of a name that [Object.prototype] does
    not define holds the number of records of that severity, with the
    table's colour for a known severity and "#6b7280" for any other; the
    numbers add up to the number of records of such a severity. *)
Theorem calculateSeverityData_counts (bugs : list BugData.t) :
  let out := calculateSeverityData bugs in
  map SeverityData.name out
  = propertyOrder
      (firstSeen (map BugData.severity
                    (filter (fun bug => assignable (BugData.severity bug)) bugs)))
  /\ NoDup (map SeverityData.name out)
  /\ Forall (fun row =>
       let n := countRecords
                  (fun bug => String.eqb (BugData.severity bug)
                                (SeverityData.name row)) bugs in
       (1 <= n)%nat
       /\ SeverityData.value row = tallyOf (SeverityData.name row) n
       /\ (JsObject.inherited (SeverityData.name row) = false ->
           SeverityData.value row = Count n
           /\ SeverityData.color row
              = Color (listedColor SEVERITY_COLORS (SeverityData.name row))))
       out
  /\ sumNat (severityCounts out)
     = countRecords
         (fun bug => negb (JsObject.inherited (BugData.severity bug))) bugs
  /\ (bugs = [] -> out = []).
Proof.
  cbv zeta. unfold calculateSeverityData, severityCounts.
  destruct (distribution_entries BugData.severity bugs)
    as (Hnames & Hnd & Hrows & Hsum & _).
  cbv zeta in *.
  set (es := JsObject.entries
               (fold_left (countStep BugData.severity) bugs JsObject.empty)) in *.
  assert (Hn : map SeverityData.name
                 (map (fun '(name, value) =>
                         {| SeverityData.name := name;
                            SeverityData.value := value;
                            SeverityData.color := colorOr SEVERITY_COLORS name |})
                    es) = map fst es).
  { rewrite map_map. apply map_ext. now intros [k v]. }
  rewrite Hn.
  split; [exact Hnames|]. split; [exact Hnd|]. split.
  { apply Forall_map. rewrite Forall_forall in *. intros [k v] Hin.
    destruct (Hrows (k, v) Hin) as [H1 H2]. cbn [fst snd] in *.
    cbn [SeverityData.name SeverityData.value SeverityData.color].
    split; [exact H1|]. split; [exact H2|]. intros Hk. split.
    - rewrite H2. unfold tallyOf. now rewrite Hk.
    - rewrite (colorOr_listed _ _ SEVERITY_COLORS_listed). now rewrite Hk. }
  split.
  { rewrite <- Hsum, map_map. f_equal. apply map_ext. now intros [k v]. }
  intros ->. reflexivity.
Qed.

(** X10.  The status distribution: one row per status met, names in the order of
    property enumeration and pairwise distinct, no row for a status without
    record; the row of a name that [Object.prototype] does not define holds
    the number of records of that status, with the table's colour for a
    known status and "#6b7280" for any other; the numbers add up to the
    number of records of such a status. *)
Theorem calculateStatusData_counts (bugs : list BugData.t) :
  let out := calculateStatusData bugs in
  map StatusData.name out
  = propertyOrder
      (firstSeen (map BugData.status
                    (filter (fun bug => assignable (BugData.status bug)) bugs)))
  /\ NoDup (map StatusData.name out)
  /\ Forall (fun row =>
       let n := countRecords
                  (fun bug => String.eqb (BugData.status bug)
                                (StatusData.name row)) bugs in
       (1 <= n)%nat
       /\ StatusData.value row = tallyOf (StatusData.name row) n
       /\ (JsObject.inherited (StatusData.name row) = false ->
           StatusData.value row = Count n
           /\ StatusData.color row
              = Color (listedColor STATUS_COLORS (StatusData.name row))))
       out
  /\ sumNat (statusCounts out)
     = countRecords
         (fun bug => negb (JsObject.inherited (BugData.status bug))) bugs
  /\ (bugs = [] -> out = []).
Proof.
  cbv zeta. unfold calculateStatusData, statusCounts.
  destruct (distribution_entries BugData.status bugs)
    as (Hnames & Hnd & Hrows & Hsum & _).
  cbv zeta in *.
  set (es := JsObject.entries
               (fold_left (countStep BugData.status) bugs JsObject.empty)) in *.
  assert (Hn : map StatusData.name
                 (map (fun '(name, value) =>
                         {| StatusData.name := name;
                            StatusData.value := value;
                            StatusData.color := colorOr STATUS_COLORS name |})
                    es) = map fst es).
  { rewrite map_map. apply map_ext. now intros [k v]. }
  rewrite Hn.
  split; [exact Hnames|]. split; [exact Hnd|]. split.
  { apply Forall_map. rewrite Forall_forall in *. intros [k v] Hin.
    destruct (Hrows (k, v) Hin) as [H1 H2]. cbn [fst snd] in *.
    cbn [StatusData.name StatusData.value StatusData.color].
    split; [exact H1|]. split; [exact H2|]. intros Hk. split.
    - rewrite H2. unfold tallyOf. now rewrite Hk.
    - rewrite (colorOr_listed _ _ STATUS_COLORS_listed). now rewrite Hk. }
  split.
  { rewrite <- Hsum, map_map. f_equal. apply map_ext. now intros [k v]. }
  intros ->. reflexivity.
Qed.

Lemma filter_map_comm {X Y : Type} (f : X -> Y) (p : Y -> bool) l :
  filter p (map f l) = map f (filter (fun x => p (f x)) l).
Proof.
  induction l as [|x l IH]; [reflexivity|]. cbn [map filter].
  destruct (p (f x)); cbn [map]; now rewrite IH.
Qed.

Lemma statusRows_of_names bugs names :
  NoDup names -> Forall (fun k => JsObject.inherited k = false) names ->
  sumNat (statusCounts (rowsOf names (calculateStatusData bugs)))
  = countRecords (statusIn names) bugs.
Proof.
  intros Hnd Hord. unfold statusCounts, rowsOf, calculateStatusData.
  rewrite filter_map_comm, map_map.
  rewrite (countRecords_ext (statusIn names)
             (fun b => includes names (BugData.status b)))
    by (intros b; apply statusIn_includes).
  rewrite <- (entries_of_names BugData.status bugs names Hnd Hord).
  f_equal. rewrite (filter_ext _ (fun e => includes names (fst e)))
    by (now intros [k v]).
  apply map_ext. now intros [k v].
Qed.

(** X11.  The status distribution agrees with the counts of the summary: the rows
    named Accepted, Resolved and Bounty Awarded add up to [acceptedBugs],
    the rows named Duplicate and Not Applicable to [rejectedBugs], the rows
    named Draft, Submitted and Triaged to [pendingBugs]. *)
Theorem status_distribution_matches_summary (tz now : Z)
  (filteredBugs allBugs : list BugData.t) :
  let stats := calculateStats tz now filteredBugs allBugs in
  let rows := calculateStatusData filteredBugs in
  sumNat (statusCounts (rowsOf ["Accepted"; "Resolved"; "Bounty Awarded"]%string
                          rows))
  = AnalyticsStats.acceptedBugs stats
  /\ sumNat (statusCounts (rowsOf ["Duplicate"; "Not Applicable"]%string rows))
     = AnalyticsStats.rejectedBugs stats
  /\ sumNat (statusCounts (rowsOf ["Draft"; "Submitted"; "Triaged"]%string rows))
     = AnalyticsStats.pendingBugs stats.
Proof.
  cbv zeta. unfold calculateStats.
  cbn [AnalyticsStats.acceptedBugs AnalyticsStats.rejectedBugs
       AnalyticsStats.pendingBugs].
  rewrite !countRecords_includes.
  repeat match goal with |- _ /\ _ => split end;
    apply statusRows_of_names;
    repeat constructor; cbn; intuition discriminate.
Qed.

Lemma countRecords_all p bugs :
  Forall (fun b => p b = true) bugs -> countRecords p bugs = List.length bugs.
Proof.
  intros H. induction H as [|b l Hb Hl IH]; [reflexivity|].
  cbn [countRecords List.length]. rewrite Hb, IH. reflexivity.
Qed.

(** X12.  When no severity and no status is a name that [Object.prototype]
    defines, both distributions count every record once: every row holds a
    number, the numbers of either distribution add up to [totalBugs], and
    every record has a row under its severity and a row under its
    status. *)
Theorem distributions_add_up_to_totalBugs (tz now : Z)
  (filteredBugs allBugs : list BugData.t) :
  Forall (fun bug => JsObject.inherited (BugData.severity bug) = false
                     /\ JsObject.inherited (BugData.status bug) = false)
    filteredBugs ->
  let total :=
    AnalyticsStats.totalBugs (calculateStats tz now filteredBugs allBugs) in
  let severities := calculateSeverityData filteredBugs in
  let statuses := calculateStatusData filteredBugs in
  sumNat (severityCounts severities) = total
  /\ sumNat (statusCounts statuses) = total
  /\ Forall (fun bug =>
       In (BugData.severity bug) (map SeverityData.name severities)
       /\ In (BugData.status bug) (map StatusData.name statuses))
       filteredBugs.
Proof.
  intros Hord. cbv zeta. unfold calculateStats. cbn [AnalyticsStats.totalBugs].
  unfold calculateSeverityData, calculateStatusData, severityCounts,
    statusCounts.
  destruct (distribution_entries BugData.severity filteredBugs)
    as (_ & _ & _ & Hsum1 & Hin1).
  destruct (distribution_entries BugData.status filteredBugs)
    as (_ & _ & _ & Hsum2 & Hin2).
  cbv zeta in *. rewrite !map_map.
  split; [|split].
  - rewrite <- (countRecords_all
                  (fun b => negb (JsObject.inherited (BugData.severity b)))
                  filteredBugs).
    + rewrite <- Hsum1. f_equal. apply map_ext. now intros [k v].
    + eapply Forall_impl; [|exact Hord]. cbv beta. intros b [H _].
      now rewrite H.
  - rewrite <- (countRecords_all
                  (fun b => negb (JsObject.inherited (BugData.status b)))
                  filteredBugs).
    + rewrite <- Hsum2. f_equal. apply map_ext. now intros [k v].
    + eapply Forall_impl; [|exact Hord]. cbv beta. intros b [_ H].
      now rewrite H.
  - rewrite Forall_forall in *. intros b Hb. destruct (Hord b Hb) as [H1 H2].
    split.
    + specialize (Hin1 b Hb (ordinary_assignable _ H1)).
      erewrite map_ext; [exact Hin1|]. now intros [k v].
    + specialize (Hin2 b Hb (ordinary_assignable _ H2)).
      erewrite map_ext; [exact Hin2|]. now intros [k v].
Qed.

Lemma distributions_add_up_to_totalBugs_witness :
  sumNat (severityCounts (calculateSeverityData twoCompanies)) = 2%nat
  /\ sumNat (statusCounts (calculateStatusData twoCompanies)) = 2%nat
  /\ map StatusData.name (calculateStatusData twoCompanies)
     = ["Resolved"; "Duplicate"]%string.
Proof.
  pose proof (distributions_add_up_to_totalBugs 0 0 twoCompanies []) as H.
  cbv zeta in H. destruct H as (H1 & H2 & _).
  - repeat constructor.
  - split; [exact H1|]. split; [exact H2 | reflexivity].
Defined.

(** Severities named after members of [Object.prototype]: two records of a
    severity "constructor" give a row whose value is the text of the
    inherited function followed by "11" and whose colour is that function;
    a record of a severity "__proto__" gives no row. *)
Example distribution_of_inherited_names :
  calculateSeverityData
    [bugOfSeverity "constructor"; bugOfSeverity "High";
     bugOfSeverity "constructor"; bugOfSeverity "__proto__"]
  = [ {| SeverityData.name := "constructor";
         SeverityData.value := MemberText "constructor" 2;
         SeverityData.color := Member "constructor" |};
      {| SeverityData.name := "High";
         SeverityData.value := Count 1;
         SeverityData.color := Color "#f97316" |} ].
Proof. reflexivity. Qed.

(** ** The rollups: order, success rates, what the leaderboard leaves out *)

(** X13.  In the platform rollup no row is followed by a row of greater
    earnings, the earnings of a row being the binary64 sum that the code
    computes.  Rows of equal earnings stand in the order in which
    [Object.entries] lists their names: for every amount, the rows of that
    amount are the groups of that amount in that order, which is the order
    of their first records when no platform name is an array index. *)
Theorem platform_rollup_sorted_stable (bugs : list Binary64.BugData.t) :
  let out := Binary64.calculatePlatformData bugs in
  let names :=
    firstSeen (map Binary64.platformName
                 (grouped Binary64.platformName bugs)) in
  Sorted (fun a b => (Binary64.PlatformData.earnings a
                      <? Binary64.PlatformData.earnings b)%float = false) out
  /\ (forall e : float,
        map Binary64.PlatformData.name
          (filter (fun g => (Binary64.PlatformData.earnings g =? e)%float) out)
        = filter (fun k => (Binary64.platformEarnings bugs k =? e)%float)
            (propertyOrder names))
  /\ (Forall (fun bug => JsObject.arrayIndex (Binary64.platformName bug) = None)
        bugs ->
      forall e : float,
        map Binary64.PlatformData.name
          (filter (fun g => (Binary64.PlatformData.earnings g =? e)%float) out)
        = filter (fun k => (Binary64.platformEarnings bugs k =? e)%float)
            names).
Proof.
  intros out names.
  destruct (platform_rollup64_order bugs) as [H1 H2].
  split; [exact H1|]. split; [exact H2|].
  intros Hidx e. specialize (H2 e).
  now rewrite (firstSeen_named Binary64.platformName bugs Hidx) in H2.
Qed.

(** X13 on records of seven platforms, none named by an array index.
    "Synack" (1000) comes first; "Intigriti" and "YesWeHack" (500 each)
    tie and keep their encounter order; "HackerOne", met after "Bugcrowd",
    has earned 0.1 + 0.2 = 0.30000000000000004 and comes before it;
    "Immunefi" and "Unknown" tie at 0 and keep their encounter order. *)
Lemma platform_rollup_sorted_stable_witness :
  Forall (fun bug => JsObject.arrayIndex (Binary64.platformName bug) = None)
    Binary64.sevenPrograms
  /\ firstSeen (map Binary64.platformName
                  (grouped Binary64.platformName Binary64.sevenPrograms))
     = ["Bugcrowd"; "HackerOne"; "Intigriti"; "YesWeHack"; "Synack";
        "Immunefi"; "Unknown"]%string
  /\ map Binary64.PlatformData.name
       (Binary64.calculatePlatformData Binary64.sevenPrograms)
     = ["Synack"; "Intigriti"; "YesWeHack"; "HackerOne"; "Bugcrowd";
        "Immunefi"; "Unknown"]%string
  /\ (forall e : float,
        map Binary64.PlatformData.name
          (filter (fun g => (Binary64.PlatformData.earnings g =? e)%float)
             (Binary64.calculatePlatformData Binary64.sevenPrograms))
        = filter (fun k => (Binary64.platformEarnings Binary64.sevenPrograms k
                            =? e)%float)
            (firstSeen (map Binary64.platformName
                          (grouped Binary64.platformName
                             Binary64.sevenPrograms)))).
Proof.
  assert (Hidx : Forall (fun bug => JsObject.arrayIndex
                                      (Binary64.platformName bug) = None)
                   Binary64.sevenPrograms) by (repeat constructor).
  split; [exact Hidx|].
  split; [vm_compute; reflexivity|].
  split; [vm_compute; reflexivity|].
  exact (proj2 (proj2
           (platform_rollup_sorted_stable Binary64.sevenPrograms)) Hidx).
Defined.

(** X24.  The earnings of every row of the platform rollup are the amounts
    of the records of its platform name, added up in binary64 from 0 in
    the order of the records.  The earnings of the rows need not add up to
    [totalEarnings], the amounts of all the records added up in the same
    way: of three records of 0.1, 0.1 and 1.1, the second one on a
    platform of its own, the rows earn 0.1 + 1.1 = 1.2000000000000002 and
    0.1, in total 1.3000000000000003, and [totalEarnings] is
    0.1 + 0.1 + 1.1 = 1.3. *)
Theorem platform_earnings_are_binary64_sums (bugs : list Binary64.BugData.t) :
  Forall (fun g =>
    Binary64.PlatformData.earnings g
    = Binary64.platformEarnings bugs (Binary64.PlatformData.name g))
    (Binary64.calculatePlatformData bugs)
  /\ map Binary64.PlatformData.name
       (Binary64.calculatePlatformData Binary64.threeAmounts)
     = ["HackerOne"; "Bugcrowd"]%string
  /\ (Binary64.sumBounty Binary64.threeAmounts
      <? Binary64.sum (map Binary64.PlatformData.earnings
                         (Binary64.calculatePlatformData
                            Binary64.threeAmounts)))%float = true.
Proof.
  split; [|split; vm_compute; reflexivity].
  apply Forall_forall. intros g Hg. apply platformRows64_earnings.
  eapply Permutation_in; [|exact Hg].
  apply (Array_sort64_perm Binary64.PlatformData.earnings).
Qed.

Lemma accepted_resolved s :
  includes acceptedStatuses s = true -> includes resolvedStatuses s = true.
Proof.
  intros H. apply includes_In in H. apply includes_In.
  unfold resolvedStatuses. apply in_or_app. now left.
Qed.

Lemma platformUpd_accepted bug a :
  PlatformAcc.accepted (platformUpd bug a)
  = (PlatformAcc.accepted a
     + if includes acceptedStatuses (BugData.status bug) then 1 else 0)%nat.
Proof.
  unfold platformUpd.
  pose proof (accepted_resolved (BugData.status bug)) as H.
  destruct (includes acceptedStatuses (BugData.status bug)).
  - rewrite (H eq_refl). reflexivity.
  - destruct (includes resolvedStatuses (BugData.status bug));
      cbn; lia.
Qed.

Lemma platformUpd_total bug a :
  PlatformAcc.total (platformUpd bug a)
  = (PlatformAcc.total a
     + if includes resolvedStatuses (BugData.status bug) then 1 else 0)%nat.
Proof.
  unfold platformUpd.
  destruct (includes resolvedStatuses (BugData.status bug));
    [destruct (includes acceptedStatuses (BugData.status bug))|];
    cbn; lia.
Qed.

Lemma programUpd_accepted bug a :
  ProgramAcc.accepted (programUpd bug a)
  = (ProgramAcc.accepted a
     + if includes acceptedStatuses (BugData.status bug) then 1 else 0)%nat.
Proof.
  unfold programUpd.
  pose proof (accepted_resolved (BugData.status bug)) as H.
  destruct (includes acceptedStatuses (BugData.status bug)).
  - rewrite (H eq_refl). reflexivity.
  - destruct (includes resolvedStatuses (BugData.status bug));
      cbn; lia.
Qed.

Lemma programUpd_total bug a :
  ProgramAcc.total (programUpd bug a)
  = (ProgramAcc.total a
     + if includes resolvedStatuses (BugData.status bug) then 1 else 0)%nat.
Proof.
  unfold programUpd.
  destruct (includes resolvedStatuses (BugData.status bug));
    [destruct (includes acceptedStatuses (BugData.status bug))|];
    cbn; lia.
Qed.

Lemma sumNat_indicator (p : BugData.t -> bool) (statuses : list string) bugs :
  sumNat (map (fun b => if includes statuses (BugData.status b)
                        then 1%nat else 0%nat) (filter p bugs))
  = countRecords (fun b => p b && statusIn statuses b) bugs.
Proof.
  induction bugs as [|b l IH]; [reflexivity|].
  cbn [filter countRecords]. rewrite statusIn_includes.
  destruct (p b); cbn [andb map sumNat]; rewrite IH; reflexivity.
Qed.

Lemma countRecords_le (p q : BugData.t -> bool) bugs :
  (forall b, p b = true -> q b = true) ->
  (countRecords p bugs <= countRecords q bugs)%nat.
Proof.
  intros H. induction bugs as [|b l IH]; [apply Nat.le_refl|].
  cbn [countRecords]. specialize (H b).
  destruct (p b); [rewrite (H eq_refl)|destruct (q b)]; lia.
Qed.

(** *** The integer success rate *)

Lemma Math_round64_shift x : Math_round64 x = roundByShift x.
Proof.
  unfold Math_round64, realOf, roundByShift.
  destruct (Prim2SF x) as [s|s| |s m e]; try reflexivity.
  destruct (0 <=? e) eqn:E; [apply Math_round_integer|].
  apply Z.leb_gt in E.
  assert (Hp : 0 < 2 ^ (- e)) by (apply Z.pow_pos_nonneg; lia).
  unfold Math_round, Qfloor, Qplus. cbn [Qnum Qden].
  rewrite Z.shiftr_div_pow2 by lia.
  rewrite Pos2Z.inj_mul, Z2Pos.id by assumption.
  replace (1 - e) with (- e + 1) by lia.
  rewrite Z.pow_add_r by lia.
  f_equal; lia.
Qed.

Lemma upFrom_In z n x : z <= x < z + Z.of_nat n -> In x (upFrom z n).
Proof.
  revert z. induction n as [|n IH]; intros z H; [lia|].
  cbn [upFrom]. destruct (Z.eq_dec z x) as [->|Hne]; [now left|].
  right. apply IH. lia.
Qed.

(** The rates of all the groups that have up to 1000 records of an accepted
    or a rejected status, computed one by one. *)
Lemma rates_checked : ratesCheckedUpTo 1000 = true.
Proof. vm_compute. reflexivity. Qed.

Lemma ratesCheckedUpTo_sound n a t :
  ratesCheckedUpTo n = true ->
  1 <= t < 1 + Z.of_nat n -> 0 <= a <= t -> rateChecked a t = true.
Proof.
  unfold ratesCheckedUpTo. intros H Ht Ha.
  rewrite forallb_forall in H.
  specialize (H t (upFrom_In 1 n t Ht)).
  rewrite forallb_forall in H.
  apply H. apply upFrom_In. lia.
Qed.

Lemma rateChecked_1000 a t :
  1 <= t <= 1000 -> 0 <= a <= t -> rateChecked a t = true.
Proof.
  intros Ht Ha.
  apply (ratesCheckedUpTo_sound 1000 a t rates_checked); [|exact Ha].
  change (Z.of_nat 1000) with 1000. lia.
Qed.

Lemma counter_small n :
  (n <= 1000)%nat -> counter n = PrimFloat.of_uint63 (Uint63.of_Z (Z.of_nat n)).
Proof. intros H. unfold counter. rewrite Z.min_l by lia. reflexivity. Qed.

Lemma nearestPercent_cross a t r :
  (0 < t)%nat ->
  Z.abs (200 * Z.of_nat a - 2 * r * Z.of_nat t) <= Z.of_nat t ->
  nearestPercent a t r.
Proof.
  intros Ht H. unfold nearestPercent, num. apply Qabs_Qle_condition.
  set (A := Z.of_nat a) in *. set (T := Z.of_nat t) in *.
  assert (HT : (0 < inject_Z T)%Q)
    by (change 0%Q with (inject_Z 0); rewrite <- Zlt_Qlt; subst T; lia).
  assert (E : (inject_Z A / inject_Z T * 100 - inject_Z r
               == (inject_Z A * 100 - inject_Z r * inject_Z T) / inject_Z T)%Q).
  { field. intros H0. rewrite H0 in HT. discriminate. }
  rewrite E. split.
  - apply Qle_shift_div_l; [assumption|].
    unfold Qle, Qminus, Qplus, Qopp, Qmult, inject_Z.
    cbn [Qnum Qden Pos.mul]. lia.
  - apply Qle_shift_div_r; [assumption|].
    unfold Qle, Qminus, Qplus, Qopp, Qmult, inject_Z.
    cbn [Qnum Qden Pos.mul]. lia.
Qed.

(** For up to 1000 records of an accepted or a rejected status, the rate
    lies in 0..100 and is an integer nearest to the exact percentage. *)
Lemma roundedRate_nearest accepted total :
  (accepted <= total)%nat -> (0 < total <= 1000)%nat ->
  0 <= roundedRate accepted total <= 100
  /\ nearestPercent accepted total (roundedRate accepted total).
Proof.
  intros Hle [Hpos Hmax].
  assert (Ht : 1 <= Z.of_nat total <= 1000).
  { split; [lia|]. change 1000 with (Z.of_nat 1000). now apply Nat2Z.inj_le. }
  assert (Hn : (accepted <= 1000)%nat) by (eapply Nat.le_trans; eassumption).
  pose proof (rateChecked_1000 (Z.of_nat accepted) (Z.of_nat total) Ht
                ltac:(lia)) as H.
  unfold rateChecked in H. cbv zeta in H.
  rewrite <- Math_round64_shift in H.
  rewrite <- !counter_small in H by assumption.
  assert (E : roundedRate accepted total
              = Math_round64 (counter accepted / counter total * 100)).
  { unfold roundedRate. apply Nat.ltb_lt in Hpos. now rewrite Hpos. }
  rewrite <- E in H.
  apply andb_prop in H. destruct H as [H H3].
  apply andb_prop in H. destruct H as [H1 H2].
  apply Z.leb_le in H1, H2, H3.
  split; [lia|]. now apply nearestPercent_cross.
Qed.

(** The rate is computed in binary64: 23 of 40 is 57.5 per cent, the
    quotient 23 / 40 is rounded to a number just below 0.575 and the rate is
    57, not 58. *)
Example roundedRate_of_23_in_40 :
  roundedRate 23 40 = 57
  /\ Math_round (num 23 / num 40 * 100) = 58
  /\ roundedRate 1 3 = 33 /\ roundedRate 2 3 = 67 /\ roundedRate 1 2 = 50
  /\ roundedRate 1 8 = 13 /\ roundedRate 7 7 = 100 /\ roundedRate 0 7 = 0
  /\ roundedRate 5 0 = 0.
Proof. vm_compute. repeat split. Qed.

Lemma groupAccepted_le_resolved key bugs k :
  (groupAccepted key bugs k <= groupResolved key bugs k)%nat.
Proof.
  unfold groupAccepted, groupResolved. apply countRecords_le.
  intros b H. apply andb_true_iff in H. destruct H as [H1 H2].
  apply andb_true_iff. split; [exact H1|].
  rewrite statusIn_includes in *. apply includes_In in H2.
  apply includes_In, in_or_app. now left.
Qed.

(** What the rollups' rate of [accepted] records among [resolved] ones
    is. *)
Lemma rate_of_counts accepted resolved :
  (accepted <= resolved)%nat ->
  (resolved = 0%nat -> roundedRate accepted resolved = 0)
  /\ ((0 < resolved <= 1000)%nat ->
      0 <= roundedRate accepted resolved <= 100
      /\ nearestPercent accepted resolved (roundedRate accepted resolved)).
Proof.
  intros Hle. split.
  - intros ->. reflexivity.
  - now apply roundedRate_nearest.
Qed.

Lemma platformRows_rate bugs g :
  In g (platformRows bugs) ->
  PlatformData.successRate g
  = roundedRate (groupAccepted platformName bugs (PlatformData.name g))
      (groupResolved platformName bugs (PlatformData.name g)).
Proof.
  unfold platformRows, JsObject.entries. rewrite platformMap_run.
  intros H. apply in_map_iff in H. destruct H as [[k a] [<- Hin]].
  apply enumerate_In in Hin.
  pose proof (grouped_ordinary _ _ _ (In_run_key _ _ _ _ _ _ Hin)) as Hk.
  apply In_run in Hin.
  cbn [platformEntry PlatformData.successRate PlatformData.name].
  unfold groupAccepted, groupResolved. rewrite <- !sumNat_indicator.
  rewrite <- (grouped_filter platformName k bugs Hk).
  rewrite (groupAcc_counter platformName (fun _ => newPlatformAcc)
             platformUpd k PlatformAcc.accepted
             (fun b => if includes acceptedStatuses (BugData.status b)
                       then 1%nat else 0%nat)
             (fun _ => eq_refl) platformUpd_accepted _ a Hin).
  rewrite (groupAcc_counter platformName (fun _ => newPlatformAcc)
             platformUpd k PlatformAcc.total
             (fun b => if includes resolvedStatuses (BugData.status b)
                       then 1%nat else 0%nat)
             (fun _ => eq_refl) platformUpd_total _ a Hin).
  reflexivity.
Qed.

Lemma programRows_rate bugs p :
  In p (programRows bugs) ->
  ProgramData.successRate p
  = roundedRate (groupAccepted programName bugs (ProgramData.name p))
      (groupResolved programName bugs (ProgramData.name p)).
Proof.
  unfold programRows, JsObject.entries. rewrite programMap_run.
  intros H. apply in_map_iff in H. destruct H as [[k a] [<- Hin]].
  apply enumerate_In in Hin.
  pose proof (grouped_ordinary _ _ _ (In_run_key _ _ _ _ _ _ Hin)) as Hk.
  apply In_run in Hin.
  cbn [programEntry ProgramData.successRate ProgramData.name].
  unfold groupAccepted, groupResolved. rewrite <- !sumNat_indicator.
  rewrite <- (grouped_filter programName k bugs Hk).
  rewrite (groupAcc_counter programName
             (fun b => newProgramAcc (companyName b))
             programUpd k ProgramAcc.accepted
             (fun b => if includes acceptedStatuses (BugData.status b)
                       then 1%nat else 0%nat)
             (fun _ => eq_refl) programUpd_accepted _ a Hin).
  rewrite (groupAcc_counter programName
             (fun b => newProgramAcc (companyName b))
             programUpd k ProgramAcc.total
             (fun b => if includes resolvedStatuses (BugData.status b)
                       then 1%nat else 0%nat)
             (fun _ => eq_refl) programUpd_total _ a Hin).
  reflexivity.
Qed.

(** X14.  The success rate of every row of the platform rollup is computed
    from two counts of the records of its platform name, those of an
    accepted status and those of an accepted or a rejected status: it is
    [Math.round((accepted / total) * 100)] evaluated in binary64 on these
    counts, and 0 when the second count is 0.  The first count is at most
    the second.  For up to 1000 records of an accepted or a rejected
    status, the rate lies in 0..100 and is an integer nearest to the exact
    percentage: it differs from it by at most one half. *)
Theorem platform_rollup_rates (bugs : list BugData.t) :
  Forall (fun g =>
    let accepted := groupAccepted platformName bugs (PlatformData.name g) in
    let resolved := groupResolved platformName bugs (PlatformData.name g) in
    PlatformData.successRate g = roundedRate accepted resolved
    /\ (accepted <= resolved)%nat
    /\ (resolved = 0%nat -> PlatformData.successRate g = 0)
    /\ ((0 < resolved <= 1000)%nat ->
        0 <= PlatformData.successRate g <= 100
        /\ nearestPercent accepted resolved (PlatformData.successRate g)))
    (calculatePlatformData bugs).
Proof.
  apply Forall_forall. intros g Hg. cbv zeta.
  apply (Permutation_in _ (platformData_perm bugs)) in Hg.
  rewrite (platformRows_rate bugs g Hg).
  pose proof (groupAccepted_le_resolved platformName bugs (PlatformData.name g))
    as Hle.
  split; [reflexivity|]. split; [exact Hle|].
  now apply rate_of_counts.
Qed.

(** X14 on 40 records of one platform, 23 of an accepted status and 17 of a
    rejected one: the percentage is 57.5 and the rate, computed in
    binary64, is 57. *)
Lemma platform_rollup_rates_witness :
  map (fun g => (PlatformData.name g, PlatformData.bugs g,
                 PlatformData.successRate g))
    (calculatePlatformData fortyResolved)
  = [("Unknown"%string, 40%nat, 57)]
  /\ groupAccepted platformName fortyResolved "Unknown" = 23%nat
  /\ groupResolved platformName fortyResolved "Unknown" = 40%nat
  /\ Forall (fun g =>
       0 <= PlatformData.successRate g <= 100
       /\ nearestPercent
            (groupAccepted platformName fortyResolved (PlatformData.name g))
            (groupResolved platformName fortyResolved (PlatformData.name g))
            (PlatformData.successRate g))
       (calculatePlatformData fortyResolved).
Proof.
  assert (Ha : groupAccepted platformName fortyResolved "Unknown" = 23%nat)
    by (vm_compute; reflexivity).
  assert (Hr : groupResolved platformName fortyResolved "Unknown" = 40%nat)
    by (vm_compute; reflexivity).
  assert (Hn : map PlatformData.name (calculatePlatformData fortyResolved)
               = ["Unknown"%string]) by (vm_compute; reflexivity).
  split; [vm_compute; reflexivity|].
  split; [exact Ha|]. split; [exact Hr|].
  pose proof (platform_rollup_rates fortyResolved) as H.
  rewrite Forall_forall in H. apply Forall_forall. intros g Hg.
  destruct (H g Hg) as (_ & _ & _ & Hrate). apply Hrate.
  apply (in_map PlatformData.name) in Hg. rewrite Hn in Hg.
  destruct Hg as [<-|[]]. rewrite Hr. lia.
Defined.

Lemma NoDup_firstn {X : Type} n (l : list X) : NoDup l -> NoDup (firstn n l).
Proof.
  intros H. revert n. induction H as [|x l Hx Hl IH]; intros [|n];
    cbn [firstn]; try constructor.
  - intros Hin. apply Hx. eapply In_firstn. exact Hin.
  - apply IH.
Qed.

Lemma programRows_NoDup bugs : NoDup (map ProgramData.name (programRows bugs)).
Proof.
  rewrite programRows_names. unfold propertyOrder.
  eapply Permutation_NoDup;
    [apply Permutation_sym, enumerate_perm | apply firstSeen_NoDup].
Qed.

Lemma programRows_ordinary bugs p :
  In p (programRows bugs) -> JsObject.inherited (ProgramData.name p) = false.
Proof.
  intros Hin.
  assert (H : In (ProgramData.name p) (map ProgramData.name (programRows bugs)))
    by (now apply in_map).
  rewrite programRows_names in H. unfold propertyOrder in H.
  apply (proj1 (enumerate_In _ _ _)) in H.
  apply (proj1 (firstSeen_In _ _)) in H.
  eapply grouped_ordinary. exact H.
Qed.

Lemma topPrograms_sorted_rows bugs :
  calculateTopPrograms bugs
  = firstn 5 (Array_sort
                (fun a b => (ProgramData.earnings b - ProgramData.earnings a)%Q)
                (programRows bugs)).
Proof. reflexivity. Qed.

(** X15.  Every row of the leaderboard summarises the records of its program
    name, a name that [Object.prototype] does not define: it counts them,
    there is at least one, and its earnings are their total amount.  Its
    success rate is computed from the number of those of an accepted status
    and the number of those of an accepted or a rejected status: it is
    [Math.round((accepted / total) * 100)] evaluated in binary64 on these
    counts, 0 when the second count is 0, and for up to 1000 records of an
    accepted or a rejected status it lies in 0..100 and is an integer
    nearest to the exact percentage.  No two rows have the same name. *)
Theorem leaderboard_rows (bugs : list BugData.t) :
  let out := calculateTopPrograms bugs in
  NoDup (map ProgramData.name out)
  /\ Forall (fun p =>
       let accepted := groupAccepted programName bugs (ProgramData.name p) in
       let resolved := groupResolved programName bugs (ProgramData.name p) in
       JsObject.inherited (ProgramData.name p) = false
       /\ (1 <= ProgramData.bugs p)%nat
       /\ ProgramData.bugs p
          = countRecords
              (fun bug => String.eqb (programName bug) (ProgramData.name p))
              bugs
       /\ (ProgramData.earnings p
           == programEarnings bugs (ProgramData.name p))%Q
       /\ ProgramData.successRate p = roundedRate accepted resolved
       /\ (accepted <= resolved)%nat
       /\ (resolved = 0%nat -> ProgramData.successRate p = 0)
       /\ ((0 < resolved <= 1000)%nat ->
           0 <= ProgramData.successRate p <= 100
           /\ nearestPercent accepted resolved (ProgramData.successRate p)))
       out.
Proof.
  cbv zeta. split.
  - rewrite topPrograms_sorted_rows, <- firstn_map. apply NoDup_firstn.
    eapply Permutation_NoDup; [|apply programRows_NoDup].
    apply Permutation_map, Permutation_sym, Array_sort_perm.
  - apply Forall_forall. intros p Hp. apply In_topPrograms in Hp.
    destruct (programRows_group bugs p Hp) as (Hc & He & b0 & Hf & _).
    split; [now apply (programRows_ordinary bugs)|].
    split.
    { rewrite Hc. apply find_some in Hf. destruct Hf as [Hin Hm].
      assert (Hin' : In b0 (filter (fun b => String.eqb (programName b)
                                                (ProgramData.name p)) bugs))
        by (apply filter_In; now split).
      destruct (filter _ bugs); [destruct Hin' | cbn [List.length]; lia]. }
    split; [now rewrite countRecords_filter|].
    split; [exact He|].
    rewrite (programRows_rate bugs p Hp).
    pose proof (groupAccepted_le_resolved programName bugs (ProgramData.name p))
      as Hle.
    split; [reflexivity|]. split; [exact Hle|].
    now apply rate_of_counts.
Qed.

Lemma StronglySorted_app {X : Type} (R : X -> X -> Prop) l1 l2 x y :
  StronglySorted R (l1 ++ l2) -> In x l1 -> In y l2 -> R x y.
Proof.
  induction l1 as [|a l1 IH]; intros Hs Hx Hy; [destruct Hx|].
  cbn [app] in Hs. inversion Hs as [|? ? Hs' Hall]; subst.
  destruct Hx as [->|Hx].
  - rewrite Forall_forall in Hall. apply Hall, in_or_app. now right.
  - now apply IH.
Qed.

(** X16.  The leaderboard lists the programs that earned most: it has as many
    rows as there are program names that [Object.prototype] does not
    define, up to 5, and a program that is left out has earned at most as
    much as every program listed. *)
Theorem leaderboard_lists_the_highest (bugs : list BugData.t) :
  let out := calculateTopPrograms bugs in
  let names := firstSeen (map programName (grouped programName bugs)) in
  List.length out = Nat.min 5 (List.length names)
  /\ (forall k, In k (map ProgramData.name out) -> In k names)
  /\ (forall k p, In k names -> ~ In k (map ProgramData.name out) ->
                  In p out ->
                  (programEarnings bugs k <= ProgramData.earnings p)%Q).
Proof.
  cbv zeta. rewrite topPrograms_sorted_rows.
  set (sorted := Array_sort
                   (fun a b => (ProgramData.earnings b - ProgramData.earnings a)%Q)
                   (programRows bugs)).
  assert (Hperm : Permutation sorted (programRows bugs))
    by apply Array_sort_perm.
  assert (Hnames : Permutation (map ProgramData.name (programRows bugs))
                     (firstSeen (map programName (grouped programName bugs)))).
  { rewrite programRows_names. apply enumerate_perm. }
  split; [|split].
  - rewrite length_firstn. f_equal.
    rewrite (Permutation_length Hperm), <- (Permutation_length Hnames).
    now rewrite length_map.
  - intros k Hk. apply (Permutation_in _ Hnames).
    apply in_map_iff in Hk. destruct Hk as (p & <- & Hp).
    apply in_map. apply (Permutation_in _ Hperm). eapply In_firstn. exact Hp.
  - intros k p Hk Hout Hp.
    apply (Permutation_in _ (Permutation_sym Hnames)) in Hk.
    apply in_map_iff in Hk. destruct Hk as (q & <- & Hq).
    destruct (programRows_group bugs q Hq) as (_ & He & _).
    unfold programEarnings. rewrite <- He.
    apply (Permutation_in _ (Permutation_sym Hperm)) in Hq.
    rewrite <- (firstn_skipn 5 sorted) in Hq. apply in_app_or in Hq.
    destruct Hq as [Hq|Hq]; [exfalso; apply Hout; now apply in_map|].
    assert (Hs : StronglySorted
                   (fun a b => (ProgramData.earnings b
                                <= ProgramData.earnings a)%Q)
                   (firstn 5 sorted ++ skipn 5 sorted)).
    { rewrite firstn_skipn. apply Sorted_StronglySorted.
      - intros a b c Hab Hbc. eapply Qle_trans; eassumption.
      - apply (Array_sort_sorted ProgramData.earnings). }
    exact (StronglySorted_app _ _ _ p q Hs Hp Hq).
Qed.

(** ** The monthly series as a whole *)

Lemma existsb_map {X Y : Type} (f : Y -> bool) (g : X -> Y) l :
  existsb f (map g l) = existsb (fun x => f (g x)) l.
Proof.
  induction l as [|x l IH]; [reflexivity|]. cbn [map existsb]. now rewrite IH.
Qed.

Lemma existsb_ext_in {X : Type} (f g : X -> bool) l :
  (forall x, In x l -> f x = g x) -> existsb f l = existsb g l.
Proof.
  induction l as [|x l IH]; [reflexivity|]. intros H. cbn [existsb].
  rewrite (H x (or_introl eq_refl)), IH; [reflexivity|].
  intros y Hy. apply H. now right.
Qed.

(** Counting by key over distinct keys counts each record at most once. *)
Section ByKey.
Variable key : BugData.t -> string.
Variable also : BugData.t -> bool.

Lemma includes_disjoint k rest s :
  ~ In k rest -> String.eqb s k = true -> includes rest s = false.
Proof.
  intros Hnot E. apply String.eqb_eq in E. subst s.
  apply not_true_iff_false. intros H. now apply includes_In in H.
Qed.

Lemma count_by_key keys bugs :
  NoDup keys ->
  sumNat (map (fun k => countRecords
                          (fun b => String.eqb (key b) k && also b) bugs) keys)
  = countRecords (fun b => includes keys (key b) && also b) bugs.
Proof.
  intros Hnd. induction Hnd as [|k rest Hnot Hnd IH].
  - cbn [map sumNat]. unfold includes. cbn [existsb andb].
    now rewrite countRecords_none.
  - cbn [map sumNat]. rewrite IH.
    rewrite <- (countRecords_or
                  (fun b => String.eqb (key b) k && also b)
                  (fun b => includes rest (key b) && also b)).
    + apply countRecords_ext. intros b. unfold includes. cbn [existsb].
      now rewrite andb_orb_distrib_l.
    + intros b H. apply andb_true_iff in H. destruct H as [H _].
      now rewrite (includes_disjoint k rest _ Hnot H).
Qed.

End ByKey.

Lemma andb_always (p : BugData.t -> bool) bugs :
  countRecords (fun b => p b && true) bugs = countRecords p bugs.
Proof. apply countRecords_ext. intros b. apply andb_true_r. Qed.

Lemma countRecords_length p bugs : (countRecords p bugs <= List.length bugs)%nat.
Proof.
  induction bugs as [|b l IH]; [apply Nat.le_refl|].
  cbn [countRecords List.length]. destruct (p b); lia.
Qed.

Lemma trailingMonths_offsets tz now :
  trailingMonths tz now
  = map (fun i => ((getMonth tz now - i) mod 12,
                   getFullYear tz now + (getMonth tz now - i) / 12))
      monthOffsets.
Proof.
  unfold trailingMonths, monthOffsets. cbv zeta. apply map_ext. intros i.
  f_equal; Z.div_mod_to_equations; lia.
Qed.

(** A record's label is the label of a bucket exactly when the record is
    counted by the series. *)
Lemma label_in_series tz now bug :
  includes
    (map (fun i => monthLabel ((getMonth tz now - i) mod 12)
                     (getFullYear tz now + (getMonth tz now - i) / 12))
       monthOffsets)
    (toLocaleDateString tz (BugData.created_at bug))
  = inSeries tz now bug.
Proof.
  unfold inSeries, includes. rewrite trailingMonths_offsets, !existsb_map.
  apply existsb_ext_in. intros i _. cbn [fst snd].
  apply label_matches.
  pose proof (Z.mod_pos_bound (getMonth tz now - i) 12). lia.
Qed.

Lemma monthlyData_submissions tz now bugs :
  map MonthlyData.submissions (calculateMonthlyData tz now bugs)
  = map (fun k => countRecords
                    (fun b => String.eqb
                                (toLocaleDateString tz (BugData.created_at b)) k
                              && true) bugs)
      (map (fun i => monthLabel ((getMonth tz now - i) mod 12)
                       (getFullYear tz now + (getMonth tz now - i) / 12))
         monthOffsets).
Proof.
  rewrite calculateMonthlyData_buckets, !map_map. apply map_ext. intros i.
  rewrite bucket_submissions. cbn [MonthlyData.submissions Nat.add].
  apply countRecords_ext. intros b. now rewrite andb_true_r.
Qed.

Lemma monthlyData_accepted tz now bugs :
  map MonthlyData.accepted (calculateMonthlyData tz now bugs)
  = map (fun k => countRecords
                    (fun b => String.eqb
                                (toLocaleDateString tz (BugData.created_at b)) k
                              && statusIn acceptedStatuses b) bugs)
      (map (fun i => monthLabel ((getMonth tz now - i) mod 12)
                       (getFullYear tz now + (getMonth tz now - i) / 12))
         monthOffsets).
Proof.
  rewrite calculateMonthlyData_buckets, !map_map. apply map_ext. intros i.
  rewrite bucket_accepted. reflexivity.
Qed.

(** The series counts no record twice: its submissions add up to the number
    of records that one of the 12 buckets counts, its accepted counts to
    the number of those of an accepted status. *)
Lemma monthly_series_sums tz now bugs :
  let out := calculateMonthlyData tz now bugs in
  sumNat (map MonthlyData.submissions out) = countRecords (inSeries tz now) bugs
  /\ sumNat (map MonthlyData.accepted out)
     = countRecords (fun b => inSeries tz now b && statusIn acceptedStatuses b)
         bugs.
Proof.
  cbv zeta. split.
  - rewrite monthlyData_submissions.
    rewrite count_by_key by apply bucketLabels_NoDup.
    rewrite andb_always. apply countRecords_ext. intros b.
    apply label_in_series.
  - rewrite monthlyData_accepted.
    rewrite count_by_key by apply bucketLabels_NoDup.
    apply countRecords_ext. intros b. now rewrite label_in_series.
Qed.

(** A record created in one of the trailing 12 months is counted. *)
Lemma inTrailingYear_inSeries tz now bug :
  inTrailingYear tz now bug -> inSeries tz now bug = true.
Proof.
  unfold inTrailingYear, inSeries, monthNumber. intros H.
  pose proof (getMonth_range tz (BugData.created_at bug)) as Hm.
  apply existsb_exists.
  exists (getMonth tz (BugData.created_at bug),
          getFullYear tz (BugData.created_at bug)).
  split.
  - unfold trailingMonths. cbv zeta. apply in_map_iff.
    exists (getFullYear tz now * 12 + getMonth tz now
            - (getFullYear tz (BugData.created_at bug) * 12
               + getMonth tz (BugData.created_at bug))).
    split.
    + f_equal; Z.div_mod_to_equations; lia.
    + apply (proj2 (monthOffsets_In _)). lia.
  - cbn [fst snd]. unfold createdInMonthOfCentury.
    now rewrite !Z.eqb_refl.
Qed.

(** X17.  The counts of the monthly series as a whole.  No record is counted
    twice: the submissions of the 12 buckets add up to the number of
    records that a bucket counts, at most the number of records, and the
    accepted counts to the number of those of an accepted status.  Every
    record created in one of the trailing 12 calendar months is among
    them. *)
Theorem monthly_series_totals (tz now : Z) (bugs : list BugData.t) :
  let out := calculateMonthlyData tz now bugs in
  sumNat (map MonthlyData.submissions out) = countRecords (inSeries tz now) bugs
  /\ (sumNat (map MonthlyData.submissions out) <= List.length bugs)%nat
  /\ sumNat (map MonthlyData.accepted out)
     = countRecords (fun b => inSeries tz now b && statusIn acceptedStatuses b)
         bugs
  /\ (forall bug, inTrailingYear tz now bug -> inSeries tz now bug = true).
Proof.
  destruct (monthly_series_sums tz now bugs) as (H1 & H3).
  cbv zeta in *.
  split; [exact H1|]. split; [rewrite H1; apply countRecords_length|].
  split; [exact H3|].
  apply inTrailingYear_inSeries.
Qed.

(** X18.  When every record was created in one of the trailing 12 calendar
    months, the series accounts for all of them: its submissions add up to
    the number of records, and its accepted counts to the number of records
    of an accepted status. *)
Theorem monthly_series_of_recent_records (tz now : Z) (bugs : list BugData.t) :
  Forall (inTrailingYear tz now) bugs ->
  let out := calculateMonthlyData tz now bugs in
  sumNat (map MonthlyData.submissions out) = List.length bugs
  /\ sumNat (map MonthlyData.accepted out)
     = countRecords (statusIn acceptedStatuses) bugs.
Proof.
  intros Hrecent.
  assert (Hall : Forall (fun b => inSeries tz now b = true) bugs).
  { eapply Forall_impl; [|exact Hrecent]. apply inTrailingYear_inSeries. }
  destruct (monthly_series_sums tz now bugs) as (H1 & H3).
  cbv zeta in *. split.
  - rewrite H1. now apply countRecords_all.
  - rewrite H3. clear -Hall. induction Hall as [|b l Hb Hl IH]; [reflexivity|].
    cbn [countRecords]. now rewrite Hb, IH.
Qed.

Lemma monthly_series_of_recent_records_witness :
  let bugs := [createdOnLeapDay2024;
               sampleBug "Draft" (Some 20%Q) midMarch2024 None] in
  let out := calculateMonthlyData 0 midMarch2024 bugs in
  sumNat (map MonthlyData.submissions out) = 2%nat
  /\ sumNat (map MonthlyData.accepted out) = 1%nat.
Proof.
  cbv zeta.
  pose proof (monthly_series_of_recent_records 0 midMarch2024
                [createdOnLeapDay2024;
                 sampleBug "Draft" (Some 20%Q) midMarch2024 None]) as H.
  cbv zeta in H. destruct H as (H1 & H3).
  - repeat constructor; vm_compute; discriminate.
  - split; [exact H1 | exact H3].
Defined.

(** ** The severity cards and the refresh of the view *)

Lemma severityBugs_length bugs severity :
  List.length (severityBugs bugs severity)
  = List.length (positiveAmounts (ofSeverity severity bugs)).
Proof.
  unfold severityBugs, ofSeverity.
  induction bugs as [|b l IH]; [reflexivity|]. cbn [filter].
  destruct (String.eqb (BugData.severity b) severity);
    cbn [andb positiveAmounts]; [|exact IH].
  destruct (BugData.bounty_amount b) as [q|]; [|exact IH].
  rewrite positive_test.
  destruct (Qlt_le_dec 0 q); cbn [List.length]; now rewrite IH.
Qed.

Lemma severityBugs_total bugs severity :
  (totalBounty (severityBugs bugs severity)
   == sumQ (positiveAmounts (ofSeverity severity bugs)))%Q.
Proof.
  unfold severityBugs, ofSeverity.
  induction bugs as [|b l IH]; [reflexivity|]. cbn [filter].
  destruct (String.eqb (BugData.severity b) severity);
    cbn [andb positiveAmounts]; [|exact IH].
  destruct (BugData.bounty_amount b) as [q|] eqn:Eq; [|exact IH].
  rewrite positive_test.
  destruct (Qlt_le_dec 0 q); [|exact IH].
  cbn [totalBounty sumQ]. rewrite Eq, IH. reflexivity.
Qed.

Lemma sumQ_pos q qs : Forall (fun x => (0 < x)%Q) (q :: qs) -> (0 < sumQ (q :: qs))%Q.
Proof.
  intros H. inversion H as [|? ? Hq Hqs]; subst. cbn [sumQ].
  apply Qlt_le_trans with (q + 0)%Q.
  - now rewrite Qplus_0_r.
  - apply Qplus_le_compat; [apply Qle_refl | now apply sumQ_nonneg].
Qed.

(** X19.  The card of a severity.  [avgAmount] is the mean of the positive
    amounts of the records of that severity, whatever the other amounts
    are: it is positive when there is such an amount and 0 when there is
    none.  [count] is the number of records of that severity. *)
Theorem severity_card_average (bugs : list BugData.t) (severity : string) :
  (avgAmount bugs severity
   == meanQ (positiveAmounts (ofSeverity severity bugs)))%Q
  /\ (positiveAmounts (ofSeverity severity bugs) <> [] ->
      (0 < avgAmount bugs severity)%Q)
  /\ (positiveAmounts (ofSeverity severity bugs) = [] ->
      (avgAmount bugs severity == 0)%Q)
  /\ count bugs severity
     = countRecords (fun b => String.eqb (BugData.severity b) severity) bugs
  /\ (List.length (positiveAmounts (ofSeverity severity bugs))
      <= count bugs severity)%nat.
Proof.
  assert (Hmean : (avgAmount bugs severity
                   == meanQ (positiveAmounts (ofSeverity severity bugs)))%Q).
  { unfold avgAmount. rewrite severityBugs_length.
    pose proof (severityBugs_total bugs severity) as Ht.
    destruct (positiveAmounts (ofSeverity severity bugs)) as [|q qs];
      [reflexivity|].
    change (0 <? List.length (q :: qs))%nat with true. cbv iota.
    unfold meanQ. rewrite sumBounty_total, Ht. reflexivity. }
  split; [exact Hmean|]. split; [|split; [|split]].
  - intros Hne. rewrite Hmean.
    pose proof (positiveAmounts_positive (ofSeverity severity bugs)) as Hpos.
    destruct (positiveAmounts (ofSeverity severity bugs)) as [|q qs];
      [congruence|].
    unfold meanQ. apply Qlt_shift_div_l.
    + apply num_pos. cbn [List.length]. lia.
    + rewrite Qmult_0_l. now apply sumQ_pos.
  - intros E. rewrite Hmean, E. reflexivity.
  - unfold count. now rewrite countRecords_filter.
  - rewrite <- severityBugs_length. unfold severityBugs, count. clear Hmean.
    induction bugs as [|b l IH]; [apply Nat.le_refl|]. cbn [filter].
    destruct (String.eqb (BugData.severity b) severity); cbn [andb];
      [|exact IH].
    destruct (match BugData.bounty_amount b with
              | Some q => negb (Qeq_bool q 0) && negb (Qle_bool q 0)
              | None => false
              end); cbn [List.length]; lia.
Qed.

Lemma rowCount_records bugs severity :
  JsObject.inherited severity = false ->
  rowCount (calculateSeverityData bugs) severity
  = countRecords (fun b => String.eqb (BugData.severity b) severity) bugs.
Proof.
  intros Hs. unfold rowCount, severityCounts, calculateSeverityData.
  rewrite filter_map_comm, map_map.
  rewrite <- (entries_under BugData.severity bugs severity Hs).
  f_equal. rewrite (filter_ext _ (fun e => String.eqb (fst e) severity))
    by (now intros [k v]).
  apply map_ext. now intros [k v].
Qed.

Lemma countRecords_filter_le (p q : BugData.t -> bool) bugs :
  (countRecords p (filter q bugs) <= countRecords p bugs)%nat.
Proof.
  induction bugs as [|b l IH]; [apply Nat.le_refl|]. cbn [filter].
  destruct (q b); cbn [countRecords]; lia.
Qed.

(** X20.  The severity cards and the severity chart after a fetch.  For each of
    the five severities of the cards, the chart's row holds the number of
    records of that severity in the selected window (0 without a row),
    while the card counts those of all fetched records: the chart's number
    is at most the card's, and equal to it when the selector does not
    filter. *)
Theorem severity_cards_count_all_records (tz now : Z) (timeRange : string)
  (rows : list BugData.t) (view : View.t) (severity : string) :
  In severity ["Critical"; "High"; "Medium"; "Low"; "Informational"]%string ->
  let v := fetchAnalyticsData tz now timeRange (Rows (Some rows)) view in
  rowCount (View.severityData v) severity
  = count (filterBugsByTimeRange tz now rows timeRange) severity
  /\ count (View.bugs v) severity = count rows severity
  /\ (rowCount (View.severityData v) severity
      <= count (View.bugs v) severity)%nat
  /\ (timeRange <> "month"%string -> timeRange <> "6months"%string ->
      timeRange <> "year"%string ->
      rowCount (View.severityData v) severity
      = count (View.bugs v) severity).
Proof.
  intros Hs.
  assert (Hord : JsObject.inherited severity = false).
  { cbn [In] in Hs. intuition (subst; reflexivity). }
  cbv zeta.
  cbn [fetchAnalyticsData View.severityData View.bugs].
  rewrite (rowCount_records _ severity Hord).
  unfold count. rewrite <- !countRecords_filter.
  split; [reflexivity|]. split; [reflexivity|]. split.
  - destruct (filterBugsByTimeRange_filter tz now timeRange) as [p Hp].
    rewrite Hp. apply countRecords_filter_le.
  - intros H1 H2 H3. unfold filterBugsByTimeRange.
    apply String.eqb_neq in H1, H2, H3. now rewrite H1, H2, H3.
Qed.

Lemma severity_cards_count_all_records_witness :
  let v := fetchAnalyticsData 0 midMarch2024 "month"
             (Rows (Some [createdOnLeapDay2024; createdInApril2024]))
             initialView in
  rowCount (View.severityData v) "High" = 1%nat
  /\ count (View.bugs v) "High" = 2%nat.
Proof.
  cbv zeta.
  destruct (severity_cards_count_all_records 0 midMarch2024 "month"
              [createdOnLeapDay2024; createdInApril2024] initialView "High")
    as (H1 & H2 & _).
  - right. left. reflexivity.
  - cbv zeta in H1, H2. split; [rewrite H1 | rewrite H2]; reflexivity.
Defined.

(** X21.  A fetch that returns no rows, or [null], resets the view: the list of
    records and the distributions, the rollup and the leaderboard are
    empty, the statistics are the initial ones, all 0, and the view is no
    longer loading.  The monthly series still has its 12 buckets, labelled
    with the trailing 12 months, each with no earnings, no submission and
    no accepted record. *)
Theorem fetchAnalyticsData_without_rows (tz now : Z) (timeRange : string)
  (bugsData : option (list BugData.t)) (view : View.t) :
  bugsData = None \/ bugsData = Some [] ->
  let v := fetchAnalyticsData tz now timeRange (Rows bugsData) view in
  View.bugs v = [] /\ View.loading v = false
  /\ View.stats v = initialStats
  /\ View.severityData v = [] /\ View.statusData v = []
  /\ View.platformData v = [] /\ View.topPrograms v = []
  /\ map MonthlyData.month (View.monthlyData v)
     = map (fun month => monthLabel (fst month) (snd month))
         (trailingMonths tz now)
  /\ Forall (fun bucket =>
       MonthlyData.earnings bucket = 0%Q
       /\ MonthlyData.submissions bucket = 0%nat
       /\ MonthlyData.accepted bucket = 0%nat) (View.monthlyData v).
Proof.
  intros Hd. cbv zeta.
  assert (E : fetchAnalyticsData tz now timeRange (Rows bugsData) view
              = fetchAnalyticsData tz now timeRange (Rows (Some [])) view)
    by (destruct Hd as [-> | ->]; reflexivity).
  rewrite E. clear E Hd.
  assert (Hf : filterBugsByTimeRange tz now [] timeRange = []).
  { destruct (filterBugsByTimeRange_filter tz now timeRange) as [p Hp].
    now rewrite Hp. }
  cbn [fetchAnalyticsData View.bugs View.loading View.stats
       View.severityData View.statusData View.platformData View.topPrograms
       View.monthlyData].
  rewrite Hf.
  repeat match goal with |- _ /\ _ => split end; try reflexivity.
  - rewrite calculateMonthlyData_buckets, trailingMonths_offsets, !map_map.
    apply map_ext. intros i. reflexivity.
  - rewrite calculateMonthlyData_buckets. apply Forall_map, Forall_forall.
    intros i _. repeat split.
Qed.

Lemma fetchAnalyticsData_without_rows_witness :
  let v := fetchAnalyticsData 0 midMarch2024 "year" (Rows None) initialView in
  View.stats v = initialStats
  /\ map MonthlyData.month (View.monthlyData v)
     = ["Apr 23"; "May 23"; "Jun 23"; "Jul 23"; "Aug 23"; "Sep 23"; "Oct 23";
        "Nov 23"; "Dec 23"; "Jan 24"; "Feb 24"; "Mar 24"]%string.
Proof.
  cbv zeta.
  destruct (fetchAnalyticsData_without_rows 0 midMarch2024 "year" None
              initialView) as (_ & _ & H & _ & _ & _ & _ & Hm & _).
  - left. reflexivity.
  - cbv zeta in H, Hm. split; [exact H|]. rewrite Hm. reflexivity.
Defined.

(** ** The calendar buckets in calendar terms *)

Lemma before_first_of_month tz y m t :
  t < newDate tz y m 1 <-> getFullYear tz t * 12 + getMonth tz t < y * 12 + m.
Proof.
  pose proof (since_first_of_month tz y m t) as H. split; intros Hlt.
  - destruct (Z_lt_le_dec (getFullYear tz t * 12 + getMonth tz t) (y * 12 + m))
      as [Hl|Hg]; [exact Hl|].
    apply (proj2 H) in Hg. lia.
  - destruct (Z_lt_le_dec t (newDate tz y m 1)) as [Hl|Hg]; [exact Hl|].
    apply (proj1 H) in Hg. lia.
Qed.

Lemma lastMonthStart_eq tz now :
  lastMonthStart tz now
  = newDate tz (getFullYear tz now) (getMonth tz now - 1) 1.
Proof. reflexivity. Qed.

Lemma thisMonthStart_eq tz now :
  thisMonthStart tz now = newDate tz (getFullYear tz now) (getMonth tz now) 1.
Proof. reflexivity. Qed.

Lemma lastYearStart_eq tz now :
  lastYearStart tz now = newDate tz (getFullYear tz now - 1) 0 1.
Proof. reflexivity. Qed.

Lemma thisYearStart_eq tz now :
  thisYearStart tz now = newDate tz (getFullYear tz now) 0 1.
Proof. reflexivity. Qed.

Lemma inLastMonth_month tz now date :
  inLastMonth tz now date = true ->
  monthNumber tz date = monthNumber tz now - 1.
Proof.
  intros H. apply inLastMonth_within in H. destruct H as [H1 H2].
  rewrite lastMonthStart_eq in H1. rewrite thisMonthStart_eq in H2.
  pose proof (proj1 (since_first_of_month tz (getFullYear tz now)
                       (getMonth tz now - 1) date) H1) as G1.
  pose proof (proj1 (before_first_of_month tz (getFullYear tz now)
                       (getMonth tz now) date) H2) as G2.
  unfold monthNumber. lia.
Qed.

Lemma inLastYear_year tz now date :
  inLastYear tz now date = true ->
  getFullYear tz date = getFullYear tz now - 1.
Proof.
  intros H. apply inLastYear_within in H. destruct H as [H1 H2].
  rewrite lastYearStart_eq in H1. rewrite thisYearStart_eq in H2.
  pose proof (proj1 (since_first_of_month tz (getFullYear tz now - 1) 0 date)
                H1) as G1.
  pose proof (proj1 (before_first_of_month tz (getFullYear tz now) 0 date)
                H2) as G2.
  pose proof (getMonth_range tz date). lia.
Qed.

(** X22.  The calendar sums of the summary in calendar terms.  The earnings of
    this month are the total amount of the records created, in local time,
    in the month of [now] or later, those of this year the total amount of
    the records created in the year of [now] or later.  Every record
    counted in the earnings of last month was created in the calendar month
    before that of [now], and every record counted in the earnings of last
    year in the calendar year before. *)
Theorem calendar_buckets_by_month (tz now : Z)
  (filteredBugs allBugs : list BugData.t) :
  let stats := calculateStats tz now filteredBugs allBugs in
  (AnalyticsStats.thisMonthEarnings stats
   == totalBounty
        (filter (fun bug => monthNumber tz now
                            <=? monthNumber tz (BugData.created_at bug))
           allBugs))%Q
  /\ (AnalyticsStats.thisYearEarnings stats
      == totalBounty
           (filter (fun bug => getFullYear tz now
                               <=? getFullYear tz (BugData.created_at bug))
              allBugs))%Q
  /\ (AnalyticsStats.lastMonthEarnings stats
      == totalBounty
           (filter (fun bug => inLastMonth tz now (BugData.created_at bug))
              allBugs))%Q
  /\ (AnalyticsStats.lastYearEarnings stats
      == totalBounty
           (filter (fun bug => inLastYear tz now (BugData.created_at bug))
              allBugs))%Q
  /\ (forall date, inLastMonth tz now date = true ->
                   monthNumber tz date = monthNumber tz now - 1)
  /\ (forall date, inLastYear tz now date = true ->
                   getFullYear tz date = getFullYear tz now - 1).
Proof.
  cbv zeta.
  rewrite thisMonthEarnings_since, thisYearEarnings_since.
  repeat match goal with |- _ /\ _ => split end.
  - erewrite totalBounty_ext; [reflexivity|]. intros bug.
    apply eq_true_iff_eq. rewrite !Z.leb_le, since_first_of_month.
    unfold monthNumber. reflexivity.
  - erewrite totalBounty_ext; [reflexivity|]. intros bug.
    apply eq_true_iff_eq. rewrite !Z.leb_le, since_first_of_month.
    pose proof (getMonth_range tz (BugData.created_at bug)). lia.
  - apply lastMonthEarnings_bucket.
  - apply lastYearEarnings_bucket.
  - apply inLastMonth_month.
  - apply inLastYear_year.
Qed.
